(** * The report vectorizer of [utils/vectorizer.py]

    A shallow embedding of [Vectorizer.make_vector] and of the stages it
    drives, together with the part of Python's [re] module the stages
    call.  The pattern files of the [patterns/] directory are data that
    the constructor loads; the development is parametric in them.

    Python version.  [run.py] calls [reader.next()] and
    [gentest_classifier.Model] declares properties on a class without a
    base, both of which only run under Python 2.  The two places of the
    vectorizer whose meaning depends on the interpreter (the division
    [len(window) / 2] and the whitespace class) take the version as a
    parameter, so that every statement below says for which
    interpreter it holds. *)

From Stdlib Require Import String Ascii List ZArith Bool Arith Lia.
Import ListNotations.
Open Scope string_scope.

Inductive PyVersion : Set := Py2 | Py3.

(** ** Characters *)

Module Char.

Definition code (c : ascii) : nat := nat_of_ascii c.

Definition between (lo hi : nat) (c : ascii) : bool :=
  ((lo <=? code c) && (code c <=? hi))%nat.

Definition isdigit (c : ascii) : bool := between 48 57 c.
Definition isupper (c : ascii) : bool := between 65 90 c.
Definition islower (c : ascii) : bool := between 97 122 c.

(** [\w] on code points below 128. *)
Definition isword (c : ascii) : bool :=
  isdigit c || isupper c || islower c || (code c =? 95)%nat.

(** [\s] and the separators of [str.split()]: tab to carriage return
    and the space; a Python 3 [str] adds the four separators 28..31
    and, above 127, NEL and the no-break space. *)
Definition isspace (v : PyVersion) (c : ascii) : bool :=
  between 9 13 c || (code c =? 32)%nat ||
  match v with
  | Py2 => false
  | Py3 => between 28 31 c || (code c =? 133)%nat || (code c =? 160)%nat
  end.

Definition upper (c : ascii) : ascii :=
  if islower c then ascii_of_nat (code c - 32) else c.

Definition lower (c : ascii) : ascii :=
  if isupper c then ascii_of_nat (code c + 32) else c.

Definition newline : ascii := ascii_of_nat 10.
Definition dquote : ascii := ascii_of_nat 34.

End Char.

(** ** Strings, as Python's [str] methods use them *)

Module Str.

Fixpoint upper (s : string) : string :=
  match s with
  | EmptyString => EmptyString
  | String c s' => String (Char.upper c) (upper s')
  end.

Fixpoint drop (n : nat) (s : string) : string :=
  match n, s with
  | 0, _ => s
  | S n', String _ s' => drop n' s'
  | S _, EmptyString => EmptyString
  end.

Fixpoint take (n : nat) (s : string) : string :=
  match n, s with
  | 0, _ => EmptyString
  | S n', String c s' => String c (take n' s')
  | S _, EmptyString => EmptyString
  end.

(** [s[a:b]] for [0 <= a], [0 <= b]. *)
Definition slice (a b : nat) (s : string) : string :=
  take (b - a) (drop a s).

(** [s[:-n]] *)
Definition drop_last (n : nat) (s : string) : string :=
  take (String.length s - n) s.

Fixpoint starts_with (p s : string) : bool :=
  match p, s with
  | EmptyString, _ => true
  | String a p', String b s' => Ascii.eqb a b && starts_with p' s'
  | String _ _, EmptyString => false
  end.

(** [s.replace(old, new)] ([old] non-empty in every use). *)
Fixpoint replace_go (old new : string) (skip : nat) (s : string) : string :=
  match s with
  | EmptyString => EmptyString
  | String c s' =>
      match skip with
      | S k => replace_go old new k s'
      | 0 =>
          if starts_with old s
          then new ++ replace_go old new (String.length old - 1) s'
          else String c (replace_go old new 0 s')
      end
  end.

Definition replace (old new s : string) : string :=
  replace_go old new 0 s.

(** [s.count(sub)]: occurrences that do not overlap, from the left. *)
Fixpoint count_go (sub : string) (skip : nat) (s : string) : nat :=
  match s with
  | EmptyString => 0
  | String _ s' =>
      match skip with
      | S k => count_go sub k s'
      | 0 =>
          if starts_with sub s
          then S (count_go sub (String.length sub - 1) s')
          else count_go sub 0 s'
      end
  end.

Definition count (sub s : string) : nat := count_go sub 0 s.

(** [s.split()]: maximal runs of characters that are not whitespace. *)
Fixpoint split_go (v : PyVersion) (cur : string) (s : string) : list string :=
  match s with
  | EmptyString =>
      match cur with EmptyString => [] | _ => [cur] end
  | String c s' =>
      if Char.isspace v c
      then match cur with
           | EmptyString => split_go v EmptyString s'
           | _ => cur :: split_go v EmptyString s'
           end
      else split_go v (cur ++ String c EmptyString) s'
  end.

Definition split (v : PyVersion) (s : string) : list string :=
  split_go v EmptyString s.

Fixpoint lstrip (v : PyVersion) (s : string) : string :=
  match s with
  | String c s' => if Char.isspace v c then lstrip v s' else s
  | EmptyString => EmptyString
  end.

Fixpoint rstrip (v : PyVersion) (s : string) : string :=
  match s with
  | String c s' =>
      match rstrip v s' with
      | EmptyString =>
          if Char.isspace v c then EmptyString else String c EmptyString
      | r => String c r
      end
  | EmptyString => EmptyString
  end.

(** [s.strip()] *)
Definition strip (v : PyVersion) (s : string) : string :=
  rstrip v (lstrip v s).

End Str.

(** ** The [re] module

    Patterns are parsed from their source text, as [re.compile] does, into
    the syntax tree below; matching is Python's backtracking search:
    alternatives in order, greedy repetition, the first match from the
    left.  The parser accepts the constructs this program's patterns are
    written in (literals, escapes, classes, groups, alternation, greedy
    repetition, [^], [$] and [.]) and refuses anything else, as a pattern
    that does not compile. *)

Module re.

Inductive category : Set :=
  Digit | NotDigit | Space | NotSpace | Word | NotWord.

Inductive citem : Set :=
| CChar (c : ascii)
| CRange (lo hi : ascii)
| CCat (k : category).

Inductive regex : Set :=
| Empty
| Lit (c : ascii)
| Any
| In (negate : bool) (items : list citem)
| Cat (r1 r2 : regex)
| Or (r1 r2 : regex)
| Repeat (lo : nat) (hi : option nat) (r : regex)
| Group (n : nat) (r : regex)
| AtBeginning
| AtEnd.

(** *** Parsing *)

Definition isc (c : ascii) (lit : string) : bool :=
  match lit with
  | String d EmptyString => Ascii.eqb c d
  | _ => false
  end.

Fixpoint read_digits (s : string) : string * string :=
  match s with
  | String c s' =>
      if Char.isdigit c
      then let '(d, r) := read_digits s' in (String c d, r)
      else (EmptyString, s)
  | EmptyString => (EmptyString, EmptyString)
  end.

Fixpoint int_go (acc : nat) (s : string) : nat :=
  match s with
  | String c s' => int_go (10 * acc + (Char.code c - 48)) s'
  | EmptyString => acc
  end.

Definition int (s : string) : nat := int_go 0 s.

Inductive brace : Set :=
| BraceLiteral
| BraceError
| BraceRepeat (lo : nat) (hi : option nat) (rest : string).

(** What follows an opening brace: [{m}], [{m,}], [{,n}], [{m,n}] are
    repetitions, anything else leaves the brace a literal. *)
Definition read_brace (s : string) : brace :=
  match s with
  | String c _ =>
      if isc c "}" then BraceLiteral else
      let '(lo, s1) := read_digits s in
      let '(hi, s2) :=
        match s1 with
        | String c1 s1' =>
            if isc c1 "," then read_digits s1' else (lo, s1)
        | EmptyString => (lo, s1)
        end in
      match s2 with
      | String c2 s2' =>
          if isc c2 "}" then
            let mn := match lo with EmptyString => 0 | _ => int lo end in
            match hi with
            | EmptyString => BraceRepeat mn None s2'
            | _ => if (int hi <? mn)%nat then BraceError
                   else BraceRepeat mn (Some (int hi)) s2'
            end
          else BraceLiteral
      | EmptyString => BraceLiteral
      end
  | EmptyString => BraceLiteral
  end.

Definition category_of (c : ascii) : option category :=
  if isc c "d" then Some Digit else
  if isc c "D" then Some NotDigit else
  if isc c "s" then Some Space else
  if isc c "S" then Some NotSpace else
  if isc c "w" then Some Word else
  if isc c "W" then Some NotWord else None.

Definition control_of (c : ascii) : option ascii :=
  if isc c "n" then Some (ascii_of_nat 10) else
  if isc c "t" then Some (ascii_of_nat 9) else
  if isc c "r" then Some (ascii_of_nat 13) else
  if isc c "f" then Some (ascii_of_nat 12) else
  if isc c "v" then Some (ascii_of_nat 11) else
  if isc c "a" then Some (ascii_of_nat 7) else None.

Definition alnum (c : ascii) : bool :=
  Char.isdigit c || Char.isupper c || Char.islower c.

(** The character after a backslash, inside a class. *)
Definition class_escape (c : ascii) : option citem :=
  match category_of c with
  | Some k => Some (CCat k)
  | None =>
      match control_of c with
      | Some x => Some (CChar x)
      | None =>
          if isc c "b" then Some (CChar (ascii_of_nat 8)) else
          if alnum c then None else Some (CChar c)
      end
  end.

(** The character after a backslash, outside a class. *)
Definition escape (c : ascii) : option regex :=
  match category_of c with
  | Some k => Some (In false [CCat k])
  | None =>
      match control_of c with
      | Some x => Some (Lit x)
      | None => if alnum c then None else Some (Lit c)
      end
  end.

(** One class member: a character or an escape. *)
Definition class_member (s : string) : option (citem * string) :=
  match s with
  | String c s' =>
      if isc c "\" then
        match s' with
        | String e s'' =>
            match class_escape e with
            | Some i => Some (i, s'')
            | None => None
            end
        | EmptyString => None
        end
      else Some (CChar c, s')
  | EmptyString => None
  end.

(** The members of a class up to its closing bracket; [first] is set
    at the position where a closing bracket is still a literal. *)
Fixpoint parse_class (fuel : nat) (first : bool) (s : string)
  : option (list citem * string) :=
  match fuel with
  | 0 => None
  | S f =>
      match s with
      | EmptyString => None
      | String c s' =>
          if isc c "]" && negb first then Some ([], s') else
          match class_member s with
          | None => None
          | Some (i1, s1) =>
              match s1 with
              | String d s2 =>
                  if isc d "-" then
                    match s2 with
                    | EmptyString => None
                    | String e s3 =>
                        if isc e "]" then Some ([i1; CChar d], s3) else
                        match class_member s2 with
                        | None => None
                        | Some (i2, s4) =>
                            match i1, i2 with
                            | CChar lo, CChar hi =>
                                if (Char.code hi <? Char.code lo)%nat then None
                                else
                                  match parse_class f false s4 with
                                  | Some (l, r) => Some (CRange lo hi :: l, r)
                                  | None => None
                                  end
                            | _, _ => None
                            end
                        end
                    end
                  else
                    match parse_class f false s1 with
                    | Some (l, r) => Some (i1 :: l, r)
                    | None => None
                    end
              | EmptyString => None
              end
          end
      end
  end.

Definition cat (a b : regex) : regex :=
  match b with Empty => a | _ => Cat a b end.

Definition repeatable (r : regex) : bool :=
  match r with AtBeginning | AtEnd | Empty => false | _ => true end.

(** The repetition that follows an item, if any; a second repetition
    sign after it, or a lazy [?], is refused. *)
Definition quantifier (a : regex) (s : string) : option (regex * string) :=
  let found :=
    match s with
    | String c s' =>
        if isc c "?" then Some (Some (0, Some 1, s')) else
        if isc c "*" then Some (Some (0, None, s')) else
        if isc c "+" then Some (Some (1, None, s')) else
        if isc c "{" then
          match read_brace s' with
          | BraceLiteral => Some None
          | BraceError => None
          | BraceRepeat lo hi r => Some (Some (lo, hi, r))
          end
        else Some None
    | EmptyString => Some None
    end in
  match found with
  | None => None
  | Some None => Some (a, s)
  | Some (Some (lo, hi, r)) =>
      if negb (repeatable a) then None else
      match r with
      | String c r' =>
          if isc c "?" || isc c "*" || isc c "+" then None else
          if isc c "{" then
            match read_brace r' with
            | BraceLiteral => Some (Repeat lo hi a, r)
            | _ => None
            end
          else Some (Repeat lo hi a, r)
      | EmptyString => Some (Repeat lo hi a, r)
      end
  end.

(** [parse_alt] reads alternatives, [parse_seq] a sequence of items and
    [parse_item] one item; [g] is the number of groups opened so far. *)
Fixpoint parse_alt (fuel : nat) (s : string) (g : nat)
  : option (regex * string * nat) :=
  match fuel with
  | 0 => None
  | S f =>
      match parse_seq f s g with
      | None => None
      | Some (r1, s1, g1) =>
          match s1 with
          | String c s2 =>
              if isc c "|" then
                match parse_alt f s2 g1 with
                | Some (r2, s3, g2) => Some (Or r1 r2, s3, g2)
                | None => None
                end
              else Some (r1, s1, g1)
          | EmptyString => Some (r1, s1, g1)
          end
      end
  end

with parse_seq (fuel : nat) (s : string) (g : nat)
  : option (regex * string * nat) :=
  match fuel with
  | 0 => None
  | S f =>
      match s with
      | EmptyString => Some (Empty, s, g)
      | String c _ =>
          if isc c "|" || isc c ")" then Some (Empty, s, g) else
          match parse_item f s g with
          | None => None
          | Some (a, s1, g1) =>
              match quantifier a s1 with
              | None => None
              | Some (a', s2) =>
                  match parse_seq f s2 g1 with
                  | Some (r, s3, g2) => Some (cat a' r, s3, g2)
                  | None => None
                  end
              end
          end
      end
  end

with parse_item (fuel : nat) (s : string) (g : nat)
  : option (regex * string * nat) :=
  match fuel with
  | 0 => None
  | S f =>
      match s with
      | EmptyString => None
      | String c s' =>
          if isc c "(" then
            match s' with
            | String q s'' =>
                if isc q "?" then
                  match s'' with
                  | String k t =>
                      if isc k ":" then
                        match parse_alt f t g with
                        | Some (r, String p rest, g1) =>
                            if isc p ")" then Some (r, rest, g1) else None
                        | _ => None
                        end
                      else None
                  | EmptyString => None
                  end
                else
                  match parse_alt f s' (S g) with
                  | Some (r, String p rest, g1) =>
                      if isc p ")" then Some (Group (S g) r, rest, g1) else None
                  | _ => None
                  end
            | EmptyString => None
            end
          else if isc c "[" then
            match s' with
            | String n t =>
                let '(neg, body) := if isc n "^" then (true, t) else (false, s') in
                match parse_class (S (String.length body)) true body with
                | Some (items, rest) => Some (In neg items, rest, g)
                | None => None
                end
            | EmptyString => None
            end
          else if isc c "\" then
            match s' with
            | String e rest =>
                match escape e with
                | Some r => Some (r, rest, g)
                | None => None
                end
            | EmptyString => None
            end
          else if isc c "." then Some (Any, s', g)
          else if isc c "^" then Some (AtBeginning, s', g)
          else if isc c "$" then Some (AtEnd, s', g)
          else if isc c "*" || isc c "+" || isc c "?" then None
          else if isc c "{" then
            match read_brace s' with
            | BraceLiteral => Some (Lit c, s', g)
            | _ => None
            end
          else Some (Lit c, s', g)
      end
  end.

Definition parse (s : string) : option regex :=
  match parse_alt (4 * String.length s + 8) s 0 with
  | Some (r, EmptyString, _) => Some r
  | _ => None
  end.

(** *** Matching *)

Record flags : Set := Flags { MULTILINE : bool; IGNORECASE : bool }.

Definition no_flags : flags := Flags false false.

(** A compiled pattern keeps its source text ([pattern.pattern]). *)
Record pattern : Set :=
  Pattern { source : string; pflags : flags; prog : regex }.

Definition compile (fl : flags) (s : string) : option pattern :=
  match parse s with
  | Some r => Some (Pattern s fl r)
  | None => None
  end.

(** The matcher's position: the index in the subject, the character
    before it, what is left to read, and the spans of the groups
    closed so far. *)
Record mstate : Set :=
  MState { pos : nat; prev : option ascii; rest : string;
           caps : list (nat * (nat * nat)) }.

Definition in_category (v : PyVersion) (k : category) (c : ascii) : bool :=
  match k with
  | Digit => Char.isdigit c
  | NotDigit => negb (Char.isdigit c)
  | Space => Char.isspace v c
  | NotSpace => negb (Char.isspace v c)
  | Word => Char.isword c
  | NotWord => negb (Char.isword c)
  end.

Definition item_matches (v : PyVersion) (c : ascii) (i : citem) : bool :=
  match i with
  | CChar d => Ascii.eqb c d
  | CRange lo hi => ((Char.code lo <=? Char.code c) && (Char.code c <=? Char.code hi))%nat
  | CCat k => in_category v k c
  end.

Definition set_matches (v : PyVersion) (fl : flags)
           (neg : bool) (items : list citem) (c : ascii) : bool :=
  let hit x := existsb (item_matches v x) items in
  xorb neg (if IGNORECASE fl
            then hit c || hit (Char.lower c) || hit (Char.upper c)
            else hit c).

Definition lit_matches (fl : flags) (d c : ascii) : bool :=
  if IGNORECASE fl
  then Ascii.eqb (Char.lower c) (Char.lower d)
  else Ascii.eqb c d.

(** Read one character that satisfies [ok]. *)
Definition eat (ok : ascii -> bool) (st : mstate)
           (k : mstate -> option mstate) : option mstate :=
  match rest st with
  | String c s' =>
      if ok c then k (MState (S (pos st)) (Some c) s' (caps st)) else None
  | EmptyString => None
  end.

Definition at_beginning (fl : flags) (st : mstate) : bool :=
  match prev st with
  | None => true
  | Some c => MULTILINE fl && Ascii.eqb c Char.newline
  end.

Definition at_end (fl : flags) (st : mstate) : bool :=
  match rest st with
  | EmptyString => true
  | String c EmptyString => Ascii.eqb c Char.newline
  | String c _ => MULTILINE fl && Ascii.eqb c Char.newline
  end.

Definition may_repeat (count : nat) (hi : option nat) : bool :=
  match hi with
  | None => true
  | Some h => (count <? h)%nat
  end.

(** Greedy repetition of [body]: one more round is tried first, then
    the rest of the pattern.  A round that read nothing ends the
    repetition once the minimum is reached. *)
Fixpoint rep (body : mstate -> (mstate -> option mstate) -> option mstate)
         (lo : nat) (hi : option nat) (fuel count : nat)
         (st : mstate) (k : mstate -> option mstate) : option mstate :=
  match fuel with
  | 0 => if (lo <=? count)%nat then k st else None
  | S f =>
      let more :=
        if may_repeat count hi
        then body st (fun st' =>
               if (pos st' =? pos st)%nat && (lo <=? S count)%nat
               then k st'
               else rep body lo hi f (S count) st' k)
        else None in
      match more with
      | Some r => Some r
      | None => if (lo <=? count)%nat then k st else None
      end
  end.

Fixpoint m (v : PyVersion) (fl : flags) (r : regex)
         (st : mstate) (k : mstate -> option mstate) : option mstate :=
  match r with
  | Empty => k st
  | Lit d => eat (lit_matches fl d) st k
  | Any => eat (fun c => negb (Ascii.eqb c Char.newline)) st k
  | In neg items => eat (set_matches v fl neg items) st k
  | Cat r1 r2 => m v fl r1 st (fun st' => m v fl r2 st' k)
  | Or r1 r2 =>
      match m v fl r1 st k with
      | Some x => Some x
      | None => m v fl r2 st k
      end
  | Repeat lo hi r' =>
      rep (m v fl r') lo hi (lo + String.length (rest st) + 1) 0 st k
  | Group n r' =>
      m v fl r' st (fun st' =>
        k (MState (pos st') (prev st') (rest st')
                  ((n, (pos st, pos st')) :: caps st')))
  | AtBeginning => if at_beginning fl st then k st else None
  | AtEnd => if at_end fl st then k st else None
  end.

(** A match object: [start()], [end()] and the group spans. *)
Record rmatch : Set :=
  Match { m_start : nat; m_end : nat; m_caps : list (nat * (nat * nat)) }.

(** The match that starts exactly at [i], where [s] is the subject
    from [i] on and [pv] the character before it. *)
Definition match_at (v : PyVersion) (p : pattern)
           (i : nat) (pv : option ascii) (s : string) : option rmatch :=
  match m v (pflags p) (prog p) (MState i pv s []) Some with
  | Some st => Some (Match i (pos st) (caps st))
  | None => None
  end.

(** The subject cut by the matches that do not overlap, from the
    left: a character outside every match, or a match. *)
Inductive piece : Set :=
| Keep (c : ascii)
| Hit (x : rmatch).

(** [skip] counts the characters of the current match still to pass;
    [adj] says that a match has just ended here, where [sub] before
    Python 3.7 ([adj_rule]) leaves an empty match alone. *)
Fixpoint scan (v : PyVersion) (p : pattern) (adj_rule : bool)
         (skip : nat) (adj : bool)
         (i : nat) (pv : option ascii) (s : string) : list piece :=
  match s with
  | EmptyString =>
      match skip with
      | S _ => []
      | 0 =>
          match match_at v p i pv s with
          | Some x => if adj_rule && adj then [] else [Hit x]
          | None => []
          end
      end
  | String c s' =>
      match skip with
      | S n => scan v p adj_rule n true (S i) (Some c) s'
      | 0 =>
          match match_at v p i pv s with
          | None => Keep c :: scan v p adj_rule 0 false (S i) (Some c) s'
          | Some x =>
              match m_end x - i with
              | 0 =>
                  if adj_rule && adj
                  then Keep c :: scan v p adj_rule 0 false (S i) (Some c) s'
                  else Hit x :: Keep c
                         :: scan v p adj_rule 0 false (S i) (Some c) s'
              | S n => Hit x :: scan v p adj_rule n true (S i) (Some c) s'
              end
          end
      end
  end.

Fixpoint hits (l : list piece) : list rmatch :=
  match l with
  | [] => []
  | Keep _ :: l' => hits l'
  | Hit x :: l' => x :: hits l'
  end.

Fixpoint rebuild (repl : string) (l : list piece) : string :=
  match l with
  | [] => EmptyString
  | Keep c :: l' => String c (rebuild repl l')
  | Hit _ :: l' => repl ++ rebuild repl l'
  end.

(** [pattern.finditer(string)] *)
Definition finditer (v : PyVersion) (p : pattern) (s : string) : list rmatch :=
  hits (scan v p false 0 false 0 None s).

(** [pattern.search(string)] *)
Definition search (v : PyVersion) (p : pattern) (s : string) : option rmatch :=
  hd_error (finditer v p s).

Definition adjacent_rule (v : PyVersion) : bool :=
  match v with Py2 => true | Py3 => false end.

(** [pattern.sub(repl, string)].  The replacement is put in as it is
    written: those of this program hold no group reference, and their
    only backslashes, in [\(] and [\)], are kept by [re.sub]; the
    labels of the pattern files are taken to hold none. *)
Definition sub (v : PyVersion) (p : pattern) (repl s : string) : string :=
  rebuild repl (scan v p (adjacent_rule v) 0 false 0 None s).

(** The least number of characters a match of [r] reads (a
    repetition is counted as none). *)
Fixpoint min_len (r : regex) : nat :=
  match r with
  | Empty | AtBeginning | AtEnd | Repeat _ _ _ => 0
  | Lit _ | Any | In _ _ => 1
  | Cat r1 r2 => min_len r1 + min_len r2
  | Or r1 r2 => Nat.min (min_len r1) (min_len r2)
  | Group _ r' => min_len r'
  end.

(** [match.group(n)] *)
Definition group (x : rmatch) (n : nat) (s : string) : option string :=
  match find (fun e => (fst e =? n)%nat) (m_caps x) with
  | Some (_, (a, b)) => Some (Str.slice a b s)
  | None => None
  end.

End re.

(** ** Exceptions and the state of a [Vectorizer] *)

Inductive exn : Set :=
| ValueError   (* [max()] or [min()] of an empty sequence *)
| IndexError   (* list index out of range *)
| TypeError    (* a group that took no part in the match, used as text *)
| ReError.     (* [re.compile] of a pattern built at run time *)

Inductive outcome (A : Type) : Type :=
| Return (a : A)
| Raise (e : exn).
Arguments Return {A} a.
Arguments Raise {A} e.

(** The attributes of [self].  The three pattern lists are built by
    [__init__] from the pattern files; [accession], [text], [vector]
    and [marker] are assigned by each call of [make_vector].  The
    patterns that [__init__] compiles from constants ([stop_list],
    [accession_pattern], ...) are the constants of the same names
    below. *)
Record Vectorizer : Set := mkVectorizer {
  test_patterns : list (re.pattern * string);
  other_patterns : list (re.pattern * string);
  section_patterns : list (re.pattern * string);
  accession : string;
  text : string;
  vector : list string;
  marker : string
}.

Definition set_text (self : Vectorizer) (t : string) : Vectorizer :=
  mkVectorizer (test_patterns self) (other_patterns self)
               (section_patterns self) (accession self) t
               (vector self) (marker self).

Definition set_vector (self : Vectorizer) (l : list string) : Vectorizer :=
  mkVectorizer (test_patterns self) (other_patterns self)
               (section_patterns self) (accession self) (text self)
               l (marker self).

(** [self.vector.append(f)] *)
Definition vector_append (self : Vectorizer) (f : string) : Vectorizer :=
  set_vector self (vector self ++ [f]).

(** A method of [self] that may raise: the outcome and the state it
    leaves behind. *)
Definition M (A : Type) : Type := Vectorizer -> outcome A * Vectorizer.

Definition ret {A} (a : A) : M A := fun self => (Return a, self).

Definition raise {A} (e : exn) : M A := fun self => (Raise e, self).

Definition bind {A B} (c : M A) (k : A -> M B) : M B :=
  fun self =>
    match c self with
    | (Return a, self') => k a self'
    | (Raise e, self') => (Raise e, self')
    end.

Definition get : M Vectorizer := fun self => (Return self, self).

(** A method that cannot raise. *)
Definition lift (f : Vectorizer -> Vectorizer) : M unit :=
  fun self => (Return tt, f self).

Definition append (f : string) : M unit :=
  lift (fun self => vector_append self f).

Declare Scope py_scope.
Delimit Scope py_scope with py.
Notation "x <- c ;; k" := (bind c (fun x => k))
  (at level 61, c at next level, right associativity) : py_scope.
Notation "' p <- c ;; k" := (bind c (fun x => let 'p := x in k))
  (at level 61, p pattern, c at next level, right associativity) : py_scope.
Notation "c ;; k" := (bind c (fun _ => k))
  (at level 61, right associativity) : py_scope.
Open Scope py_scope.

(** [for x in l: body(x)] *)
Fixpoint for_each {A} (l : list A) (body : A -> M unit) : M unit :=
  match l with
  | [] => ret tt
  | x :: l' => body x ;; for_each l' body
  end.

(** ** Python lists with integer indices *)

Module Py.

Definition len {A} (l : list A) : Z := Z.of_nat (List.length l).

(** [l[i]]: a negative index counts from the end. *)
Definition getitem (l : list string) (i : Z) : M string :=
  let j := (if i <? 0 then i + len l else i)%Z in
  if (j <? 0)%Z then raise IndexError
  else match nth_error l (Z.to_nat j) with
       | Some x => ret x
       | None => raise IndexError
       end.

(** [l[a:b]] for [0 <= a] and [0 <= b]. *)
Definition slice {A} (l : list A) (a b : Z) : list A :=
  firstn (Z.to_nat (b - a)) (skipn (Z.to_nat a) l).

(** [range(a, b)] *)
Definition range (a b : Z) : list Z :=
  map (fun k => (a + Z.of_nat k)%Z) (seq 0 (Z.to_nat (b - a))).

Definition max (l : list Z) : M Z :=
  match l with
  | [] => raise ValueError
  | x :: l' => ret (fold_left Z.max l' x)
  end.

Definition min (l : list Z) : M Z :=
  match l with
  | [] => raise ValueError
  | x :: l' => ret (fold_left Z.min l' x)
  end.

(** [enumerate(l)] *)
Definition enumerate {A} (l : list A) : list (Z * A) :=
  combine (range 0 (len l)) l.

(** [l[-1] = x] on a list that is not empty. *)
Definition set_last {A} (l : list A) (x : A) : list A :=
  removelast l ++ [x].

End Py.

(** ** The patterns compiled by [__init__] *)

(** A pattern written in the source as a constant. *)
Definition must (fl : re.flags) (s : string) : re.pattern :=
  match re.compile fl s with
  | Some p => p
  | None => re.Pattern s fl (re.In false [])
  end.

Definition cytology_pattern : re.pattern :=
  Eval vm_compute in must (re.Flags false true) "(cytoprep)|(cytolog)".

Definition insufficient_pattern : re.pattern :=
  Eval vm_compute in
    must (re.Flags false true)
         "insufficient (tumor|sample)?|technical diff}(tumor|sample) insufficient".

Definition accession_pattern : re.pattern :=
  Eval vm_compute in
    must re.no_flags
         "[\W]([\(]?[A-Z]{1,2}[\- ]?[\d]{2,4}[\- ]{1,3}[\d]{2,8}[\)]?)[\W]".

Definition stop_list : re.pattern :=
  Eval vm_compute in
    must re.no_flags
         ("[\s\^](TO|THE|FOR|A|AN|AS|THIS|THAT|THESE|" ++
          "THEY|IN|OF|ON|OR|BY)( THE|A|AN)?[\s\$]").

Definition replacements : list string :=
  ["OTHER_TEST"; "PUBLICATION"; "TEST_INSTANCE"; "IHC"; "PATHOLOGIST";
   "BLOCK_ACC"; "SPECIFIC_MUT"; "MUT_ANALYSIS"; "FISH"; "AUTHOR"].

(** [_compile_substitutions]: the rules in the order of their index,
    each the pattern to replace and the text that replaces it. *)
Definition _compile_substitutions : list (re.pattern * string) :=
  List.app
  (map (fun replacement =>
         (must re.no_flags
               (replacement ++ "[,.\(\):\-;andor" ++ replacement
                            ++ " ]{1,}" ++ replacement),
          " " ++ replacement ++ " "))
      replacements)
  [ (must re.no_flags "TEST_INSTANCE[,.\(\):\-;andor ]{1,}OTHER_TEST",
     "TEST_INSTANCE");
    (must re.no_flags "[0-9]{2}[\-\\\/][0-9]{2}[\-\\\/][0-9]{2,5}",
     " DATE ");
    (must re.no_flags "($|\s)[A-H][\)]?[.]", " SPECIMEN_LABEL ");
    (must re.no_flags ("[\" ++ String Char.dquote "\(\\\)\-\/\']"), " ");
    (must re.no_flags "[.,;:\?]", " PUNCTUATION ");
    (must re.no_flags "[\[\]]", " ") ].

Definition substitutions : list (re.pattern * string) :=
  Eval vm_compute in _compile_substitutions.

(** The patterns of the calls [re.sub(r'...', ...)]. *)
Definition dash_or_space : re.pattern :=
  Eval vm_compute in must re.no_flags "[\- ]".
Definition spaces : re.pattern :=
  Eval vm_compute in must re.no_flags " +".
Definition paren_dash_or_space : re.pattern :=
  Eval vm_compute in must re.no_flags "[()\- ]".
Definition open_paren : re.pattern :=
  Eval vm_compute in must re.no_flags "\(".
Definition close_paren : re.pattern :=
  Eval vm_compute in must re.no_flags "\)".

Definition newline_mark : string := "<newline>".
Definition newline : string := String Char.newline EmptyString.

(** [_compile_patterns]: [pattern_dict] is the content of the pattern
    file, a label with its list of fragments, in the order in which the
    dictionary is iterated.  A fragment that does not compile makes the
    constructor fail. *)
Fixpoint compile_fragments (subin : string) (uppercase : bool)
         (pre post : string) (pattern_list : list string)
  : option (list (re.pattern * string)) :=
  match pattern_list with
  | [] => Some []
  | pattern :: l =>
      match re.compile (re.Flags true false)
                       (pre ++ "(" ++ pattern ++ ")" ++ post) with
      | None => None
      | Some subout1 =>
          let both :=
            if uppercase then
              match re.compile (re.Flags true false)
                               (pre ++ "(" ++ Str.upper pattern ++ ")" ++ post) with
              | None => None
              | Some subout2 => Some [(subout1, subin); (subout2, subin)]
              end
            else Some [(subout1, subin)] in
          match both, compile_fragments subin uppercase pre post l with
          | Some a, Some b => Some (a ++ b)%list
          | _, _ => None
          end
      end
  end.

Fixpoint _compile_patterns (pattern_dict : list (string * list string))
         (uppercase : bool) (pre post : string)
  : option (list (re.pattern * string)) :=
  match pattern_dict with
  | [] => Some []
  | (subin, pattern_list) :: d =>
      let subin := Str.replace newline_mark newline subin in
      match compile_fragments subin uppercase pre post pattern_list,
            _compile_patterns d uppercase pre post with
      | Some a, Some b => Some (a ++ b)%list
      | _, _ => None
      end
  end.

(** [Vectorizer()], from the contents of [condensed_patterns.json],
    [other_kw_patterns.json] and [section_patterns.json]. *)
Definition __init__ (condensed other_kw section : list (string * list string))
  : option Vectorizer :=
  match _compile_patterns condensed true "[\W\^]" "[\W$]",
        _compile_patterns other_kw false "[\W\^]" "[\W$]",
        _compile_patterns section true "^" "$" with
  | Some t, Some o, Some s =>
      Some (mkVectorizer t o s EmptyString EmptyString [] EmptyString)
  | _, _, _ => None
  end.

(** ** The stages of [make_vector] *)

Section Stages.

Variable v : PyVersion.

Fixpoint ascii_only (text : string) : string :=
  match text with
  | EmptyString => EmptyString
  | String char t =>
      String (if (128 <=? Char.code char)%nat then " "%char else char)
             (ascii_only t)
  end.

Definition _get_text (text : string) : string :=
  let ascii_only := ascii_only text in
  let ascii_only := re.sub v spaces " " ascii_only in
  let text := re.sub v spaces " " ascii_only in
  Str.replace newline_mark newline text.

(** The result of the search is computed and not used. *)
Definition _cytology_report (self : Vectorizer) : Vectorizer :=
  let result :=
    match re.search v cytology_pattern (text self) with
    | Some _ => 1 | None => 0
    end in
  vector_append self "CYTO_RELATED_REPORT".

Fixpoint positive_loop (patterns : list (re.pattern * string)) : M unit :=
  match patterns with
  | [] => ret tt
  | (pattern, test) :: rest =>
      self <- get ;;
      if negb (String.eqb test (marker self)) then positive_loop rest
      else
        match re.compile re.no_flags
                (Str.drop_last 5 (re.source pattern) ++ "[\s]*[\+]") with
        | None => raise ReError
        | Some trunc_pattern =>
            match re.search v trunc_pattern (text self) with
            | Some _ =>
                append "post_window=POSITIVE" ;;
                append "post_window=TEST_INSTANCE_POSITIVE"
            | None => positive_loop rest
            end
        end
  end.

Definition _positive_test : M unit :=
  self <- get ;; positive_loop (test_patterns self).

Definition _test_instance (self : Vectorizer) : Vectorizer :=
  fold_left
    (fun self '(pattern, test) =>
       if negb (String.eqb test (marker self)) then self
       else set_text self (re.sub v pattern " TEST_INSTANCE " (text self)))
    (test_patterns self) self.

(** [for subout, subin in patterns: self.text = subout.sub(repl, self.text)] *)
Definition sweep (repl : string -> string)
           (patterns : list (re.pattern * string))
           (self : Vectorizer) : Vectorizer :=
  fold_left
    (fun self '(subout, subin) =>
       set_text self (re.sub v subout (repl subin) (text self)))
    patterns self.

Definition standardize_pass (self : Vectorizer) : Vectorizer :=
  let self := sweep (fun _ => " OTHER_TEST ") (test_patterns self) self in
  let self := sweep (fun subin => " " ++ subin ++ " ")
                    (section_patterns self) self in
  sweep (fun subin => " " ++ subin ++ " ") (other_patterns self) self.

(** [for i in range(2)] *)
Definition _standardize (self : Vectorizer) : Vectorizer :=
  standardize_pass (standardize_pass self).

(** The replacements [\(] and [\)] are escapes that [re.sub] leaves as
    they are. *)
Definition accession_step (subject : string) (match_ : re.rmatch) : M unit :=
  match re.group match_ 1 subject with
  | None => raise TypeError
  | Some group1 =>
      self <- get ;;
      let accession_ := re.sub v paren_dash_or_space "" group1 in
      let subin :=
        if String.eqb accession_ (accession self)
        then " THIS_ACC_NUM " else " OTHER_ACC_NUM " in
      let subout := group1 in
      let subout := re.sub v open_paren "\(" subout in
      let subout := re.sub v close_paren "\)" subout in
      match re.compile re.no_flags subout with
      | None => raise ReError
      | Some p =>
          lift (fun self => set_text self (re.sub v p subin (text self)))
      end
  end.

Definition _other_accession : M unit :=
  self <- get ;;
  for_each (re.finditer v accession_pattern (text self))
           (accession_step (text self)) ;;
  append "OTHER_ACC_NUM_IN_TEXT".

(** The result of the search is computed and not used. *)
Definition _insufficient (self : Vectorizer) : Vectorizer :=
  let result :=
    match re.search v insufficient_pattern (text self) with
    | Some _ => 1 | None => 0
    end in
  vector_append self "INSUFFICIENT".

Definition _substitute (self : Vectorizer) : Vectorizer :=
  fold_left
    (fun self '(subout, subin) =>
       set_text self (re.sub v subout subin (text self)))
    substitutions self.

Definition _stop_list (self : Vectorizer) : Vectorizer :=
  let self := set_text self (Str.upper (text self)) in
  let self := set_text self (re.sub v stop_list " " (text self)) in
  set_text self (re.sub v stop_list " " (text self)).

(** [i < n / 2] and [i > n / 2] for integers [i], [n]: the division
    is the floor under Python 2 and exact under Python 3. *)
Definition lt_half (i n : Z) : bool :=
  match v with
  | Py2 => (i <? n / 2)%Z
  | Py3 => (2 * i <? n)%Z
  end.

Definition gt_half (i n : Z) : bool :=
  match v with
  | Py2 => (i >? n / 2)%Z
  | Py3 => (2 * i >? n)%Z
  end.

Definition is_break (t : string) : bool :=
  existsb (String.eqb t)
          ["_SECTION_"; "PUNCTUATION"; "SPECIMEN_LABEL"; "OTHER_TEST"].

Definition _get_window (tokens : list string) (index : Z) : M (Z * Z) :=
  let window_start := Z.max (index - 10) 0 in
  let window_end := Z.min (Py.len tokens) (index + 10) in
  let window := Py.slice tokens window_start window_end in
  let breaks :=
    map fst (filter (fun it => is_break (snd it)) (Py.enumerate window)) in
  let breaks := (breaks ++ [0%Z])%list in
  mx <- Py.max (map (fun i => (i + 1)%Z)
                    (filter (fun i => lt_half i (Py.len window)) breaks)) ;;
  let start := (window_start + mx)%Z in
  let breaks := Py.set_last breaks (Py.len window) in
  mn <- Py.min (filter (fun i => gt_half i (Py.len window)) breaks) ;;
  let end_ := (window_start + mn)%Z in
  ret (start, end_).

Fixpoint section_loop (prev : string) (l : list string) : M unit :=
  match l with
  | [] => ret tt
  | curr :: l' =>
      if String.eqb curr "_SECTION_"
      then append ("SECTION=" ++ prev)
      else section_loop curr l'
  end.

Definition _add_section (tokens : list string) (index : Z) : M unit :=
  section_loop "" (rev (Py.slice tokens 0 index)).

(** The body of the loop of [_ngrams] for an anchor at [index]. *)
Definition ngrams_at (tokens : list string) (index : Z) : M unit :=
  self <- get ;;
  append (marker self) ;;
  _add_section tokens index ;;
  '(start, end_) <- _get_window tokens index ;;
  (if (index >? 0)%Z && (index >? start)%Z
   then t <- Py.getitem tokens (index - 1) ;;
        append ("immediately_pre_window=" ++ t)
   else ret tt) ;;
  for_each (rev (Py.range start index)) (fun i =>
    ti <- Py.getitem tokens i ;;
    append ("pre_window=" ++ ti) ;;
    for_each [1; 2; 3]%Z (fun j =>
      if (index - j >? start)%Z
      then a <- Py.getitem tokens (i - j) ;;
           b <- Py.getitem tokens i ;;
           append ("pre_window=" ++ a ++ "_" ++ b)
      else ret tt)) ;;
  (if (index <? Py.len tokens - 1)%Z && (index <? end_ - 1)%Z
   then t <- Py.getitem tokens (index + 1) ;;
        append ("immediately_post_window=" ++ t)
   else ret tt) ;;
  for_each (Py.range (index + 1) (Z.min (Py.len tokens) end_)) (fun i =>
    ti <- Py.getitem tokens i ;;
    append ("post_window=" ++ ti) ;;
    for_each [1; 2; 3]%Z (fun j =>
      if (i <? end_ - j)%Z
      then a <- Py.getitem tokens i ;;
           b <- Py.getitem tokens (i + j) ;;
           append ("post_window=" ++ a ++ "_" ++ b)
      else ret tt)).

Definition tokenize (text : string) : list string :=
  Str.split v (Str.strip v text).

Definition _ngrams : M unit :=
  self <- get ;;
  let tokens := tokenize (text self) in
  for_each (Py.enumerate tokens) (fun '(index, token) =>
    if negb (String.eqb token "TEST_INSTANCE") then ret tt
    else ngrams_at tokens index).

Definition _test_mentions (self : Vectorizer) : Vectorizer :=
  let test_mentions := Str.count "TEST_INSTANCE" (text self) in
  let self := vector_append self "COUNT_TEST_INSTANCE" in
  if (test_mentions =? 0)%nat
  then vector_append self "NO_KEYWORD_IN_TEXT"
  else self.

Definition make_vector (text accession marker : string) : M (list string) :=
  lift (fun self =>
          mkVectorizer (test_patterns self) (other_patterns self)
                       (section_patterns self)
                       (re.sub v dash_or_space "" accession)
                       (_get_text text) [] marker) ;;
  lift _cytology_report ;;
  _positive_test ;;
  lift _test_instance ;;
  lift _standardize ;;
  _other_accession ;;
  lift _insufficient ;;
  lift _substitute ;;
  lift _stop_list ;;
  _ngrams ;;
  lift _test_mentions ;;
  self <- get ;;
  ret (vector self).

End Stages.

(** ** A small pattern table to run the pipeline on

    The pattern files themselves are not among the sources.  The table
    below has their layout (a label with its fragments) and is used
    where a statement needs a concrete [Vectorizer]. *)

Definition demo_condensed : list (string * list string) :=
  [("EGFR", ["egfr"]); ("ALK", ["alk"])].

Definition demo_other_kw : list (string * list string) :=
  [("MUT_ANALYSIS", ["mutation (analysis|testing)"])].

Definition demo_section : list (string * list string) :=
  [("_SECTION_ DIAGNOSIS", ["diagnosis:?"])].

Definition demo : Vectorizer :=
  Eval vm_compute in
    match __init__ demo_condensed demo_other_kw demo_section with
    | Some self => self
    | None => mkVectorizer [] [] [] EmptyString EmptyString [] EmptyString
    end.

(** The state that a sequence of earlier calls leaves behind. *)
Fixpoint after_calls (v : PyVersion) (calls : list (string * string * string))
         (self : Vectorizer) : Vectorizer :=
  match calls with
  | [] => self
  | (t, a, mk) :: rest => after_calls v rest (snd (make_vector v t a mk self))
  end.

(** The first assignments of [make_vector]. *)
Definition begin_call (v : PyVersion) (text accession marker : string)
           (self : Vectorizer) : Vectorizer :=
  mkVectorizer (test_patterns self) (other_patterns self)
               (section_patterns self)
               (re.sub v dash_or_space "" accession)
               (_get_text v text) [] marker.

(** The stages that follow the first assignments. *)
Definition pipeline (v : PyVersion) : M (list string) :=
  lift (_cytology_report v) ;;
  _positive_test v ;;
  lift (_test_instance v) ;;
  lift (_standardize v) ;;
  _other_accession v ;;
  lift (_insufficient v) ;;
  lift (_substitute v) ;;
  lift (_stop_list v) ;;
  _ngrams v ;;
  lift _test_mentions ;;
  self <- get ;;
  ret (vector self).

(** The text that [_insufficient] searches: the buffer after
    [_other_accession]. *)
Definition text_at_insufficient (v : PyVersion)
           (raw accession marker : string) (self : Vectorizer) : string :=
  text (snd ((lift (_cytology_report v) ;;
              _positive_test v ;;
              lift (_test_instance v) ;;
              lift (_standardize v) ;;
              _other_accession v)
               (begin_call v raw accession marker self))).

(** The state that [_standardize] starts from. *)
Definition after_test_instance (v : PyVersion)
           (raw accession marker : string) (self : Vectorizer) : Vectorizer :=
  _test_instance v
    (snd (_positive_test v
            (_cytology_report v (begin_call v raw accession marker self)))).

(** The candidate window of [_get_window]. *)
Definition window_start (index : Z) : Z := Z.max (index - 10) 0.
Definition window_end (tokens : list string) (index : Z) : Z :=
  Z.min (Py.len tokens) (index + 10).

Definition NO_KEYWORD_IN_TEXT : string := "NO_KEYWORD_IN_TEXT".

(** A feature that is the sentinel only if the marker is. *)
Definition sound (mk f : string) : Prop :=
  f = NO_KEYWORD_IN_TEXT -> mk = NO_KEYWORD_IN_TEXT.

Definition same_patterns (s s' : Vectorizer) : Prop :=
  test_patterns s' = test_patterns s /\
  other_patterns s' = other_patterns s /\
  section_patterns s' = section_patterns s.

(** ** Relations between the state before and after a method

    [keeps Inv R c]: started in a state that satisfies [Inv], the method
    [c] ends, whether it returns or raises, in a state related to it by
    [R]. *)
Definition keeps (Inv : Vectorizer -> Prop)
           (R : Vectorizer -> Vectorizer -> Prop) {A} (c : M A) : Prop :=
  forall s, Inv s -> R s (snd (c s)).

(** What a stage may change: a stage leaves the patterns, the marker and the accession alone and
    only appends to the vector; [P] bounds what it appends. *)

Definition frame (P : string -> Prop) (s s' : Vectorizer) : Prop :=
  test_patterns s' = test_patterns s /\
  other_patterns s' = other_patterns s /\
  section_patterns s' = section_patterns s /\
  marker s' = marker s /\
  accession s' = accession s /\
  exists l, vector s' = (vector s ++ l)%list /\ Forall P l.

(** From [st] to [st'] the matcher has read at least [n] characters
    of the subject, and only read. *)
Definition advances (n : nat) (st st' : re.mstate) : Prop :=
  re.pos st + n <= re.pos st' /\
  re.pos st' + String.length (re.rest st')
    = re.pos st + String.length (re.rest st).

(** ** Notions used in the statements about the text buffer *)

(** Every character of [s] satisfies [P]. *)
Fixpoint every (P : ascii -> Prop) (s : string) : Prop :=
  match s with
  | EmptyString => True
  | String c s' => P c /\ every P s'
  end.

Fixpoint member (c : ascii) (chars : string) : bool :=
  match chars with
  | EmptyString => false
  | String d chars' => Ascii.eqb c d || member c chars'
  end.

(** The characters that the last three rules of [_compile_substitutions]
    replace: quotes, parentheses, backslash, hyphen and slash; sentence
    punctuation; square brackets. *)
Definition punctuation : string :=
  String Char.dquote "(\)-/'.,;:?[]".

(** What a piece of a scanned subject has to satisfy for the rebuilt
    text to satisfy [P]. *)
Definition kept (P : ascii -> Prop) (x : re.piece) : Prop :=
  match x with
  | re.Keep c => P c
  | re.Hit _ => True
  end.

Definition no_lower (c : ascii) : Prop := Char.islower c = false.
Definition no_punctuation (c : ascii) : Prop := member c punctuation = false.
Definition is_ascii (c : ascii) : Prop := (Char.code c <? 128)%nat = true.

(** What holds of every token that [_ngrams] reads. *)
Definition clean_token (v : PyVersion) (t : string) : Prop :=
  t <> EmptyString /\
  every (fun c => (no_lower c /\ no_punctuation c) /\
                  Char.isspace v c = false) t.

(** [returns Q c]: from every state the method [c] returns, with a
    value that satisfies [Q]. *)
Definition returns {A} (Q : A -> Prop) (c : M A) : Prop :=
  forall s, exists a s', c s = (Return a, s') /\ Q a.

(** The breaks that [_get_window] finds in the candidate window,
    before it appends its own. *)
Definition window_breaks (tokens : list string) (index : Z) : list Z :=
  map fst (filter (fun it => is_break (snd it))
                  (Py.enumerate (Py.slice tokens (window_start index)
                                          (window_end tokens index)))).

(** The name that follows the last _SECTION_ token of [l], read from
    the front; [next] is the token that follows [l]. *)
Fixpoint section_after (next : string) (l : list string) : option string :=
  match l with
  | [] => None
  | t :: l' =>
      match section_after next l' with
      | Some name => Some name
      | None =>
          if String.eqb t "_SECTION_" then Some (hd next l') else None
      end
  end.

(** [sub] occurs in [s]. *)
Definition occurs (sub s : string) : Prop :=
  exists a b, s = a ++ sub ++ b.

(** The number of fragments of a pattern file. *)
Definition fragments (pattern_dict : list (string * list string)) : nat :=
  List.length (concat (map snd pattern_dict)).

(** ** The classifier of [utils/gentest_classifier.py]

    ([utils/gen_test_classifier.py] holds the same class.)  The trained
    model of an algorithm is an object of a library; it is taken as the
    function [predict] from the feature row to the output code. *)

Inductive cexn : Set :=
| KeyError           (* a key missing from a dict *)
| MatrixIndexError.  (* an index outside the matrix *)

Inductive result (A : Type) : Type :=
| Ok (a : A)
| Err (e : cexn).
Arguments Ok {A} a.
Arguments Err {A} e.

(** A dict with text keys: the pairs in the order of insertion, a key
    at most once. *)
Module Dict.

Fixpoint get {V} (d : list (string * V)) (k : string) : option V :=
  match d with
  | [] => None
  | (k', x) :: d' => if String.eqb k k' then Some x else get d' k
  end.

(** [d[k] = x] *)
Fixpoint set {V} (d : list (string * V)) (k : string) (x : V)
  : list (string * V) :=
  match d with
  | [] => [(k, x)]
  | (k', y) :: d' =>
      if String.eqb k k' then (k', x) :: d' else (k', y) :: set d' k x
  end.

(** [d.setdefault(k, x)]: the dict and the value found or put. *)
Definition setdefault {V} (d : list (string * V)) (k : string) (x : V)
  : list (string * V) * V :=
  match get d k with
  | Some y => (d, y)
  | None => (set d k x, x)
  end.

End Dict.

Module GenTestClassifier.

(** [Model]: the trained model, the index of each feature name and the
    number of columns. *)
Record Model : Type := mkModel {
  predict : list bool -> Z;
  mapping : list (string * nat);
  num_features : nat
}.

(** The loop of [__init__] over the lines of [features.txt], each line
    a feature name and its index, a natural number as the training
    step numbers the columns. *)
Definition read_features (lines : list (string * nat)) (model : Model) : Model :=
  fold_left
    (fun model '(feature, index) =>
       mkModel (predict model)
               (Dict.set (mapping model) feature index)
               (Nat.max (num_features model) (index + 1)))
    lines model.

(** [__init__]: [model_dir] lists, for each algorithm, the lines of
    its [features.txt] and the model of its [model.pkl]. *)
Definition __init__
           (model_dir : list (string * (list (string * nat) * (list bool -> Z))))
  : list (string * Model) :=
  fold_left
    (fun algorithms '(algorithm, (lines, trained)) =>
       Dict.set algorithms algorithm
                (read_features lines (mkModel trained [] 0)))
    model_dir [].

Definition method_mapping : list (Z * string) :=
  [(0, "Mutational Analysis"); (1, "IHC"); (2, "FISH"); (3, "OTHER");
   (4, "NONE")]%Z.

Definition result_mapping : list (Z * string) :=
  [(0, "Unknown"); (1, "Positive"); (2, "Negative"); (3, "Insufficient");
   (4, "Reported"); (5, "Not Reported")]%Z.

Fixpoint lookup (d : list (Z * string)) (k : Z) : result string :=
  match d with
  | [] => Err KeyError
  | (k', x) :: d' => if Z.eqb k k' then Ok x else lookup d' k
  end.

Definition _translate_output (is_method : bool) (output : Z) : result string :=
  if is_method then lookup method_mapping output
  else lookup result_mapping output.

(** [matrix[0, j] = 1] on the one row of the matrix. *)
Fixpoint set_one (row : list bool) (j : nat) : result (list bool) :=
  match row, j with
  | [], _ => Err MatrixIndexError
  | _ :: r, 0 => Ok (true :: r)
  | b :: r, S j' =>
      match set_one r j' with
      | Ok r' => Ok (b :: r')
      | Err e => Err e
      end
  end.

(** The loop over the features: an unknown feature is passed over. *)
Fixpoint fill (mapping : list (string * nat)) (row : list bool)
         (vector : list string) : result (list bool) :=
  match vector with
  | [] => Ok row
  | feature :: rest =>
      match Dict.get mapping feature with
      | None => fill mapping row rest
      | Some j =>
          match set_one row j with
          | Ok row' => fill mapping row' rest
          | Err e => Err e
          end
      end
  end.

Definition _classify (algorithms : list (string * Model))
           (algorithm : string) (vector : list string) : result string :=
  match Dict.get algorithms algorithm with
  | None => Err KeyError
  | Some model =>
      match fill (mapping model) (repeat false (num_features model)) vector with
      | Err e => Err e
      | Ok matrix =>
          let output := predict model matrix in
          _translate_output (String.eqb algorithm "method") output
      end
  end.

Definition classify (algorithms : list (string * Model))
           (vector : list string) : result (string * string * string) :=
  let '(reported, result_, method) := ("Not Reported", "N/A", "N/A") in
  if existsb (String.eqb "NO_KEYWORD_IN_TEXT") vector
  then Ok (reported, result_, method)
  else
    match _classify algorithms "svm_reported" vector with
    | Err e => Err e
    | Ok label =>
        if negb (String.eqb label "Reported")
        then Ok (reported, result_, method)
        else
          let reported := "Results Reported" in
          match _classify algorithms "positive" vector with
          | Err e => Err e
          | Ok result_ =>
              match _classify algorithms "method" vector with
              | Err e => Err e
              | Ok method => Ok (reported, result_, method)
              end
          end
    end.

End GenTestClassifier.

(** Notions used in the statements about the classifier. *)

(** Whether a feature of [vector] is mapped to column [k]. *)
Definition marks (mapping : list (string * nat)) (vector : list string)
           (k : nat) : bool :=
  existsb (fun f => match Dict.get mapping f with
                    | Some j => (j =? k)%nat
                    | None => false
                    end) vector.

(** Whether a feature of [vector] is mapped outside a row of [n]
    columns. *)
Definition overflows (mapping : list (string * nat)) (n : nat)
           (vector : list string) : bool :=
  existsb (fun f => match Dict.get mapping f with
                    | Some j => (n <=? j)%nat
                    | None => false
                    end) vector.

(** Every index of the mapping is a column of the matrix. *)
Definition well_sized (model : GenTestClassifier.Model) : Prop :=
  forall f j,
    Dict.get (GenTestClassifier.mapping model) f = Some j ->
    j < GenTestClassifier.num_features model.

(** ** The driver of [run.py]

    The input file comes parsed by the [csv] reader, a list of rows
    with the headers first; the output files are the texts written, in
    order.  What goes to [stderr] is left out.  The Vectorizer and the
    classifier, built from files in [process_records], are given. *)

Module run.

Definition TEXT : string := "full_path_text".
Definition ACC : string := "accession_number_hosp".
Definition PAT : string := "patient_id".
Definition TUMOR : string := "tumor_record".
Definition REC : string := "source_id".
Definition MARKERS : list string := ["EGFR"; "ALK"].

(** The names [pt_file], [rd_file] and [skip_file] are not bound, so
    each [try] ends in its [except NameError]. *)
Definition pt_subset : list string := [].
Definition rd_subset : list string := [].
Definition skip_set : list string := [].

Definition tab : string := String (ascii_of_nat 9) EmptyString.

(** The ways in which the driver stops. *)
Inductive halt : Set :=
| SysExit                   (* [sys.exit()] *)
| StopIteration             (* [reader.next()] on an empty input *)
| IOError                   (* a row as long as the headers is required *)
| RowIndexError             (* a row shorter than the field's index *)
| CasesKeyError             (* a case or a marker missing from [cases] *)
| Vectorizing (e : exn)     (* raised in [make_vector] *)
| Classifying (e : cexn).   (* raised in [classify] *)

Definition and_then {A B} (x : halt + A) (k : A -> halt + B) : halt + B :=
  match x with
  | inl h => inl h
  | inr a => k a
  end.

(** The values that the status tests compare. *)
Inductive pyobj : Set :=
| PyStr (s : string)
| PyTuple (a b : string).

(** [==] of Python on these values. *)
Definition py_eq (x y : pyobj) : bool :=
  match x, y with
  | PyStr a, PyStr b => String.eqb a b
  | PyTuple a b, PyTuple c d => String.eqb a c && String.eqb b d
  | _, _ => false
  end.

(** A status with the ID of the deciding record. *)
Definition status : Type := (string * string)%type.

Definition as_object (st : status) : pyobj := PyTuple (fst st) (snd st).

(** [list.index] *)
Fixpoint index (l : list string) (x : string) : option nat :=
  match l with
  | [] => None
  | y :: l' => if String.eqb y x then Some 0 else option_map S (index l' x)
  end.

Definition get (headers : list string) (field : string) : halt + nat :=
  match index headers field with
  | Some i => inr i
  | None => inl SysExit
  end.

(** [row[i]] *)
Definition item (row : list string) (i : nat) : halt + string :=
  match nth_error row i with
  | Some x => inr x
  | None => inl RowIndexError
  end.

(** [row.pop(i)]: the field and the row left. *)
Definition pop (row : list string) (i : nat) : halt + (string * list string) :=
  match nth_error row i with
  | Some x => inr (x, (firstn i row ++ skipn (S i) row)%list)
  | None => inl RowIndexError
  end.

(** [cases[case][marker]] *)
Definition getitem2 (cases : list (string * list (string * status)))
           (case marker : string) : halt + status :=
  match Dict.get cases case with
  | None => inl CasesKeyError
  | Some d =>
      match Dict.get d marker with
      | None => inl CasesKeyError
      | Some st => inr st
      end
  end.

(** [cases[case][marker] = st]: the inner dict is changed in place. *)
Definition setitem2 (cases : list (string * list (string * status)))
           (case marker : string) (st : status)
  : halt + list (string * list (string * status)) :=
  match Dict.get cases case with
  | None => inl CasesKeyError
  | Some d => inr (Dict.set cases case (Dict.set d marker st))
  end.

(** [cases.setdefault(case, {}).setdefault(marker, ('Unknown', 'N/A'))] *)
Definition setdefaults (cases : list (string * list (string * status)))
           (case marker : string) : list (string * list (string * status)) :=
  let '(cases1, d) := Dict.setdefault cases case [] in
  let '(d1, _) := Dict.setdefault d marker ("Unknown", "N/A") in
  Dict.set cases1 case d1.

(** The status tests of [process_row], from [# take only first positive]
    to the end of the loop body. *)
Definition resolve (cases : list (string * list (string * status)))
           (case marker record result_ method : string)
  : halt + list (string * list (string * status)) :=
  and_then (getitem2 cases case marker) (fun st =>
  if py_eq (as_object st) (PyStr "Positive") then inr cases
  else
    and_then
      (if String.eqb result_ "Positive"
       then if String.eqb marker "ALK"
               || String.eqb method "Mutational Analysis"
            then setitem2 cases case marker (result_, record)
            else inr cases
       else inr cases) (fun cases1 =>
    and_then (getitem2 cases1 case marker) (fun st1 =>
    if py_eq (as_object st1) (PyStr "Negative") then inr cases1
    else
      if String.eqb result_ "Negative"
      then if String.eqb marker "ALK"
              || String.eqb method "Mutational Analysis"
           then setitem2 cases1 case marker (result_, record)
           else inr cases1
      else inr cases1))).

(** What [process_row] reads and changes. *)
Record world : Type := mkWorld {
  cases : list (string * list (string * status));
  fout : list string;
  vectorizer : Vectorizer
}.

(** The loop of [process_row] over the markers. *)
Fixpoint for_markers (v : PyVersion) (classifier : list (string * GenTestClassifier.Model))
         (text_ accession_ record case : string) (markers : list string)
         (w : world) : halt + world :=
  match markers with
  | [] => inr w
  | marker_ :: rest =>
      let cases1 := setdefaults (cases w) case marker_ in
      match make_vector v text_ accession_ marker_ (vectorizer w) with
      | (Raise e, _) => inl (Vectorizing e)
      | (Return vector_, vectorizer1) =>
          match GenTestClassifier.classify classifier vector_ with
          | Err e => inl (Classifying e)
          | Ok (reported, result_, method) =>
              let fout1 :=
                List.app (fout w)
                         [tab ++ String.concat tab [reported; result_; method]] in
              and_then (resolve cases1 case marker_ record result_ method)
                       (fun cases2 =>
                          for_markers v classifier text_ accession_ record case rest
                                      (mkWorld cases2 fout1 vectorizer1))
          end
      end
  end.

Definition process_row (v : PyVersion)
           (classifier : list (string * GenTestClassifier.Model))
           (headers row : list string) (w : world) : halt + world :=
  and_then (and_then (get headers ACC) (item row)) (fun accession_ =>
  and_then (and_then (get headers TUMOR) (item row)) (fun tumor =>
  and_then (and_then (get headers REC) (item row)) (fun record =>
  and_then (and_then (get headers PAT) (item row)) (fun patient =>
  and_then (and_then (get headers TEXT) (pop row)) (fun '(text_, row1) =>
  let case := patient ++ "_" ++ tumor in
  if negb (Nat.eqb (List.length pt_subset) 0)
     && negb (existsb (String.eqb patient) pt_subset) then inr w
  else if negb (Nat.eqb (List.length rd_subset) 0)
          && negb (existsb (String.eqb record) rd_subset) then inr w
  else if negb (Nat.eqb (List.length skip_set) 0)
          && existsb (String.eqb case) skip_set then inr w
  else
    and_then
      (for_markers v classifier text_ accession_ record case MARKERS
                   (mkWorld (cases w) (List.app (fout w) [String.concat tab row1])
                            (vectorizer w)))
      (fun w1 =>
         inr (mkWorld (cases w1) (List.app (fout w1) [newline]) (vectorizer w1)))))))).

(** The loop of [process_records] over the rows. *)
Fixpoint for_rows (v : PyVersion)
         (classifier : list (string * GenTestClassifier.Model))
         (headers : list string) (rows : list (list string)) (w : world)
  : halt + world :=
  match rows with
  | [] => inr w
  | row :: rest =>
      if negb (Nat.eqb (List.length row) (List.length headers))
      then inl IOError
      else and_then (process_row v classifier headers row w)
                    (for_rows v classifier headers rest)
  end.

(** [process_records]: the cases and the record-level file. *)
Definition process_records (v : PyVersion)
           (classifier : list (string * GenTestClassifier.Model))
           (vectorizer_ : Vectorizer) (input : list (list string))
  : halt + (list (string * list (string * status)) * list string) :=
  match input with
  | [] => inl StopIteration
  | headers :: rows =>
      and_then (get headers TEXT) (fun i =>
      and_then (get headers TEXT) (fun i' =>
      let fout0 :=
        String.concat tab (List.app (firstn i headers) (skipn (i' + 1) headers))
        :: List.app
             (flat_map (fun marker_ =>
                          map (fun cat => tab ++ marker_ ++ " " ++ cat)
                              ["Reported"; "Result"; "Method"]) MARKERS)
             [newline] in
      and_then (for_rows v classifier headers rows
                         (mkWorld [] fout0 vectorizer_))
               (fun w => inr (cases w, fout w))))
  end.

(** [sorted] on distinct keys. *)
Fixpoint insert_key (k : string) (l : list string) : list string :=
  match l with
  | [] => [k]
  | x :: l' => if String.leb k x then k :: l else x :: insert_key k l'
  end.

Definition sorted (l : list string) : list string :=
  fold_right insert_key [] l.

(** The line of one case in [process_patients]. *)
Fixpoint case_line (cases_ : list (string * list (string * status)))
         (case : string) (markers : list string) : halt + list string :=
  match markers with
  | [] => inr [newline]
  | marker_ :: rest =>
      and_then (getitem2 cases_ case marker_) (fun st =>
      and_then (case_line cases_ case rest) (fun l =>
      inr ((tab ++ fst st ++ tab ++ snd st) :: l)))
  end.

Fixpoint case_lines (cases_ : list (string * list (string * status)))
         (keys : list string) : halt + list string :=
  match keys with
  | [] => inr []
  | case :: rest =>
      and_then (case_line cases_ case MARKERS) (fun l =>
      and_then (case_lines cases_ rest) (fun ls =>
      inr (case :: List.app l ls)))
  end.

(** [process_patients]: the case-level file. *)
Definition process_patients (cases_ : list (string * list (string * status)))
  : halt + list string :=
  and_then (case_lines cases_ (sorted (map fst cases_))) (fun ls =>
  inr ("patient_id"
       :: List.app
            (map (fun marker_ => tab ++ marker_ ++ " Result" ++ tab ++ marker_
                                 ++ " Record ID") MARKERS)
            (newline :: ls))).

End run.

(** Every case holds a status for each marker. *)
Definition complete (cases_ : list (string * list (string * run.status)))
  : Prop :=
  forall case d,
    Dict.get cases_ case = Some d ->
    forall marker_, In marker_ run.MARKERS -> Dict.get d marker_ <> None.

(** [cases[case][marker]] is there. *)
Definition has (cases_ : list (string * list (string * run.status)))
           (case marker_ : string) : Prop :=
  exists d st, Dict.get cases_ case = Some d /\ Dict.get d marker_ = Some st.

(** Whether a result is taken as the status: a positive or negative
    result, for ALK or by mutational analysis. *)
Definition decides (marker_ result_ method : string) : bool :=
  (String.eqb result_ "Positive" || String.eqb result_ "Negative")
  && (String.eqb marker_ "ALK" || String.eqb method "Mutational Analysis").

(** ** A small model directory and input file

    Stand-ins for the files of [models/] and for an input file, on
    which the driver can be run. *)

Definition demo_models
  : list (string * (list (string * nat) * (list bool -> Z))) :=
  [("svm_reported",
    ([("EGFR", 0); ("post_window=MUT_ANALYSIS", 1)],
     fun row => if nth 0 row false then 4%Z else 5%Z));
   ("positive",
    ([("post_window=NEGATIVE", 0)],
     fun row => if nth 0 row false then 2%Z else 1%Z));
   ("method",
    ([("post_window=MUT_ANALYSIS", 0)],
     fun row => if nth 0 row false then 0%Z else 4%Z))].

Definition demo_classifier : list (string * GenTestClassifier.Model) :=
  GenTestClassifier.__init__ demo_models.

Definition demo_headers : list string :=
  [run.REC; run.PAT; run.TUMOR; run.ACC; run.TEXT].

Definition demo_row : list string :=
  ["r1"; "p1"; "t1"; "S17-1111";
   " EGFR mutation testing: negative. (S17-1111) "].

Definition demo_world : run.world := run.mkWorld [] [] demo.

(** What a run of the driver returned, if it did. *)
Definition returned {A} (x : run.halt + A) (otherwise : A) : A :=
  match x with
  | inr a => a
  | inl _ => otherwise
  end.

Definition demo_after_row : run.world :=
  returned
    (run.process_row Py2 demo_classifier demo_headers demo_row demo_world)
    demo_world.

Definition demo_input : list (list string) :=
  [demo_headers; demo_row;
   ["r2"; "p2"; "t1"; "S17-2222"; "no result in this report"]].

Definition demo_records
  : list (string * list (string * run.status)) * list string :=
  returned (run.process_records Py2 demo_classifier demo demo_input)
           ([], []).

(** [_compile_patterns] over the compiler of regular expressions:
    [compile] stands for [re.compile] of the library, [None] for the
    [re.error] it raises on a pattern it refuses.  With the compiler of
    module [re] above it is [_compile_patterns]. *)
Section Compiler.

Variable P : Type.
Variable compile : re.flags -> string -> option P.

Fixpoint compile_fragments_with (subin : string) (uppercase : bool)
         (pre post : string) (pattern_list : list string)
  : option (list (P * string)) :=
  match pattern_list with
  | [] => Some []
  | pattern :: l =>
      match compile (re.Flags true false)
                    (pre ++ "(" ++ pattern ++ ")" ++ post) with
      | None => None
      | Some subout1 =>
          let both :=
            if uppercase then
              match compile (re.Flags true false)
                            (pre ++ "(" ++ Str.upper pattern ++ ")" ++ post) with
              | None => None
              | Some subout2 => Some [(subout1, subin); (subout2, subin)]
              end
            else Some [(subout1, subin)] in
          match both, compile_fragments_with subin uppercase pre post l with
          | Some a, Some b => Some (a ++ b)%list
          | _, _ => None
          end
      end
  end.

Fixpoint _compile_patterns_with (pattern_dict : list (string * list string))
         (uppercase : bool) (pre post : string)
  : option (list (P * string)) :=
  match pattern_dict with
  | [] => Some []
  | (subin, pattern_list) :: d =>
      let subin := Str.replace newline_mark newline subin in
      match compile_fragments_with subin uppercase pre post pattern_list,
            _compile_patterns_with d uppercase pre post with
      | Some a, Some b => Some (a ++ b)%list
      | _, _ => None
      end
  end.

End Compiler.
Arguments compile_fragments_with {P} compile subin uppercase pre post pattern_list.
Arguments _compile_patterns_with {P} compile pattern_dict uppercase pre post.

(** A pattern of the list comes from the fragment [frag] of the file:
    it is what [compile] gives, with MULTILINE, for the fragment or its
    upper-case form in a group between the two guards. *)
Definition compiled_from {P} (compile : re.flags -> string -> option P)
           (uppercase : bool) (pre post frag : string) (p : P) : Prop :=
  compile (re.Flags true false) (pre ++ "(" ++ frag ++ ")" ++ post) = Some p \/
  uppercase = true /\
  compile (re.Flags true false) (pre ++ "(" ++ Str.upper frag ++ ")" ++ post)
  = Some p.

(** [compile] refuses what is built from the fragment [frag]. *)
Definition refused {P} (compile : re.flags -> string -> option P)
           (uppercase : bool) (pre post frag : string) : Prop :=
  compile (re.Flags true false) (pre ++ "(" ++ frag ++ ")" ++ post) = None \/
  uppercase = true /\
  compile (re.Flags true false) (pre ++ "(" ++ Str.upper frag ++ ")" ++ post)
  = None.

(** * Properties *)

Ltac in_list := repeat ((left; reflexivity) || right).


Example demo_is_constructed :
  __init__ demo_condensed demo_other_kw demo_section = Some demo.
Proof. vm_compute. reflexivity. Qed.

Example constant_patterns_compile :
  re.compile re.no_flags (re.source stop_list) = Some stop_list /\
  re.compile re.no_flags (re.source accession_pattern) = Some accession_pattern /\
  re.compile (re.Flags false true) (re.source insufficient_pattern)
    = Some insufficient_pattern /\
  re.compile (re.Flags false true) (re.source cytology_pattern)
    = Some cytology_pattern /\
  Forall (fun rule => re.compile re.no_flags (re.source (fst rule))
                      = Some (fst rule)) substitutions.
Proof.
  repeat (split; [vm_compute; reflexivity |]).
  unfold substitutions.
  repeat (constructor; [vm_compute; reflexivity |]).
  constructor.
Qed.

(** ** Reasoning about methods *)

Lemma bind_run {A B} (c : M A) (k : A -> M B) (s : Vectorizer) :
  bind c k s =
  match c s with
  | (Return a, s') => k a s'
  | (Raise e, s') => (Raise e, s')
  end.
Proof. reflexivity. Qed.

Section Keeps.

(** [R] relates the state before a method to the state after it;
    [Inv] is what the method may assume of the state, and [P] the
    features it may append. *)
Variable Inv : Vectorizer -> Prop.
Variable R : Vectorizer -> Vectorizer -> Prop.
Variable P : string -> Prop.

Hypothesis R_refl : forall s, R s s.
Hypothesis R_trans : forall a b c, R a b -> R b c -> R a c.
Hypothesis R_inv : forall s s', Inv s -> R s s' -> Inv s'.
Hypothesis R_append :
  forall s f, Inv s -> P f -> R s (vector_append s f).
Hypothesis P_marker : forall s, Inv s -> P (marker s).
Hypothesis P_plain : forall f, f <> NO_KEYWORD_IN_TEXT -> P f.

Lemma keeps_ret {A} (a : A) : keeps Inv R (ret a).
Proof. intros s _. apply R_refl. Qed.

Lemma keeps_raise {A} (e : exn) : keeps Inv R (@raise A e).
Proof. intros s _. apply R_refl. Qed.

Lemma keeps_bind {A B} (c : M A) (k : A -> M B) :
  keeps Inv R c -> (forall a, keeps Inv R (k a)) -> keeps Inv R (bind c k).
Proof.
  intros Hc Hk s Hs. rewrite bind_run.
  specialize (Hc s Hs). destruct (c s) as [[a | e] s']; simpl in *.
  - eapply R_trans; [exact Hc |]. apply Hk. eapply R_inv; eauto.
  - exact Hc.
Qed.

Lemma keeps_get {B} (k : Vectorizer -> M B) :
  (forall a, Inv a -> keeps Inv R (k a)) -> keeps Inv R (bind get k).
Proof.
  intros Hk s Hs. rewrite bind_run. simpl. apply Hk; assumption.
Qed.

Lemma keeps_append (f : string) : P f -> keeps Inv R (append f).
Proof. intros Hf s Hs. simpl. apply R_append; assumption. Qed.

Lemma keeps_for_each {A} (l : list A) (body : A -> M unit) :
  (forall x, keeps Inv R (body x)) -> keeps Inv R (for_each l body).
Proof.
  intros Hb. induction l as [| x l IH]; simpl.
  - apply keeps_ret.
  - apply keeps_bind; [apply Hb | intros _; exact IH].
Qed.

Lemma keeps_getitem (l : list string) (i : Z) : keeps Inv R (Py.getitem l i).
Proof.
  unfold Py.getitem.
  destruct (_ <? 0)%Z; [apply keeps_raise |].
  destruct (nth_error _ _); [apply keeps_ret | apply keeps_raise].
Qed.

Lemma keeps_max (l : list Z) : keeps Inv R (Py.max l).
Proof. destruct l; [apply keeps_raise | apply keeps_ret]. Qed.

Lemma keeps_min (l : list Z) : keeps Inv R (Py.min l).
Proof. destruct l; [apply keeps_raise | apply keeps_ret]. Qed.

Lemma plain_head (a : ascii) (rest : string) :
  a <> "N"%char -> P (String a rest).
Proof.
  intros Ha. apply P_plain. unfold NO_KEYWORD_IN_TEXT.
  intros H. injection H as H _. contradiction.
Qed.

Lemma keeps_get_window (v : PyVersion) (tokens : list string) (index : Z) :
  keeps Inv R (_get_window v tokens index).
Proof.
  unfold _get_window.
  apply keeps_bind; [apply keeps_max | intros mx].
  apply keeps_bind; [apply keeps_min | intros mn].
  apply keeps_ret.
Qed.

Lemma keeps_section_loop (l : list string) (prev : string) :
  keeps Inv R (section_loop prev l).
Proof.
  revert prev. induction l as [| curr l IH]; intros prev; simpl.
  - apply keeps_ret.
  - destruct (String.eqb curr "_SECTION_").
    + apply keeps_append. apply plain_head; discriminate.
    + apply IH.
Qed.

Lemma keeps_ngrams_at (v : PyVersion) (tokens : list string) (index : Z) :
  keeps Inv R (ngrams_at v tokens index).
Proof.
  unfold ngrams_at.
  apply keeps_get; intros self Hself.
  apply keeps_bind; [apply keeps_append, P_marker, Hself | intros _].
  apply keeps_bind; [apply keeps_section_loop | intros _].
  apply keeps_bind; [apply keeps_get_window | intros [start end_]].
  apply keeps_bind.
  { destruct (_ && _); [| apply keeps_ret].
    apply keeps_bind; [apply keeps_getitem | intros t].
    apply keeps_append, plain_head; discriminate. }
  intros _. apply keeps_bind.
  { apply keeps_for_each; intros i.
    apply keeps_bind; [apply keeps_getitem | intros ti].
    apply keeps_bind;
      [apply keeps_append, plain_head; discriminate |].
    intros _. apply keeps_for_each; intros j.
    destruct (_ >? _)%Z; [| apply keeps_ret].
    apply keeps_bind; [apply keeps_getitem | intros a].
    apply keeps_bind; [apply keeps_getitem | intros b].
    apply keeps_append, plain_head; discriminate. }
  intros _. apply keeps_bind.
  { destruct (_ && _); [| apply keeps_ret].
    apply keeps_bind; [apply keeps_getitem | intros t].
    apply keeps_append, plain_head; discriminate. }
  intros _. apply keeps_for_each; intros i.
  apply keeps_bind; [apply keeps_getitem | intros ti].
  apply keeps_bind;
    [apply keeps_append, plain_head; discriminate |].
  intros _. apply keeps_for_each; intros j.
  destruct (_ <? _)%Z; [| apply keeps_ret].
  apply keeps_bind; [apply keeps_getitem | intros a].
  apply keeps_bind; [apply keeps_getitem | intros b].
  apply keeps_append, plain_head; discriminate.
Qed.

Lemma keeps_ngrams (v : PyVersion) : keeps Inv R (_ngrams v).
Proof.
  unfold _ngrams. apply keeps_get; intros self _.
  apply keeps_for_each; intros [index token].
  destruct (negb _); [apply keeps_ret | apply keeps_ngrams_at].
Qed.

End Keeps.

(** ** What a stage may change *)

Lemma frame_refl P s : frame P s s.
Proof.
  repeat split; try reflexivity. exists []. split; [| constructor].
  symmetry. apply app_nil_r.
Qed.

Lemma frame_trans P a b c : frame P a b -> frame P b c -> frame P a c.
Proof.
  intros (T1 & O1 & S1 & M1 & A1 & l1 & V1 & F1)
         (T2 & O2 & S2 & M2 & A2 & l2 & V2 & F2).
  repeat split; try congruence.
  exists (l1 ++ l2)%list. split.
  - rewrite V2, V1. symmetry. apply app_assoc.
  - apply Forall_app. split; assumption.
Qed.

Lemma frame_append P s f : P f -> frame P s (vector_append s f).
Proof.
  intros Hf. repeat split; try reflexivity.
  exists [f]. split; [reflexivity | repeat constructor; exact Hf].
Qed.

Lemma frame_set_text P s t : frame P s (set_text s t).
Proof.
  repeat split; try reflexivity. exists []. split; [| constructor].
  simpl. symmetry. apply app_nil_r.
Qed.

Lemma frame_weaken (P Q : string -> Prop) s s' :
  (forall f, P f -> Q f) -> frame P s s' -> frame Q s s'.
Proof.
  intros HPQ (T & O & S & M & A & l & V & F).
  repeat split; try assumption.
  exists l. split; [assumption |].
  eapply Forall_impl; [| exact F]. exact HPQ.
Qed.

Section Framed.

Variable v : PyVersion.
Variable Inv : Vectorizer -> Prop.
Variable P : string -> Prop.

Hypothesis Inv_frame : forall s s', Inv s -> frame P s s' -> Inv s'.
Hypothesis P_marker : forall s, Inv s -> P (marker s).
Hypothesis P_plain : forall f, f <> NO_KEYWORD_IN_TEXT -> P f.

Lemma P_head (a : ascii) (rest : string) :
  a <> "N"%char -> P (String a rest).
Proof.
  intros Ha. apply P_plain. unfold NO_KEYWORD_IN_TEXT.
  intros H. injection H as H _. contradiction.
Qed.

Lemma framed_bind {A B} (c : M A) (k : A -> M B) :
  keeps Inv (frame P) c -> (forall a, keeps Inv (frame P) (k a)) ->
  keeps Inv (frame P) (bind c k).
Proof.
  apply keeps_bind; [apply frame_trans | exact Inv_frame].
Qed.

Lemma framed_lift (f : Vectorizer -> Vectorizer) :
  (forall s, Inv s -> frame P s (f s)) -> keeps Inv (frame P) (lift f).
Proof. intros Hf s Hs. simpl. apply Hf, Hs. Qed.

Lemma framed_append (f : string) : P f -> keeps Inv (frame P) (append f).
Proof. intros Hf s _. simpl. apply frame_append, Hf. Qed.

Lemma framed_ngrams : keeps Inv (frame P) (_ngrams v).
Proof.
  apply (keeps_ngrams Inv (frame P) P (frame_refl P) (frame_trans P)
           Inv_frame (fun s f _ Hf => frame_append P s f Hf)
           P_marker P_plain).
Qed.

Lemma frame_fold_set_text {A} (step : Vectorizer -> A -> string)
      (l : list A) (s : Vectorizer) :
  frame P s (fold_left (fun self x => set_text self (step self x)) l s).
Proof.
  revert s. induction l as [| x l IH]; intros s; simpl.
  - apply frame_refl.
  - eapply frame_trans; [apply frame_set_text | apply IH].
Qed.

Lemma frame_cytology_report s : frame P s (_cytology_report v s).
Proof. apply frame_append, P_head. discriminate. Qed.

Lemma framed_positive_loop (patterns : list (re.pattern * string)) :
  keeps Inv (frame P) (positive_loop v patterns).
Proof.
  induction patterns as [| [pattern test] rest IH]; simpl.
  - apply keeps_ret, frame_refl.
  - apply keeps_get; intros self _.
    destruct (negb _); [exact IH |].
    destruct (re.compile _ _); [| apply keeps_raise, frame_refl].
    destruct (re.search _ _ _); [| exact IH].
    apply framed_bind; [| intros _];
      apply framed_append, P_head; discriminate.
Qed.

Lemma framed_positive_test : keeps Inv (frame P) (_positive_test v).
Proof.
  unfold _positive_test. apply keeps_get; intros self _.
  apply framed_positive_loop.
Qed.

Lemma frame_test_instance s : frame P s (_test_instance v s).
Proof.
  unfold _test_instance. generalize (test_patterns s) as l.
  intros l. revert s. induction l as [| [pattern test] l IH]; intros s; simpl.
  - apply frame_refl.
  - eapply frame_trans; [| apply IH].
    destruct (negb _); [apply frame_refl | apply frame_set_text].
Qed.

Lemma frame_sweep (repl : string -> string)
      (patterns : list (re.pattern * string)) s :
  frame P s (sweep v repl patterns s).
Proof.
  unfold sweep. revert s.
  induction patterns as [| [subout subin] l IH]; intros s; simpl.
  - apply frame_refl.
  - eapply frame_trans; [apply frame_set_text | apply IH].
Qed.

Lemma frame_standardize_pass s : frame P s (standardize_pass v s).
Proof.
  unfold standardize_pass.
  eapply frame_trans; [| apply frame_sweep].
  eapply frame_trans; [| apply frame_sweep].
  apply frame_sweep.
Qed.

Lemma frame_standardize s : frame P s (_standardize v s).
Proof.
  unfold _standardize.
  eapply frame_trans; apply frame_standardize_pass.
Qed.

Lemma framed_accession_step (subject : string) (x : re.rmatch) :
  keeps Inv (frame P) (accession_step v subject x).
Proof.
  unfold accession_step.
  destruct (re.group _ _ _); [| apply keeps_raise, frame_refl].
  apply keeps_get; intros self _.
  destruct (re.compile _ _); [| apply keeps_raise, frame_refl].
  apply framed_lift. intros s' _. apply frame_set_text.
Qed.

Lemma framed_other_accession : keeps Inv (frame P) (_other_accession v).
Proof.
  unfold _other_accession. apply keeps_get; intros self _.
  apply framed_bind.
  - apply keeps_for_each;
      [apply frame_refl | apply frame_trans | exact Inv_frame |].
    intros x. apply framed_accession_step.
  - intros _. apply framed_append, P_head. discriminate.
Qed.

Lemma frame_insufficient s : frame P s (_insufficient v s).
Proof. apply frame_append, P_head. discriminate. Qed.

Lemma frame_substitute s : frame P s (_substitute v s).
Proof.
  unfold _substitute. generalize substitutions as l.
  intros l. revert s. induction l as [| [subout subin] l IH]; intros s; simpl.
  - apply frame_refl.
  - eapply frame_trans; [apply frame_set_text | apply IH].
Qed.

Lemma frame_stop_list s : frame P s (_stop_list v s).
Proof.
  unfold _stop_list.
  eapply frame_trans; [| apply frame_set_text].
  eapply frame_trans; apply frame_set_text.
Qed.

End Framed.

(** ** The pipeline as a whole *)

Lemma make_vector_begin v t a mk self :
  make_vector v t a mk self = pipeline v (begin_call v t a mk self).
Proof. reflexivity. Qed.

Lemma pipeline_run v s0 :
  pipeline v s0 =
  match _positive_test v (_cytology_report v s0) with
  | (Raise e, s2) => (Raise e, s2)
  | (Return _, s2) =>
      match _other_accession v (_standardize v (_test_instance v s2)) with
      | (Raise e, s4) => (Raise e, s4)
      | (Return _, s4) =>
          match _ngrams v (_stop_list v (_substitute v (_insufficient v s4))) with
          | (Raise e, s6) => (Raise e, s6)
          | (Return _, s6) =>
              (Return (vector (_test_mentions s6)), _test_mentions s6)
          end
      end
  end.
Proof.
  unfold pipeline. rewrite bind_run. unfold lift at 1. rewrite bind_run.
  destruct (_positive_test v _) as [[[] | e] s2]; [| reflexivity].
  rewrite bind_run. unfold lift at 1. rewrite bind_run. unfold lift at 1.
  rewrite bind_run.
  destruct (_other_accession v _) as [[[] | e] s4]; [| reflexivity].
  rewrite bind_run. unfold lift at 1. rewrite bind_run. unfold lift at 1.
  rewrite bind_run. unfold lift at 1. rewrite bind_run.
  destruct (_ngrams v _) as [[[] | e] s6]; reflexivity.
Qed.

Lemma ngrams_keeps_text v s : text (snd (_ngrams v s)) = text s.
Proof.
  apply (keeps_ngrams (fun _ => True) (fun a b => text b = text a)
                      (fun _ => True)); auto.
  intros a b c Hab Hbc. congruence.
Qed.

Lemma frame_test_mentions s : frame (fun _ => True) s (_test_mentions s).
Proof.
  unfold _test_mentions. destruct (_ =? 0)%nat.
  - eapply frame_trans; apply frame_append; exact I.
  - apply frame_append; exact I.
Qed.

Lemma sound_frame_inv mk s s' :
  marker s = mk -> frame (sound mk) s s' -> marker s' = mk.
Proof. intros H (_ & _ & _ & M & _). congruence. Qed.

Lemma sound_marker mk s : marker s = mk -> sound mk (marker s).
Proof. intros H. unfold sound. congruence. Qed.

Lemma sound_plain mk f : f <> NO_KEYWORD_IN_TEXT -> sound mk f.
Proof. intros H E. contradiction. Qed.

(** What a call that returns has gone through: [s4] is the state after
    [_other_accession] and [s6] the state after [_ngrams]. *)
Lemma pipeline_return v s0 vec :
  fst (pipeline v s0) = Return vec ->
  exists s4 s6,
    frame (sound (marker s0)) s0 s4 /\
    frame (sound (marker s0)) (_insufficient v s4) s6 /\
    text s6 = text (_stop_list v (_substitute v (_insufficient v s4))) /\
    snd (pipeline v s0) = _test_mentions s6 /\
    vec = vector (_test_mentions s6).
Proof.
  set (mk := marker s0).
  assert (Inv_frame : forall s s', marker s = mk ->
                                   frame (sound mk) s s' -> marker s' = mk)
    by apply sound_frame_inv.
  assert (Pm : forall s, marker s = mk -> sound mk (marker s))
    by apply sound_marker.
  assert (Pp : forall f, f <> NO_KEYWORD_IN_TEXT -> sound mk f)
    by apply sound_plain.
  rewrite pipeline_run.
  pose proof (frame_cytology_report v (sound mk) Pp s0) as F1.
  pose proof (framed_positive_test v _ _ Inv_frame Pp
                (_cytology_report v s0) (Inv_frame _ _ eq_refl F1)) as F2.
  destruct (_positive_test v _) as [[[] | e] s2]; cbn [fst snd] in F2;
    [| discriminate].
  assert (F3 : frame (sound mk) s0 (_standardize v (_test_instance v s2))).
  { eapply frame_trans; [exact F1 |]. eapply frame_trans; [exact F2 |].
    eapply frame_trans; [apply frame_test_instance | apply frame_standardize]. }
  pose proof (framed_other_accession v _ _ Inv_frame Pp _
                (Inv_frame _ _ eq_refl F3)) as F4.
  destruct (_other_accession v _) as [[[] | e] s4]; cbn [fst snd] in F4;
    [| discriminate].
  assert (F5 : frame (sound mk) s0 s4) by (eapply frame_trans; eassumption).
  set (s5 := _stop_list v (_substitute v (_insufficient v s4))).
  assert (F6 : frame (sound mk) (_insufficient v s4) s5).
  { eapply frame_trans; [apply frame_substitute | apply frame_stop_list]. }
  assert (M5 : marker s5 = mk).
  { eapply Inv_frame; [| exact F6]. eapply Inv_frame; [| apply frame_insufficient; exact Pp].
    eapply Inv_frame; [reflexivity | exact F5]. }
  pose proof (framed_ngrams v _ _ Inv_frame Pm Pp s5 M5) as F7.
  pose proof (ngrams_keeps_text v s5) as T7.
  destruct (_ngrams v s5) as [[[] | e] s6]; cbn [fst snd] in F7, T7;
    [| discriminate].
  cbn [fst snd]. intros H. injection H as H.
  exists s4, s6.
  split; [exact F5 |].
  split; [exact (frame_trans _ _ _ _ F6 F7) |].
  split; [exact T7 |].
  split; [reflexivity | symmetry; exact H].
Qed.

(** Every state the pipeline ends in, whether it returns or raises,
    extends the vector that [_cytology_report] left. *)
Lemma pipeline_frame v s0 :
  frame (fun _ => True) (_cytology_report v s0) (snd (pipeline v s0)).
Proof.
  assert (Inv_frame : forall s s' : Vectorizer,
             True -> frame (fun _ => True) s s' -> True) by auto.
  assert (Pp : forall f : string, f <> NO_KEYWORD_IN_TEXT -> True) by auto.
  rewrite pipeline_run.
  pose proof (framed_positive_test v (fun _ => True) _ Inv_frame Pp
                (_cytology_report v s0) I) as F2.
  destruct (_positive_test v _) as [[[] | e] s2]; cbn [fst snd] in F2;
    [| exact F2].
  assert (F3 : frame (fun _ => True) (_cytology_report v s0)
                     (_standardize v (_test_instance v s2))).
  { eapply frame_trans; [exact F2 |].
    eapply frame_trans; [apply frame_test_instance | apply frame_standardize]. }
  pose proof (framed_other_accession v (fun _ => True) _ Inv_frame Pp
                (_standardize v (_test_instance v s2)) I) as F4.
  destruct (_other_accession v _) as [[[] | e] s4]; cbn [fst snd] in F4;
    [| eapply frame_trans; eassumption].
  set (s5 := _stop_list v (_substitute v (_insufficient v s4))).
  assert (F6 : frame (fun _ => True) (_cytology_report v s0) s5).
  { eapply frame_trans; [exact F3 |]. eapply frame_trans; [exact F4 |].
    eapply frame_trans; [apply frame_insufficient; exact Pp |].
    eapply frame_trans; [apply frame_substitute | apply frame_stop_list]. }
  pose proof (framed_ngrams v (fun _ => True) _ Inv_frame
                (fun _ _ => I) Pp s5 I) as F7.
  destruct (_ngrams v s5) as [[[] | e] s6]; cbn [fst snd] in F7; cbn [fst snd].
  - eapply frame_trans; [exact F6 |]. eapply frame_trans; [exact F7 |].
    apply frame_test_mentions.
  - eapply frame_trans; eassumption.
Qed.

Lemma pipeline_returns_vector v s0 vec :
  fst (pipeline v s0) = Return vec -> vec = vector (snd (pipeline v s0)).
Proof.
  intros H. destruct (pipeline_return v s0 vec H) as (s4 & s6 & _ & _ & _ & E & V).
  rewrite E. exact V.
Qed.

Lemma insufficient_vector v s :
  vector (_insufficient v s) = (vector s ++ ["INSUFFICIENT"])%list.
Proof. reflexivity. Qed.

Lemma test_mentions_vector s :
  vector (_test_mentions s) =
  (vector s ++ "COUNT_TEST_INSTANCE" ::
     (if (Str.count "TEST_INSTANCE" (text s) =? 0)%nat
      then [NO_KEYWORD_IN_TEXT] else []))%list
  /\ text (_test_mentions s) = text s.
Proof.
  unfold _test_mentions. destruct (_ =? 0)%nat; simpl.
  - split; [| reflexivity]. rewrite <- app_assoc. reflexivity.
  - split; reflexivity.
Qed.

Lemma same_patterns_refl s : same_patterns s s.
Proof. repeat split. Qed.

Lemma same_patterns_trans a b c :
  same_patterns a b -> same_patterns b c -> same_patterns a c.
Proof. intros (T1 & O1 & S1) (T2 & O2 & S2). repeat split; congruence. Qed.

Lemma frame_same_patterns P s s' : frame P s s' -> same_patterns s s'.
Proof. intros (T & O & S & _). repeat split; assumption. Qed.

Lemma make_vector_same_patterns v t a mk self :
  same_patterns self (snd (make_vector v t a mk self)).
Proof.
  rewrite make_vector_begin.
  apply same_patterns_trans with (begin_call v t a mk self);
    [repeat split |].
  apply same_patterns_trans with (_cytology_report v (begin_call v t a mk self));
    [repeat split |].
  eapply frame_same_patterns, pipeline_frame.
Qed.

Lemma after_calls_same_patterns v calls self :
  same_patterns self (after_calls v calls self).
Proof.
  revert self. induction calls as [| [[t a] mk] calls IH]; intros self; simpl.
  - apply same_patterns_refl.
  - eapply same_patterns_trans; [apply make_vector_same_patterns | apply IH].
Qed.

Lemma begin_call_same_patterns v t a mk s s' :
  same_patterns s s' -> begin_call v t a mk s' = begin_call v t a mk s.
Proof. intros (T & O & S). unfold begin_call. rewrite T, O, S. reflexivity. Qed.

(** ** The claims about the feature sequence *)

(** C10.  Whatever the text, the accession and the marker, the vector
    that [make_vector] builds begins with [CYTO_RELATED_REPORT], and so
    does the sequence it returns: [_cytology_report] appends the feature
    whether or not its pattern is found, the result of the search being
    dropped. *)
Theorem make_vector_first_feature :
  forall v raw accession marker self,
    (forall s, _cytology_report v s = vector_append s "CYTO_RELATED_REPORT") /\
    exists rest,
      vector (snd (make_vector v raw accession marker self))
        = "CYTO_RELATED_REPORT" :: rest /\
      forall vec,
        fst (make_vector v raw accession marker self) = Return vec ->
        vec = "CYTO_RELATED_REPORT" :: rest.
Proof.
  intros v raw acc mk self. split; [reflexivity |].
  rewrite make_vector_begin.
  destruct (pipeline_frame v (begin_call v raw acc mk self))
    as (_ & _ & _ & _ & _ & l & V & _).
  exists l. split; [exact V |].
  intros vec H. rewrite (pipeline_returns_vector _ _ _ H). exact V.
Qed.

(** C7.  The outcome of [make_vector] on given arguments is the same
    whatever calls were made on the same [Vectorizer] before: the same
    features in the same order, or the same exception. *)
Theorem make_vector_deterministic :
  forall v self calls raw accession marker,
    fst (make_vector v raw accession marker (after_calls v calls self))
    = fst (make_vector v raw accession marker self).
Proof.
  intros v self calls raw acc mk.
  rewrite !make_vector_begin.
  rewrite (begin_call_same_patterns v raw acc mk self
             (after_calls v calls self) (after_calls_same_patterns v calls self)).
  reflexivity.
Qed.

(** C1, amended.  When the marker is not itself the text
    [NO_KEYWORD_IN_TEXT] and [make_vector] returns, the sequence holds
    [NO_KEYWORD_IN_TEXT] exactly when [TEST_INSTANCE] does not occur in
    the final text buffer, and then as its last feature, right after
    [COUNT_TEST_INSTANCE]. *)
Theorem no_keyword_iff_no_anchor :
  forall v raw accession marker self vec,
    marker <> NO_KEYWORD_IN_TEXT ->
    fst (make_vector v raw accession marker self) = Return vec ->
    (In NO_KEYWORD_IN_TEXT vec <->
     Str.count "TEST_INSTANCE"
               (text (snd (make_vector v raw accession marker self))) = 0) /\
    (In NO_KEYWORD_IN_TEXT vec ->
     exists front,
       vec = (front ++ ["COUNT_TEST_INSTANCE"; NO_KEYWORD_IN_TEXT])%list).
Proof.
  intros v raw acc mk self vec Hmk H.
  rewrite make_vector_begin in *.
  destruct (pipeline_return v _ vec H) as (s4 & s6 & F4 & F6 & _ & E & V).
  rewrite E. destruct (test_mentions_vector s6) as [VV TT].
  rewrite TT, VV in *. clear E VV TT. subst vec.
  assert (Hclean : ~ In NO_KEYWORD_IN_TEXT (vector s6)).
  { assert (F : frame (sound mk) (begin_call v raw acc mk self) s6).
    { eapply frame_trans; [exact F4 |].
      eapply frame_trans; [| exact F6].
      apply frame_insufficient. apply sound_plain. }
    destruct F as (_ & _ & _ & _ & _ & l & V & Fl). rewrite V. simpl.
    intros Hin. rewrite Forall_forall in Fl.
    apply Hmk. exact (Fl _ Hin eq_refl). }
  destruct (Str.count "TEST_INSTANCE" (text s6)) as [| n] eqn:C; simpl.
  - split.
    + split; [reflexivity |]. intros _. apply in_or_app. right. simpl. auto.
    + intros _. exists (vector s6). reflexivity.
  - assert (Habs : ~ In NO_KEYWORD_IN_TEXT
                     (vector s6 ++ ["COUNT_TEST_INSTANCE"])%list).
    { intros Hin. apply in_app_or in Hin. destruct Hin as [Hin | Hin].
      - exact (Hclean Hin).
      - simpl in Hin. destruct Hin as [Hin | []]. discriminate Hin. }
    split.
    + split; [intros Hin; contradiction | discriminate].
    + intros Hin; contradiction.
Qed.

(** Every sequence that [make_vector] returns holds [INSUFFICIENT],
    whether or not the pattern for an insufficient sample is found in
    the working text: [_insufficient] drops the result of its search. *)
Lemma insufficient_always_present :
  forall v raw accession marker self vec,
    fst (make_vector v raw accession marker self) = Return vec ->
    In "INSUFFICIENT" vec.
Proof.
  intros v raw acc mk self vec H.
  rewrite make_vector_begin in H.
  destruct (pipeline_return v _ vec H) as (s4 & s6 & _ & F6 & _ & _ & V).
  subst vec. destruct (test_mentions_vector s6) as [VV _]. rewrite VV.
  destruct F6 as (_ & _ & _ & _ & _ & l & V & _). rewrite V.
  apply in_or_app. left. apply in_or_app. left.
  simpl. apply in_or_app. right. simpl. auto.
Qed.

(** C1 as it is stated fails when the marker is the text of the
    sentinel: the marker is appended for the anchor, so the sequence
    holds [NO_KEYWORD_IN_TEXT] although the anchor occurs once. *)
Lemma marker_named_as_sentinel :
  exists vec,
    fst (make_vector Py2 "x TEST_INSTANCE y" "" NO_KEYWORD_IN_TEXT demo)
      = Return vec /\
    ~ (In NO_KEYWORD_IN_TEXT vec <->
       Str.count "TEST_INSTANCE"
         (text (snd (make_vector Py2 "x TEST_INSTANCE y" ""
                                 NO_KEYWORD_IN_TEXT demo))) = 0).
Proof.
  eexists. split; [vm_compute; reflexivity |].
  intros [H _].
  assert (C : Str.count "TEST_INSTANCE"
                (text (snd (make_vector Py2 "x TEST_INSTANCE y" ""
                                        NO_KEYWORD_IN_TEXT demo))) = 1)
    by (vm_compute; reflexivity).
  rewrite C in H. discriminate H.
  vm_compute. in_list.
Qed.

Lemma no_keyword_iff_no_anchor_witness :
  "EGFR" <> NO_KEYWORD_IN_TEXT /\
  exists vec,
    fst (make_vector Py2 "no EGFR or egfr result" "S17-1111" "EGFR" demo)
      = Return vec /\
    (In NO_KEYWORD_IN_TEXT vec <->
     Str.count "TEST_INSTANCE"
       (text (snd (make_vector Py2 "no EGFR or egfr result" "S17-1111"
                               "EGFR" demo))) = 0) /\
    (In NO_KEYWORD_IN_TEXT vec ->
     exists front,
       vec = (front ++ ["COUNT_TEST_INSTANCE"; NO_KEYWORD_IN_TEXT])%list).
Proof.
  split; [discriminate |].
  eexists. split; [vm_compute; reflexivity |].
  apply (no_keyword_iff_no_anchor Py2 "no EGFR or egfr result" "S17-1111"
                                  "EGFR" demo);
    [discriminate | vm_compute; reflexivity].
Defined.

(** C3.  On the text of the end-to-end scenario the pattern for an
    insufficient sample is not found in the working text that
    [_insufficient] searches, under either version of Python, and the
    sequence that [make_vector] returns holds [INSUFFICIENT] all the
    same: [_insufficient] computes the result of its search and drops
    it, where its docstring has it add the presence of insufficient
    samples. *)
Theorem insufficient_without_a_match :
  forall v,
    re.search v insufficient_pattern
      (text_at_insufficient v "EGFR mutation testing: negative. (S17-1111)"
                            "S17-1111" "EGFR" demo) = None /\
    exists vec,
      fst (make_vector v "EGFR mutation testing: negative. (S17-1111)"
                       "S17-1111" "EGFR" demo) = Return vec /\
      In "INSUFFICIENT" vec.
Proof.
  intros []; (split; [vm_compute; reflexivity |]);
    (eexists; split; [vm_compute; reflexivity |]);
    vm_compute; in_list.
Qed.

Lemma insufficient_always_present_witness :
  exists vec,
    fst (make_vector Py2 " EGFR mutation testing: negative. (S17-1111) "
                     "S17-1111" "EGFR" demo) = Return vec /\
    In "INSUFFICIENT" vec.
Proof.
  eexists. split; [vm_compute; reflexivity |].
  apply (insufficient_always_present
           Py2 " EGFR mutation testing: negative. (S17-1111) "
           "S17-1111" "EGFR" demo).
  vm_compute. reflexivity.
Defined.

(** ** Where the code departs from the claims *)

(** C2.  On the tokens W Q PUNCTUATION B C D TEST_INSTANCE E the window
    of the anchor (index 6) is [3, 8): it starts after PUNCTUATION.  The
    sequence still holds the skip-gram [pre_window=Q_B], whose first
    token Q (index 1) lies before the window and beyond PUNCTUATION
    (index 2): the test of the pre-window loop is [index - j > start],
    where the post-window loop tests the position [i]. *)
Theorem pre_window_skipgram_crosses_boundary :
  forall v,
    tokenize v (text (snd (make_vector v "w q. b c d egfr e" "" "EGFR" demo)))
      = ["W"; "Q"; "PUNCTUATION"; "B"; "C"; "D"; "TEST_INSTANCE"; "E"] /\
    fst (_get_window v ["W"; "Q"; "PUNCTUATION"; "B"; "C"; "D";
                        "TEST_INSTANCE"; "E"] 6 demo) = Return (3, 8)%Z /\
    exists vec,
      fst (make_vector v "w q. b c d egfr e" "" "EGFR" demo) = Return vec /\
      In "pre_window=Q_B" vec.
Proof.
  intros []; (split; [vm_compute; reflexivity |]);
    (split; [vm_compute; reflexivity |]);
    (eexists; split; [vm_compute; reflexivity | vm_compute; in_list]).
Qed.

(** C4.  With the marker EGFR and the text [ egfr egfr ], [_test_instance]
    replaces the first mention only (the space between the two belongs
    to the first match).  The marker's own pattern still matches the
    second mention, and the first sweep of [_standardize], which runs
    over every test pattern, rewrites it to OTHER_TEST. *)
Theorem own_mention_becomes_other_test :
  forall v,
    let s := after_test_instance v " egfr egfr " "" "EGFR" demo in
    text s = " TEST_INSTANCE egfr " /\
    match test_patterns s with
    | (pattern, test) :: _ =>
        test = marker s /\
        re.source pattern = "[\W\^](egfr)[\W$]" /\
        option_map (fun x => Str.slice (re.m_start x) (re.m_end x) (text s))
                   (re.search v pattern (text s)) = Some " egfr "
    | [] => False
    end /\
    text (_standardize v s) = " TEST_INSTANCE OTHER_TEST ".
Proof.
  intros []; vm_compute; repeat split; reflexivity.
Qed.

(** C6.  With the accession S17-1234, the text holds this report's
    number and then S17-12345, another report's.  Both are matched; the
    first is replaced wherever its text occurs, also inside the second,
    which then is no longer found: the other report's number ends as
    THIS_ACC_NUM followed by a 5, and nothing is marked OTHER_ACC_NUM. *)
Theorem longer_accession_takes_this_label :
  forall v,
    let raw := " see S17-1234 and S17-12345 . " in
    text (_standardize v (after_test_instance v raw "S17-1234" "EGFR" demo))
      = raw /\
    map (fun x => re.group x 1 raw) (re.finditer v accession_pattern raw)
      = [Some "S17-1234"; Some "S17-12345"] /\
    text_at_insufficient v raw "S17-1234" "EGFR" demo
      = " see  THIS_ACC_NUM  and  THIS_ACC_NUM 5 . ".
Proof.
  intros []; vm_compute; repeat split; reflexivity.
Qed.

(** The three cases that C6 names do resolve as it says. *)
Example accession_examples :
  forall v,
    text_at_insufficient v "Previous report (S17-1234) reviewed."
                         "S17-1234" "EGFR" demo
      = "Previous report  THIS_ACC_NUM  reviewed." /\
    text_at_insufficient v "Previous report S17 1234 reviewed."
                         "S17-1234" "EGFR" demo
      = "Previous report  THIS_ACC_NUM  reviewed." /\
    text_at_insufficient v "Previous report S16-98765 reviewed."
                         "S17-1234" "EGFR" demo
      = "Previous report  OTHER_ACC_NUM  reviewed.".
Proof.
  intros []; vm_compute; repeat split; reflexivity.
Qed.

(** C9.  A report whose text is the marker's mention alone is reduced
    to the single token TEST_INSTANCE.  Its window has one token, so
    under Python 2 [len(window) / 2] is 0, no break (not even the 0
    that is appended) lies below it, and [max] is called on an empty
    list: [make_vector] raises [ValueError]. *)
Theorem lone_anchor_raises_value_error :
  fst (make_vector Py2 " EGFR " "S17-1111" "EGFR" demo) = Raise ValueError /\
  tokenize Py2 (text (snd (make_vector Py2 " EGFR " "S17-1111" "EGFR" demo)))
    = ["TEST_INSTANCE"].
Proof. vm_compute. split; reflexivity. Qed.

(** The same holds of every state whose text is that single token,
    whatever the patterns are. *)
Lemma ngrams_lone_anchor (self : Vectorizer) :
  tokenize Py2 (text self) = ["TEST_INSTANCE"] ->
  fst (_ngrams Py2 self) = Raise ValueError.
Proof.
  intros H. unfold _ngrams. rewrite bind_run. cbn [get].
  rewrite H. reflexivity.
Qed.

(** Under Python 3 the division is exact and the same call returns. *)
Example lone_anchor_python3 :
  fst (make_vector Py3 " EGFR " "S17-1111" "EGFR" demo)
  = Return ["CYTO_RELATED_REPORT"; "OTHER_ACC_NUM_IN_TEXT"; "INSUFFICIENT";
            "EGFR"; "COUNT_TEST_INSTANCE"].
Proof. vm_compute. reflexivity. Qed.

(** ** The window of [_get_window] *)

Lemma len_slice {A} (l : list A) (a b : Z) :
  (0 <= a <= b)%Z -> (b <= Py.len l)%Z ->
  Py.len (Py.slice l a b) = (b - a)%Z.
Proof.
  intros Hab Hb. unfold Py.len, Py.slice in *.
  rewrite length_firstn, length_skipn. lia.
Qed.

Lemma nth_error_slice {A} (l : list A) (a b : Z) (j : nat) (t : A) :
  nth_error (Py.slice l a b) j = Some t ->
  nth_error l (Z.to_nat a + j) = Some t /\ (Z.of_nat j < b - a)%Z.
Proof.
  unfold Py.slice. rewrite nth_error_firstn.
  destruct (j <? _)%nat eqn:Hj; [| discriminate].
  rewrite nth_error_skipn. apply Nat.ltb_lt in Hj.
  intros H. split; [exact H | lia].
Qed.

Lemma in_combine_seq {A} (l : list A) (a n : nat) (i : Z) (t : A) :
  In (i, t) (combine (map (fun k => (0 + Z.of_nat k)%Z) (seq a n)) l) ->
  exists j, i = Z.of_nat (a + j) /\ nth_error l j = Some t.
Proof.
  revert a n. induction l as [| x l IH]; intros a n H.
  - destruct (map _ _); contradiction.
  - destruct n as [| n]; [contradiction |].
    simpl in H. destruct H as [H | H].
    + injection H as Hi Hx. exists 0%nat. subst. split; [f_equal; lia | reflexivity].
    + destruct (IH _ _ H) as (j & Hj & Hn).
      exists (S j). split; [rewrite Hj; f_equal; lia | exact Hn].
Qed.

Lemma in_enumerate {A} (l : list A) (i : Z) (t : A) :
  In (i, t) (Py.enumerate l) ->
  (0 <= i)%Z /\ nth_error l (Z.to_nat i) = Some t.
Proof.
  unfold Py.enumerate, Py.range. intros H.
  destruct (in_combine_seq _ _ _ _ _ H) as (j & Hi & Hn).
  subst i. simpl. rewrite Nat2Z.id. split; [lia | exact Hn].
Qed.


Lemma max_of_app (l : list Z) (x : Z) (s : Vectorizer) :
  exists m, Py.max (l ++ [x]) s = (Return m, s) /\ (l = [] -> m = x).
Proof.
  destruct l as [| y l]; simpl.
  - exists x. split; [reflexivity | trivial].
  - eexists. split; [reflexivity | discriminate].
Qed.

Lemma min_of_app (l : list Z) (x : Z) (s : Vectorizer) :
  exists m, Py.min (l ++ [x]) s = (Return m, s) /\ (l = [] -> m = x).
Proof.
  destruct l as [| y l]; simpl.
  - exists x. split; [reflexivity | trivial].
  - eexists. split; [reflexivity | discriminate].
Qed.

(** The breaks of a window are positions of boundary tokens of the
    token list. *)
Lemma break_position (tokens : list string) (ws we i : Z) :
  (0 <= ws)%Z ->
  In i (map fst (filter (fun it => is_break (snd it))
                        (Py.enumerate (Py.slice tokens ws we)))) ->
  exists t, (0 <= i < we - ws)%Z /\
            nth_error tokens (Z.to_nat (ws + i)) = Some t /\
            is_break t = true.
Proof.
  intros Hws H. apply in_map_iff in H. destruct H as ([i' t] & Hi & H).
  simpl in Hi. subst i'. apply filter_In in H. destruct H as [H Hb].
  apply in_enumerate in H. destruct H as [Hi Hn].
  apply nth_error_slice in Hn. destruct Hn as [Hn Hlt].
  exists t. split; [lia |]. split; [| exact Hb].
  rewrite Z2Nat.inj_add by lia. exact Hn.
Qed.


(** ** Matches and substitution *)

Section Advance.

Variable v : PyVersion.
Variable fl : re.flags.

Lemma advances_trans a b st st1 st2 :
  advances a st st1 -> advances b st1 st2 -> advances (a + b) st st2.
Proof. unfold advances. lia. Qed.

Lemma advances_le a b st st' :
  b <= a -> advances a st st' -> advances b st st'.
Proof. unfold advances. lia. Qed.

Lemma advances_refl st : advances 0 st st.
Proof. unfold advances. lia. Qed.

Lemma eat_advances ok st k res :
  re.eat ok st k = Some res ->
  exists st', k st' = Some res /\ advances 1 st st'.
Proof.
  unfold re.eat. destruct (re.rest st) as [| c s'] eqn:E; [discriminate |].
  destruct (ok c); [| discriminate].
  intros H. eexists. split; [exact H |].
  unfold advances. simpl. rewrite E. simpl. lia.
Qed.

Lemma rep_advances body lo hi :
  (forall st k res, body st k = Some res ->
                    exists st', k st' = Some res /\ advances 0 st st') ->
  forall fuel count st k res,
    re.rep body lo hi fuel count st k = Some res ->
    exists st', k st' = Some res /\ advances 0 st st'.
Proof.
  intros Hbody. induction fuel as [| f IH]; intros count st k res; simpl.
  - destruct (lo <=? count)%nat; [| discriminate].
    intros H. exists st. split; [exact H | apply advances_refl].
  - destruct (if re.may_repeat count hi
              then body st (fun st' =>
                     if (re.pos st' =? re.pos st)%nat && (lo <=? S count)%nat
                     then k st'
                     else re.rep body lo hi f (S count) st' k)
              else None) as [r |] eqn:More.
    + intros H. injection H as H. subst r.
      destruct (re.may_repeat count hi); [| discriminate].
      apply Hbody in More. destruct More as (st1 & K1 & A1).
      destruct (_ && _).
      * exists st1. split; assumption.
      * apply IH in K1. destruct K1 as (st2 & K2 & A2).
        exists st2. split; [exact K2 |].
        apply (advances_trans 0 0 st st1 st2); assumption.
    + destruct (lo <=? count)%nat; [| discriminate].
      intros H. exists st. split; [exact H | apply advances_refl].
Qed.

Lemma m_advances r :
  forall st k res,
    re.m v fl r st k = Some res ->
    exists st', k st' = Some res /\ advances (re.min_len r) st st'.
Proof.
  induction r as [| c | | neg items | r1 IH1 r2 IH2 | r1 IH1 r2 IH2
                  | lo hi r IH | n r IH | |];
    intros st k res; simpl.
  - intros H. exists st. split; [exact H | apply advances_refl].
  - apply eat_advances.
  - apply eat_advances.
  - apply eat_advances.
  - intros H. apply IH1 in H. destruct H as (st1 & H & A1).
    apply IH2 in H. destruct H as (st2 & H & A2).
    exists st2. split; [exact H |]. eapply advances_trans; eassumption.
  - destruct (re.m v fl r1 st k) as [x |] eqn:E1.
    + intros H. injection H as H. subst x.
      apply IH1 in E1. destruct E1 as (st1 & H & A1).
      exists st1. split; [exact H |].
      eapply advances_le; [| exact A1]. apply Nat.le_min_l.
    + intros H. apply IH2 in H. destruct H as (st2 & H & A2).
      exists st2. split; [exact H |].
      eapply advances_le; [| exact A2]. apply Nat.le_min_r.
  - apply rep_advances. intros st0 k0 res0 H.
    apply IH in H. destruct H as (st1 & H & A1).
    exists st1. split; [exact H |].
    eapply advances_le; [| exact A1]. lia.
  - intros H. apply IH in H. destruct H as (st1 & H & A1).
    eexists. split; [exact H |]. exact A1.
  - destruct (re.at_beginning fl st); [| discriminate].
    intros H. exists st. split; [exact H | apply advances_refl].
  - destruct (re.at_end fl st); [| discriminate].
    intros H. exists st. split; [exact H | apply advances_refl].
Qed.

End Advance.

(** A match starts where it was looked for, reads at least the least
    length of its pattern and ends inside the subject. *)
Lemma match_at_span v p i pv s x :
  re.match_at v p i pv s = Some x ->
  re.m_start x = i /\
  i + re.min_len (re.prog p) <= re.m_end x /\
  re.m_end x <= i + String.length s.
Proof.
  unfold re.match_at.
  destruct (re.m v (re.pflags p) (re.prog p) (re.MState i pv s []) Some)
    as [st |] eqn:E; [| discriminate].
  intros H. injection H as H. subst x. simpl.
  apply m_advances in E. destruct E as (st' & K & A1 & A2).
  injection K as K. subst st'. simpl in *. lia.
Qed.

Lemma length_append (a b : string) :
  String.length (a ++ b) = String.length a + String.length b.
Proof. induction a as [| c a IH]; simpl; [reflexivity | rewrite IH; reflexivity]. Qed.

Section Substitution.

Variable v : PyVersion.
Variable p : re.pattern.
Variable repl : string.

Lemma rebuild_no_hits rule s :
  forall adj adj' i pv,
    re.hits (re.scan v p false 0 adj' i pv s) = [] ->
    re.rebuild repl (re.scan v p rule 0 adj i pv s) = s.
Proof.
  induction s as [| c s IH]; intros adj adj' i pv; simpl.
  - destruct (re.match_at v p i pv ""); [discriminate | reflexivity].
  - destruct (re.match_at v p i pv (String c s)) as [x |].
    + destruct (re.m_end x - i); discriminate.
    + simpl. intros H. f_equal. eapply IH. exact H.
Qed.

(** [sub] leaves a subject without a match as it is. *)
Lemma sub_no_match s :
  re.search v p s = None -> re.sub v p repl s = s.
Proof.
  unfold re.search, re.finditer, re.sub. intros H.
  apply rebuild_no_hits with (adj' := false).
  destruct (re.hits _); [reflexivity | discriminate].
Qed.

Hypothesis two_at_least : 2 <= re.min_len (re.prog p).
Hypothesis one_for_all : String.length repl = 1.

Lemma rebuild_length rule s :
  forall skip adj i pv,
    skip <= String.length s ->
    String.length (re.rebuild repl (re.scan v p rule skip adj i pv s)) + skip
    <= String.length s.
Proof.
  induction s as [| c s IH]; intros skip adj i pv Hskip; simpl in *.
  - destruct skip; [| lia].
    destruct (re.match_at v p i pv "") as [x |] eqn:E; [| simpl; lia].
    apply match_at_span in E. simpl in E. lia.
  - destruct skip as [| k].
    + destruct (re.match_at v p i pv (String c s)) as [x |] eqn:E.
      * apply match_at_span in E. simpl in E.
        destruct (re.m_end x - i) as [| n] eqn:L; [lia |].
        simpl. rewrite length_append, one_for_all.
        specialize (IH n true (S i) (Some c)). lia.
      * simpl. specialize (IH 0 false (S i) (Some c)). lia.
    + specialize (IH k true (S i) (Some c)). lia.
Qed.

Lemma rebuild_shorter rule s :
  forall adj adj' i pv,
    re.hits (re.scan v p false 0 adj' i pv s) <> [] ->
    String.length (re.rebuild repl (re.scan v p rule 0 adj i pv s))
    < String.length s.
Proof.
  induction s as [| c s IH]; intros adj adj' i pv; simpl.
  - destruct (re.match_at v p i pv "") as [x |] eqn:E;
      [| intros H; contradiction].
    apply match_at_span in E. simpl in E. lia.
  - destruct (re.match_at v p i pv (String c s)) as [x |] eqn:E.
    + intros _. apply match_at_span in E. simpl in E.
      destruct (re.m_end x - i) as [| n] eqn:L; [lia |].
      simpl. rewrite length_append, one_for_all.
      pose proof (rebuild_length rule s n true (S i) (Some c)). lia.
    + simpl. intros H. specialize (IH false false (S i) (Some c) H). lia.
Qed.

(** With a pattern that reads two characters or more and a
    replacement of one, [sub] changes every subject that has a
    match. *)
Lemma sub_match_changes s x :
  re.search v p s = Some x -> re.sub v p repl s <> s.
Proof.
  unfold re.search, re.finditer, re.sub. intros H E.
  assert (L : String.length
                (re.rebuild repl
                   (re.scan v p (re.adjacent_rule v) 0 false 0 None s))
              < String.length s).
  { apply rebuild_shorter with (adj' := false).
    destruct (re.hits _); [discriminate | discriminate]. }
  rewrite E in L. lia.
Qed.

End Substitution.

(** A third application of the stop-word substitution leaves the
    buffer of [_stop_list] unchanged exactly when the pattern has no
    match left in it. *)
Lemma third_stop_pass_fixed_iff_no_match :
  forall v self,
    re.sub v stop_list " " (text (_stop_list v self)) = text (_stop_list v self)
    <-> re.search v stop_list (text (_stop_list v self)) = None.
Proof.
  intros v self. split.
  - intros E. destruct (re.search v stop_list _) as [x |] eqn:S;
      [| reflexivity].
    exfalso. revert E. eapply sub_match_changes; [| reflexivity | exact S].
    vm_compute. lia.
  - apply sub_no_match.
Qed.

(** C8.  [_stop_list] does not remove the stop words of a run of four:
    each pass takes every other one, so on the buffer
    [results as to that of the tumor] the stop word OF is still there
    after the two passes, whatever the patterns and the version of
    Python, and a third pass changes the buffer.  So it is for the
    report with that text: [make_vector] leaves OF in the buffer that
    [_ngrams] reads.  The docstring has the step remove the stop list
    items, run twice to catch downstream patterns. *)
Theorem third_stop_pass_still_changes :
  (forall v tp op sp acc vec mk,
      let self := mkVectorizer tp op sp acc
                               "results as to that of the tumor" vec mk in
      text (_stop_list v self) = "RESULTS OF TUMOR" /\
      re.search v stop_list (text (_stop_list v self)) <> None /\
      re.sub v stop_list " " (text (_stop_list v self)) = "RESULTS TUMOR" /\
      re.sub v stop_list " " (text (_stop_list v self))
      <> text (_stop_list v self)) /\
  text (snd (make_vector Py2 "results as to that of the tumor" "S17-1111"
                         "EGFR" demo)) = "RESULTS OF TUMOR".
Proof.
  split; [| vm_compute; reflexivity].
  intros [] tp op sp acc vec mk; cbv zeta;
    (split; [vm_compute; reflexivity |]);
    (split; [vm_compute; discriminate |]);
    (split; [vm_compute; reflexivity | vm_compute; discriminate]).
Qed.



(** ** The same departures, whatever the pattern files hold

    [_ngrams] and [_other_accession] read no pattern list: on a state
    with the text below they behave as shown for every [Vectorizer]. *)

Lemma ngrams_skipgram_outside_window :
  forall v tp op sp acc mk,
    let self := mkVectorizer tp op sp acc
                  "W Q PUNCTUATION B C D TEST_INSTANCE E" [] mk in
    fst (_ngrams v self) = Return tt /\
    In "pre_window=Q_B" (vector (snd (_ngrams v self))).
Proof.
  intros [] tp op sp acc mk; vm_compute; (split; [reflexivity | in_list]).
Qed.

Lemma other_accession_prefix_overlap :
  forall v tp op sp vec mk,
    let self := mkVectorizer tp op sp "S171234"
                  " see S17-1234 and S17-12345 . " vec mk in
    fst (_other_accession v self) = Return tt /\
    text (snd (_other_accession v self))
      = " see  THIS_ACC_NUM  and  THIS_ACC_NUM 5 . ".
Proof.
  intros [] tp op sp vec mk; vm_compute; split; reflexivity.
Qed.

(** * Further properties of the code *)

(** ** Which characters a substitution can leave behind *)

Lemma every_append P a b : every P a -> every P b -> every P (a ++ b).
Proof.
  induction a as [| c a IH]; simpl; [trivial |].
  intros [Hc Ha] Hb. split; [exact Hc | apply IH; assumption].
Qed.

Lemma every_impl (P Q : ascii -> Prop) s :
  (forall c, P c -> Q c) -> every P s -> every Q s.
Proof.
  intros H. induction s as [| c s IH]; simpl; [trivial |].
  intros [Hc Hs]. split; [apply H, Hc | apply IH, Hs].
Qed.

Lemma every_and (P Q : ascii -> Prop) s :
  every P s -> every Q s -> every (fun c => P c /\ Q c) s.
Proof.
  induction s as [| c s IH]; simpl; [trivial |].
  intros [Pc Ps] [Qc Qs]. split; [split; assumption | apply IH; assumption].
Qed.

Lemma rebuild_every P repl l :
  every P repl -> Forall (kept P) l -> every P (re.rebuild repl l).
Proof.
  intros Hr. induction 1 as [| x l Hx _ IH]; simpl; [trivial |].
  destruct x as [c | m]; simpl in *.
  - split; assumption.
  - apply every_append; assumption.
Qed.

Lemma scan_kept P v p rule s :
  every P s ->
  forall skip adj i pv, Forall (kept P) (re.scan v p rule skip adj i pv s).
Proof.
  induction s as [| c s IH]; intros Hs skip adj i pv; simpl.
  - destruct skip; [| constructor].
    destruct (re.match_at v p i pv ""); [| constructor].
    destruct (rule && adj); repeat constructor.
  - destruct Hs as [Hc Hs]. specialize (IH Hs).
    destruct skip as [| n]; [| apply IH].
    destruct (re.match_at v p i pv (String c s)) as [x |].
    + destruct (re.m_end x - i).
      * destruct (rule && adj); repeat (constructor; simpl; trivial).
      * constructor; [exact I | apply IH].
    + constructor; [exact Hc | apply IH].
Qed.

(** [sub] brings in no character: what holds of every character of the
    subject and of the replacement holds of those of the result. *)
Lemma sub_every P v p repl s :
  every P s -> every P repl -> every P (re.sub v p repl s).
Proof.
  intros Hs Hr. unfold re.sub. apply rebuild_every; [exact Hr |].
  apply scan_kept, Hs.
Qed.

Lemma replace_go_every P old new s :
  every P s -> every P new ->
  forall skip, every P (Str.replace_go old new skip s).
Proof.
  intros Hs Hn. induction s as [| c s IH]; intros skip; simpl; [trivial |].
  destruct Hs as [Hc Hs]. specialize (IH Hs).
  destruct skip as [| k]; [| apply IH].
  destruct (Str.starts_with old (String c s)).
  - apply every_append; [exact Hn | apply IH].
  - split; [exact Hc | apply IH].
Qed.

Lemma upper_no_lower s :
  every (fun c => Char.islower c = false) (Str.upper s).
Proof.
  induction s as [| c s IH]; simpl; [trivial |]. split; [| exact IH].
  destruct c as [[] [] [] [] [] [] [] []]; reflexivity.
Qed.

Lemma upper_every_member chars s :
  (forall c, member c chars = false -> member (Char.upper c) chars = false) ->
  every (fun c => member c chars = false) s ->
  every (fun c => member c chars = false) (Str.upper s).
Proof.
  intros H. induction s as [| c s IH]; simpl; [trivial |].
  intros [Hc Hs]. split; [apply H, Hc | apply IH, Hs].
Qed.

(** A pattern that is one class of characters matches at a position
    exactly when the character there is in the class, so no character
    of the class is kept. *)
Lemma scan_class_kept v p neg items rule s :
  re.prog p = re.In neg items ->
  forall skip adj i pv,
    Forall (kept (fun c => re.set_matches v (re.pflags p) neg items c = false))
           (re.scan v p rule skip adj i pv s).
Proof.
  intros Hp. induction s as [| c s IH]; intros skip adj i pv; simpl.
  - destruct skip; [| constructor].
    destruct (re.match_at v p i pv ""); [| constructor].
    destruct (rule && adj); repeat constructor.
  - destruct skip as [| n]; [| apply IH].
    destruct (re.match_at v p i pv (String c s)) as [x |] eqn:E.
    + destruct (re.m_end x - i) eqn:L.
      * exfalso. apply match_at_span in E. rewrite Hp in E. simpl in E. lia.
      * constructor; [exact I | apply IH].
    + constructor; [| apply IH]. simpl.
      unfold re.match_at in E. rewrite Hp in E. simpl in E.
      unfold re.eat in E. simpl in E.
      destruct (re.set_matches v (re.pflags p) neg items c);
        [discriminate | reflexivity].
Qed.

Lemma sub_class_clears v p neg items repl s :
  re.prog p = re.In neg items ->
  every (fun c => re.set_matches v (re.pflags p) neg items c = false) repl ->
  every (fun c => re.set_matches v (re.pflags p) neg items c = false)
        (re.sub v p repl s).
Proof.
  intros Hp Hr. unfold re.sub. apply rebuild_every; [exact Hr |].
  apply scan_class_kept, Hp.
Qed.

(** ** The text buffer after [_get_text], [_substitute] and [_stop_list] *)

Lemma ascii_only_is_ascii raw : every is_ascii (ascii_only raw).
Proof.
  induction raw as [| c raw IH]; cbn [ascii_only every]; [trivial |].
  split; [| exact IH].
  destruct (128 <=? Char.code c)%nat eqn:E; [vm_compute; reflexivity |].
  apply Nat.leb_gt in E. apply Nat.ltb_lt. exact E.
Qed.

(** X1.  [_get_text] returns text of 7-bit characters only, whatever
    the text it is given. *)
Theorem get_text_is_ascii :
  forall v raw, every is_ascii (_get_text v raw).
Proof.
  intros v raw. unfold _get_text, Str.replace.
  apply replace_go_every; [| split; [reflexivity | exact I]].
  apply sub_every; [| split; [reflexivity | exact I]].
  apply sub_every; [| split; [reflexivity | exact I]].
  apply ascii_only_is_ascii.
Qed.

Lemma length_upper s : String.length (Str.upper s) = String.length s.
Proof. induction s as [| c s IH]; simpl; [reflexivity | rewrite IH; reflexivity]. Qed.

Lemma stop_pass_length v s :
  String.length (re.sub v stop_list " " s) <= String.length s.
Proof.
  unfold re.sub.
  assert (H2 : 2 <= re.min_len (re.prog stop_list)) by (vm_compute; lia).
  pose proof (rebuild_length v stop_list " " H2 eq_refl
                (re.adjacent_rule v) s 0 false 0 None (Nat.le_0_l _)).
  lia.
Qed.

Lemma stop_list_text v self :
  text (_stop_list v self)
  = re.sub v stop_list " " (re.sub v stop_list " " (Str.upper (text self))).
Proof. reflexivity. Qed.

Lemma stop_list_no_lower v self : every no_lower (text (_stop_list v self)).
Proof.
  rewrite stop_list_text.
  apply sub_every; [| split; [reflexivity | exact I]].
  apply sub_every; [| split; [reflexivity | exact I]].
  apply upper_no_lower.
Qed.

(** X2.  The buffer that [_stop_list] leaves holds no lower-case letter
    and is not longer than the buffer it was given. *)
Theorem stop_list_upper_and_shorter :
  forall v self,
    every no_lower (text (_stop_list v self)) /\
    String.length (text (_stop_list v self)) <= String.length (text self).
Proof.
  intros v self. split; [apply stop_list_no_lower |].
  rewrite stop_list_text, <- (length_upper (text self)).
  eapply Nat.le_trans; [apply stop_pass_length | apply stop_pass_length].
Qed.

Lemma substitute_text v self :
  text (_substitute v self)
  = fold_left (fun t rule => re.sub v (fst rule) (snd rule) t)
              substitutions (text self).
Proof.
  unfold _substitute. generalize substitutions as l. intros l.
  revert self. induction l as [| [subout subin] l IH]; intros self; simpl.
  - reflexivity.
  - rewrite IH. reflexivity.
Qed.

Lemma punctuation_classes v c :
  re.set_matches v re.no_flags false
    [re.CChar Char.dquote; re.CChar "("; re.CChar "\"; re.CChar ")";
     re.CChar "-"; re.CChar "/"; re.CChar "'"] c = false ->
  re.set_matches v re.no_flags false
    [re.CChar "."; re.CChar ","; re.CChar ";"; re.CChar ":"; re.CChar "?"] c
    = false ->
  re.set_matches v re.no_flags false [re.CChar "["; re.CChar "]"] c = false ->
  no_punctuation c.
Proof.
  unfold no_punctuation.
  destruct c as [[] [] [] [] [] [] [] []]; vm_compute; intros; congruence.
Qed.

Lemma substitute_no_punctuation v self :
  every no_punctuation (text (_substitute v self)).
Proof.
  rewrite substitute_text.
  assert (E : substitutions
              = (firstn 13 substitutions ++ skipn 13 substitutions)%list)
    by (symmetry; apply firstn_skipn).
  rewrite E, fold_left_app.
  generalize (fold_left (fun t rule => re.sub v (fst rule) (snd rule) t)
                        (firstn 13 substitutions) (text self)) as t.
  intros t. cbn [skipn substitutions fold_left fst snd].
  match goal with
  | |- every _ (re.sub v ?p15 _ (re.sub v ?p14 _ (re.sub v ?p13 _ _))) =>
      set (r13 := p13); set (r14 := p14); set (r15 := p15)
  end.
  set (t1 := re.sub v r13 " " t).
  set (t2 := re.sub v r14 " PUNCTUATION " t1).
  assert (H13 : every (fun c => re.set_matches v re.no_flags false
                         [re.CChar Char.dquote; re.CChar "("; re.CChar "\";
                          re.CChar ")"; re.CChar "-"; re.CChar "/";
                          re.CChar "'"] c = false) t1).
  { apply (sub_class_clears v r13 false _ " " t eq_refl).
    vm_compute. auto. }
  assert (H14 : every (fun c => re.set_matches v re.no_flags false
                         [re.CChar "."; re.CChar ","; re.CChar ";";
                          re.CChar ":"; re.CChar "?"] c = false) t2).
  { apply (sub_class_clears v r14 false _ " PUNCTUATION " t1 eq_refl).
    vm_compute. repeat split. }
  assert (H15 : every (fun c => re.set_matches v re.no_flags false
                         [re.CChar "["; re.CChar "]"] c = false)
                      (re.sub v r15 " " t2)).
  { apply (sub_class_clears v r15 false _ " " t2 eq_refl).
    vm_compute. auto. }
  assert (H13' : every (fun c => re.set_matches v re.no_flags false
                         [re.CChar Char.dquote; re.CChar "("; re.CChar "\";
                          re.CChar ")"; re.CChar "-"; re.CChar "/";
                          re.CChar "'"] c = false) (re.sub v r15 " " t2)).
  { apply sub_every; [| vm_compute; auto].
    apply sub_every; [exact H13 | vm_compute; repeat split]. }
  assert (H14' : every (fun c => re.set_matches v re.no_flags false
                         [re.CChar "."; re.CChar ","; re.CChar ";";
                          re.CChar ":"; re.CChar "?"] c = false)
                       (re.sub v r15 " " t2)).
  { apply sub_every; [exact H14 | vm_compute; auto]. }
  pose proof (every_and _ _ _ H13' (every_and _ _ _ H14' H15)) as H.
  eapply every_impl; [| exact H].
  intros c (A & B & C). exact (punctuation_classes v c A B C).
Qed.

(** X3.  After [_substitute] the buffer holds none of the characters
    that its last three rules replace: no quote, parenthesis,
    backslash, hyphen or slash, no sentence punctuation and no square
    bracket. *)
Theorem substitute_leaves_no_punctuation :
  forall v self, every no_punctuation (text (_substitute v self)).
Proof. intros v self. apply substitute_no_punctuation. Qed.

Lemma lstrip_every P v s : every P s -> every P (Str.lstrip v s).
Proof.
  induction s as [| c s IH]; simpl; [trivial |].
  intros [Hc Hs]. destruct (Char.isspace v c); [apply IH, Hs | split; assumption].
Qed.

Lemma rstrip_every P v s : every P s -> every P (Str.rstrip v s).
Proof.
  induction s as [| c s IH]; simpl; [trivial |].
  intros [Hc Hs]. specialize (IH Hs).
  destruct (Str.rstrip v s) as [| d r].
  - destruct (Char.isspace v c); simpl; auto.
  - split; assumption.
Qed.

Lemma append_not_empty (a : string) (c : ascii) :
  a ++ String c EmptyString <> EmptyString.
Proof. destruct a; discriminate. Qed.

Lemma split_go_tokens (P : ascii -> Prop) v s :
  every P s ->
  forall cur,
    every (fun c => P c /\ Char.isspace v c = false) cur ->
    Forall (fun t => t <> EmptyString /\
                     every (fun c => P c /\ Char.isspace v c = false) t)
           (Str.split_go v cur s).
Proof.
  induction s as [| c s IH]; intros Hs cur Hcur; simpl.
  - destruct cur; [constructor |].
    constructor; [split; [discriminate | exact Hcur] | constructor].
  - destruct Hs as [Hc Hs].
    destruct (Char.isspace v c) eqn:E.
    + destruct cur.
      * apply IH; [exact Hs | exact I].
      * constructor; [split; [discriminate | exact Hcur] |].
        apply IH; [exact Hs | exact I].
    + apply IH; [exact Hs |].
      apply every_append; [exact Hcur |]. simpl. auto.
Qed.

Lemma tokenize_clean (P : ascii -> Prop) v s :
  every P s ->
  Forall (fun t => t <> EmptyString /\
                   every (fun c => P c /\ Char.isspace v c = false) t)
         (tokenize v s).
Proof.
  intros H. unfold tokenize, Str.split, Str.strip.
  apply split_go_tokens; [| exact I].
  apply rstrip_every, lstrip_every, H.
Qed.

Lemma upper_keeps_no_punctuation s :
  every no_punctuation s -> every no_punctuation (Str.upper s).
Proof.
  apply upper_every_member.
  intros c. destruct c as [[] [] [] [] [] [] [] []]; vm_compute; trivial.
Qed.

Lemma stop_list_keeps_no_punctuation v self :
  every no_punctuation (text self) ->
  every no_punctuation (text (_stop_list v self)).
Proof.
  intros H. rewrite stop_list_text.
  apply sub_every; [| split; [reflexivity | exact I]].
  apply sub_every; [| split; [reflexivity | exact I]].
  apply upper_keeps_no_punctuation, H.
Qed.

(** X4.  When [make_vector] returns, every token of the buffer from
    which [_ngrams] built the window features is non-empty and holds no
    whitespace, no lower-case letter and none of the punctuation
    characters: the features name upper-case words and placeholders
    only. *)
Theorem tokens_are_clean :
  forall v raw accession marker self vec,
    fst (make_vector v raw accession marker self) = Return vec ->
    Forall (clean_token v)
           (tokenize v (text (snd (make_vector v raw accession marker self)))).
Proof.
  intros v raw acc mk self vec H. rewrite make_vector_begin in *.
  destruct (pipeline_return v _ vec H) as (s4 & s6 & _ & _ & T & E & _).
  rewrite E. destruct (test_mentions_vector s6) as [_ TT]. rewrite TT, T.
  apply tokenize_clean. apply every_and.
  - apply stop_list_no_lower.
  - apply stop_list_keeps_no_punctuation, substitute_no_punctuation.
Qed.

(** ** The layout of the returned sequence *)

Lemma fold_keeps_vector {A} (f : Vectorizer -> A -> Vectorizer) l :
  (forall s x, vector (f s x) = vector s) ->
  forall s, vector (fold_left f l s) = vector s.
Proof.
  intros H. induction l as [| x l IH]; intros s; simpl; [reflexivity |].
  rewrite IH. apply H.
Qed.

Lemma test_instance_vector v s : vector (_test_instance v s) = vector s.
Proof.
  unfold _test_instance. apply fold_keeps_vector.
  intros s' [pattern test]. destruct (negb _); reflexivity.
Qed.

Lemma sweep_vector v repl patterns s :
  vector (sweep v repl patterns s) = vector s.
Proof.
  unfold sweep. apply fold_keeps_vector. intros s' [subout subin]. reflexivity.
Qed.

Lemma standardize_vector v s : vector (_standardize v s) = vector s.
Proof.
  unfold _standardize, standardize_pass. rewrite !sweep_vector. reflexivity.
Qed.

Lemma substitute_vector v s : vector (_substitute v s) = vector s.
Proof.
  unfold _substitute. apply fold_keeps_vector. intros s' [subout subin]. reflexivity.
Qed.

Lemma stop_list_vector v s : vector (_stop_list v s) = vector s.
Proof. reflexivity. Qed.

(** [_positive_test] leaves the text alone and appends nothing or,
    once, the two features of a positive test. *)
Lemma positive_loop_effect v patterns s :
  text (snd (positive_loop v patterns s)) = text s /\
  (vector (snd (positive_loop v patterns s)) = vector s \/
   vector (snd (positive_loop v patterns s))
   = (vector s ++ ["post_window=POSITIVE";
                   "post_window=TEST_INSTANCE_POSITIVE"])%list).
Proof.
  induction patterns as [| [pattern test] rest IH]; simpl.
  - split; [reflexivity | left; reflexivity].
  - rewrite bind_run. cbn [get].
    destruct (negb _); [exact IH |].
    destruct (re.compile _ _); [| split; [reflexivity | left; reflexivity]].
    destruct (re.search _ _ _); [| exact IH].
    split; [reflexivity | right]. cbn. rewrite <- app_assoc. reflexivity.
Qed.

Lemma accession_step_vector v subject x :
  keeps (fun _ => True) (fun s s' => vector s' = vector s)
        (accession_step v subject x).
Proof.
  intros s _. unfold accession_step.
  destruct (re.group _ _ _); [| reflexivity].
  rewrite bind_run. cbn [get].
  destruct (re.compile _ _); reflexivity.
Qed.

Lemma other_accession_effect v s s' :
  _other_accession v s = (Return tt, s') ->
  vector s' = (vector s ++ ["OTHER_ACC_NUM_IN_TEXT"])%list.
Proof.
  unfold _other_accession. rewrite bind_run. cbn [get]. rewrite bind_run.
  pose proof (keeps_for_each (fun _ => True) (fun a b => vector b = vector a)
                (fun a => eq_refl)
                (fun a b c Hab Hbc => eq_trans Hbc Hab)
                (fun _ _ _ _ => I)
                (re.finditer v accession_pattern (text s))
                (accession_step v (text s))
                (accession_step_vector v (text s)) s I) as K.
  destruct (for_each _ _ s) as [[[] | e] s1]; [| discriminate].
  cbn [snd] in K. intros H. injection H as H. subst s'.
  cbn. rewrite K. reflexivity.
Qed.

Lemma returned_layout v s0 vec :
  vector s0 = [] ->
  fst (pipeline v s0) = Return vec ->
  exists pos grams tail,
    vec = ("CYTO_RELATED_REPORT" :: pos ++
           "OTHER_ACC_NUM_IN_TEXT" :: "INSUFFICIENT" :: grams ++
           "COUNT_TEST_INSTANCE" :: tail)%list /\
    (pos = [] \/
     pos = ["post_window=POSITIVE"; "post_window=TEST_INSTANCE_POSITIVE"]) /\
    (tail = [] \/ tail = [NO_KEYWORD_IN_TEXT]).
Proof.
  intros V0. rewrite pipeline_run.
  pose proof (positive_loop_effect v (test_patterns (_cytology_report v s0))
                                   (_cytology_report v s0)) as [_ P].
  change (positive_loop v (test_patterns (_cytology_report v s0))
                        (_cytology_report v s0))
    with (_positive_test v (_cytology_report v s0)) in P.
  destruct (_positive_test v _) as [[[] | e] s2]; [| discriminate].
  cbn [snd] in P.
  assert (P' : exists pos, vector s2 = ("CYTO_RELATED_REPORT" :: pos)%list /\
                           (pos = [] \/
                            pos = ["post_window=POSITIVE";
                                   "post_window=TEST_INSTANCE_POSITIVE"])).
  { destruct P as [P | P]; rewrite P; cbn; rewrite V0.
    - exists []. split; [reflexivity | left; reflexivity].
    - eexists. split; [reflexivity | right; reflexivity]. }
  destruct P' as (pos & V2 & Hpos).
  destruct (_other_accession v _) as [[[] | e] s4] eqn:A; [| discriminate].
  apply other_accession_effect in A.
  rewrite standardize_vector, test_instance_vector, V2 in A.
  pose proof (keeps_ngrams (fun _ => True) (frame (fun _ => True))
                (fun _ => True) (frame_refl _) (frame_trans _)
                (fun _ _ _ _ => I)
                (fun s f _ Hf => frame_append _ s f Hf)
                (fun _ _ => I) (fun _ _ => I) v
                (_stop_list v (_substitute v (_insufficient v s4))) I) as N.
  destruct (_ngrams v _) as [[[] | e] s6]; [| discriminate].
  cbn [snd] in N. destruct N as (_ & _ & _ & _ & _ & grams & V6 & _).
  rewrite stop_list_vector, substitute_vector, insufficient_vector, A in V6.
  cbn [fst]. intros H. injection H as H. subst vec.
  destruct (test_mentions_vector s6) as [VV _]. rewrite VV, V6.
  exists pos, grams.
  exists (if (Str.count "TEST_INSTANCE" (text s6) =? 0)%nat
          then [NO_KEYWORD_IN_TEXT] else []).
  split; [| split; [exact Hpos |]].
  - cbn. rewrite <- !app_assoc. reflexivity.
  - destruct (_ =? 0)%nat; [right | left]; reflexivity.
Qed.

(** X5.  Every sequence that [make_vector] returns has one layout:
    CYTO_RELATED_REPORT, then nothing or the two features of a positive
    test (once, however many patterns would match), then
    OTHER_ACC_NUM_IN_TEXT and INSUFFICIENT, then the features of the
    anchors, then COUNT_TEST_INSTANCE, then nothing or
    NO_KEYWORD_IN_TEXT. *)
Theorem make_vector_layout :
  forall v raw accession marker self vec,
    fst (make_vector v raw accession marker self) = Return vec ->
    exists pos grams tail,
      vec = ("CYTO_RELATED_REPORT" :: pos ++
             "OTHER_ACC_NUM_IN_TEXT" :: "INSUFFICIENT" :: grams ++
             "COUNT_TEST_INSTANCE" :: tail)%list /\
      (pos = [] \/
       pos = ["post_window=POSITIVE"; "post_window=TEST_INSTANCE_POSITIVE"]) /\
      (tail = [] \/ tail = [NO_KEYWORD_IN_TEXT]).
Proof.
  intros v raw acc mk self vec H. rewrite make_vector_begin in H.
  apply (returned_layout v (begin_call v raw acc mk self) vec);
    [reflexivity | exact H].
Qed.

(** ** The bounds of the window and the indexing of [_ngrams] *)

Lemma fold_max_in l : forall x, In (fold_left Z.max l x) (x :: l).
Proof.
  induction l as [| y l IH]; intros x; simpl; [left; reflexivity |].
  destruct (IH (Z.max x y)) as [H | H].
  - rewrite <- H. destruct (Z.max_spec x y) as [[_ E] | [_ E]]; rewrite E; auto.
  - right. right. exact H.
Qed.

Lemma fold_min_in l : forall x, In (fold_left Z.min l x) (x :: l).
Proof.
  induction l as [| y l IH]; intros x; simpl; [left; reflexivity |].
  destruct (IH (Z.min x y)) as [H | H].
  - rewrite <- H. destruct (Z.min_spec x y) as [[_ E] | [_ E]]; rewrite E; auto.
  - right. right. exact H.
Qed.

Lemma max_returns_member l s m s' :
  Py.max l s = (Return m, s') -> In m l /\ s' = s.
Proof.
  destruct l as [| x l]; simpl; [discriminate |].
  intros H. injection H as H1 H2. subst. split; [apply fold_max_in | reflexivity].
Qed.

Lemma min_returns_member l s m s' :
  Py.min l s = (Return m, s') -> In m l /\ s' = s.
Proof.
  destruct l as [| x l]; simpl; [discriminate |].
  intros H. injection H as H1 H2. subst. split; [apply fold_min_in | reflexivity].
Qed.

(** [_get_window] on an index of the list, with the slice and the two
    lists it takes the maximum and the minimum of written out. *)
Lemma get_window_run v tokens index s :
  (0 <= index < Py.len tokens)%Z ->
  let ws := window_start index in
  let n := (window_end tokens index - ws)%Z in
  let b0 := window_breaks tokens index in
  _get_window v tokens index s =
  bind (Py.max (map (fun i => (i + 1)%Z)
                    (filter (fun i => lt_half v i n) (b0 ++ [0%Z]))))
       (fun mx =>
          bind (Py.min (filter (fun i => gt_half v i n) (b0 ++ [n])))
               (fun mn => ret ((ws + mx)%Z, (ws + mn)%Z))) s.
Proof.
  intros Hidx ws n b0. unfold _get_window.
  fold (window_start index). fold (window_end tokens index). fold ws.
  rewrite (len_slice tokens ws (window_end tokens index))
    by (unfold ws, window_start, window_end; lia).
  fold n. unfold Py.set_last. rewrite removelast_last. reflexivity.
Qed.

Lemma half_order v a b n :
  lt_half v a n = true -> gt_half v b n = true -> (a < b)%Z.
Proof.
  unfold lt_half, gt_half. destruct v; intros H1 H2.
  - apply Z.ltb_lt in H1. apply Z.gtb_lt in H2. lia.
  - apply Z.ltb_lt in H1. apply Z.gtb_lt in H2. lia.
Qed.

Lemma window_break_bounds tokens index i :
  (0 <= index < Py.len tokens)%Z ->
  In i (window_breaks tokens index) ->
  exists t, (0 <= i < window_end tokens index - window_start index)%Z /\
            nth_error tokens (Z.to_nat (window_start index + i)) = Some t /\
            is_break t = true.
Proof.
  intros Hidx H. apply break_position; [unfold window_start; lia | exact H].
Qed.

(** What [_get_window] returns, when it returns. *)
Lemma get_window_result v tokens index s start end_ s' :
  (0 <= index < Py.len tokens)%Z ->
  _get_window v tokens index s = (Return (start, end_), s') ->
  let ws := window_start index in
  let we := window_end tokens index in
  (ws + 1 <= start <= end_)%Z /\ (end_ <= we)%Z /\
  lt_half v (start - ws - 1) (we - ws) = true /\
  gt_half v (end_ - ws) (we - ws) = true /\
  (start = (ws + 1)%Z \/
   exists t, nth_error tokens (Z.to_nat (start - 1)) = Some t /\
             is_break t = true) /\
  (end_ = we \/
   exists t, nth_error tokens (Z.to_nat end_) = Some t /\ is_break t = true).
Proof.
  intros Hidx H ws we. rewrite (get_window_run v tokens index s Hidx) in H.
  fold ws in H. fold we in H.
  set (n := (we - ws)%Z) in *.
  rewrite bind_run in H.
  destruct (Py.max _ s) as [[mx | e] s1] eqn:Emx; [| discriminate].
  apply max_returns_member in Emx. destruct Emx as [Hmx ->].
  rewrite bind_run in H.
  destruct (Py.min _ s) as [[mn | e] s2] eqn:Emn; [| discriminate].
  apply min_returns_member in Emn. destruct Emn as [Hmn ->].
  injection H as <- <- <-.
  apply in_map_iff in Hmx. destruct Hmx as (i & <- & Hi).
  apply filter_In in Hi. destruct Hi as [Hi Hlt].
  apply filter_In in Hmn. destruct Hmn as [Hmn Hgt].
  assert (Hi' : (0 <= i)%Z /\
                (i = 0%Z \/ exists t,
                    nth_error tokens (Z.to_nat (ws + i)) = Some t /\
                    is_break t = true)).
  { apply in_app_or in Hi. destruct Hi as [Hi | [<- | []]].
    - destruct (window_break_bounds tokens index i Hidx Hi) as (t & B & N & K).
      split; [lia | right; exists t; split; assumption].
    - split; [lia | left; reflexivity]. }
  assert (Hmn' : (mn <= n)%Z /\
                 (mn = n \/ exists t,
                     nth_error tokens (Z.to_nat (ws + mn)) = Some t /\
                     is_break t = true)).
  { apply in_app_or in Hmn. destruct Hmn as [Hmn | [<- | []]].
    - destruct (window_break_bounds tokens index mn Hidx Hmn) as (t & B & N & K).
      fold ws in B, N. fold we in B. fold n in B.
      split; [lia | right; exists t; split; assumption].
    - split; [lia | left; reflexivity]. }
  pose proof (half_order v i mn n Hlt Hgt) as Hord.
  destruct Hi' as [Hi0 Hib]. destruct Hmn' as [Hmn0 Hmnb].
  replace (ws + (i + 1) - ws - 1)%Z with i by lia.
  replace (ws + mn - ws)%Z with mn by lia.
  repeat split; try assumption; try lia.
  - destruct Hib as [-> | (t & N & K)]; [left; lia | right].
    exists t. replace (ws + (i + 1) - 1)%Z with (ws + i)%Z by lia.
    split; assumption.
  - destruct Hmnb as [-> | (t & N & K)]; [left; unfold n; lia | right].
    exists t. split; assumption.
Qed.

(** X6.  For an index of the token list, a window that [_get_window]
    returns lies inside the candidate window and is well formed: it
    starts after the candidate start, does not end before it starts and
    ends at the candidate end at the latest.  The token before its
    start is a boundary token unless the start is the default, and the
    token at its end is a boundary token unless the end is the
    candidate end. *)
Theorem get_window_bounds :
  forall v tokens index self start end_,
    (0 <= index < Py.len tokens)%Z ->
    fst (_get_window v tokens index self) = Return (start, end_) ->
    (window_start index + 1 <= start <= end_)%Z /\
    (end_ <= window_end tokens index <= Py.len tokens)%Z /\
    (start = (window_start index + 1)%Z \/
     exists t, nth_error tokens (Z.to_nat (start - 1)) = Some t /\
               is_break t = true) /\
    (end_ = window_end tokens index \/
     exists t, nth_error tokens (Z.to_nat end_) = Some t /\ is_break t = true).
Proof.
  intros v tokens index self start end_ Hidx H.
  destruct (_get_window v tokens index self) as [o s'] eqn:E.
  cbn [fst] in H. subst o.
  destruct (get_window_result v tokens index self start end_ s' Hidx E)
    as (A & B & _ & _ & C & D).
  repeat split; try assumption; try lia.
  unfold window_end. lia.
Qed.

Lemma window_size tokens index :
  (0 <= index < Py.len tokens)%Z ->
  (1 <= window_end tokens index - window_start index)%Z /\
  ((2 <= Py.len tokens)%Z ->
   (2 <= window_end tokens index - window_start index)%Z).
Proof. unfold window_start, window_end. lia. Qed.

Lemma lt_half_zero v n :
  (1 <= n)%Z -> v = Py3 \/ (2 <= n)%Z -> lt_half v 0 n = true.
Proof.
  intros H1 Hv. unfold lt_half. destruct v.
  - destruct Hv as [Hv | Hv]; [discriminate |].
    apply Z.ltb_lt. apply Z.div_str_pos. lia.
  - apply Z.ltb_lt. lia.
Qed.

Lemma gt_half_all v n : (1 <= n)%Z -> gt_half v n n = true.
Proof.
  intros H. unfold gt_half. destruct v; apply Z.gtb_lt.
  - assert (n / 2 < n)%Z by (apply Z.div_lt; lia). lia.
  - lia.
Qed.

Lemma get_window_returns v tokens index s :
  (0 <= index < Py.len tokens)%Z ->
  v = Py3 \/ (2 <= Py.len tokens)%Z ->
  exists start end_,
    _get_window v tokens index s = (Return (start, end_), s).
Proof.
  intros Hidx Hv. rewrite (get_window_run v tokens index s Hidx).
  destruct (window_size tokens index Hidx) as [H1 H2].
  set (n := (window_end tokens index - window_start index)%Z) in *.
  assert (Hlt : lt_half v 0 n = true).
  { apply lt_half_zero; [exact H1 |]. destruct Hv; [left | right]; auto. }
  rewrite !filter_app. cbn [filter]. rewrite Hlt, (gt_half_all v n H1).
  rewrite map_app. cbn [map].
  destruct (max_of_app (map (fun i => (i + 1)%Z)
                            (filter (fun i => lt_half v i n)
                                    (window_breaks tokens index)))
                       (0 + 1)%Z s) as (mx & Emx & _).
  destruct (min_of_app (filter (fun i => gt_half v i n)
                               (window_breaks tokens index)) n s)
    as (mn & Emn & _).
  exists (window_start index + mx)%Z, (window_start index + mn)%Z.
  rewrite bind_run, Emx, bind_run, Emn. reflexivity.
Qed.

(** X7.  For an anchor with ten tokens or more before it and nine or
    more after it, [_get_window] returns a window that holds the
    anchor, of at most nine tokens before it and nine after it. *)
Theorem anchor_inside_full_window :
  forall v tokens index self,
    (10 <= index)%Z -> (index + 10 <= Py.len tokens)%Z ->
    exists start end_,
      fst (_get_window v tokens index self) = Return (start, end_) /\
      (index - 9 <= start <= index)%Z /\
      (index < end_ <= index + 10)%Z.
Proof.
  intros v tokens index self Hlo Hhi.
  assert (Hidx : (0 <= index < Py.len tokens)%Z) by lia.
  destruct (get_window_returns v tokens index self Hidx) as (start & end_ & E);
    [right; lia |].
  exists start, end_. rewrite E. split; [reflexivity |].
  destruct (get_window_result v tokens index self start end_ self Hidx E)
    as (A & B & Hlt & Hgt & _).
  assert (Ews : window_start index = (index - 10)%Z)
    by (unfold window_start; lia).
  assert (Ewe : window_end tokens index = (index + 10)%Z)
    by (unfold window_end; lia).
  rewrite Ews, Ewe in *.
  replace (index + 10 - (index - 10))%Z with 20%Z in * by lia.
  assert (start - (index - 10) - 1 < 10)%Z.
  { unfold lt_half in Hlt. destruct v; apply Z.ltb_lt in Hlt.
    - change (20 / 2)%Z with 10%Z in Hlt. exact Hlt.
    - lia. }
  assert (10 < end_ - (index - 10))%Z.
  { unfold gt_half in Hgt. destruct v; apply Z.gtb_lt in Hgt.
    - change (20 / 2)%Z with 10%Z in Hgt. exact Hgt.
    - lia. }
  lia.
Qed.

(** ** [_ngrams] indexes inside the token list *)

Lemma returns_ret {A} (Q : A -> Prop) (a : A) : Q a -> returns Q (ret a).
Proof. intros H s. exists a, s. split; [reflexivity | exact H]. Qed.

Lemma returns_bind {A B} (Q : A -> Prop) (Q' : B -> Prop)
      (c : M A) (k : A -> M B) :
  returns Q c -> (forall a, Q a -> returns Q' (k a)) ->
  returns Q' (bind c k).
Proof.
  intros Hc Hk s. destruct (Hc s) as (a & s1 & E & Ha).
  rewrite bind_run, E. apply Hk. exact Ha.
Qed.

Lemma returns_get {B} (Q : B -> Prop) (k : Vectorizer -> M B) :
  (forall a, returns Q (k a)) -> returns Q (bind get k).
Proof. intros Hk s. rewrite bind_run. cbn [get]. apply Hk. Qed.

Lemma returns_append f : returns (fun _ => True) (append f).
Proof. intros s. eexists. eexists. split; [reflexivity | exact I]. Qed.

Lemma returns_weaken {A} (Q Q' : A -> Prop) (c : M A) :
  (forall a, Q a -> Q' a) -> returns Q c -> returns Q' c.
Proof.
  intros H Hc s. destruct (Hc s) as (a & s' & E & Ha).
  exists a, s'. split; [exact E | apply H, Ha].
Qed.

Lemma returns_for_each {A} (l : list A) (body : A -> M unit) :
  (forall x, In x l -> returns (fun _ => True) (body x)) ->
  returns (fun _ => True) (for_each l body).
Proof.
  induction l as [| x l IH]; intros H; simpl.
  - apply returns_ret. exact I.
  - apply returns_bind with (Q := fun _ => True).
    + apply H. left. reflexivity.
    + intros _ _. apply IH. intros y Hy. apply H. right. exact Hy.
Qed.

Lemma returns_getitem (l : list string) (i : Z) :
  (- Py.len l <= i < Py.len l)%Z ->
  returns (fun _ => True) (Py.getitem l i).
Proof.
  intros Hi s. unfold Py.getitem.
  set (j := (if (i <? 0)%Z then (i + Py.len l)%Z else i)).
  assert (Hj : (0 <= j < Py.len l)%Z).
  { unfold j. destruct (i <? 0)%Z eqn:E;
      [apply Z.ltb_lt in E | apply Z.ltb_ge in E]; lia. }
  destruct (j <? 0)%Z eqn:E; [apply Z.ltb_lt in E; lia |].
  destruct (nth_error l (Z.to_nat j)) as [x |] eqn:N.
  - exists x, s. split; [reflexivity | exact I].
  - apply nth_error_None in N. unfold Py.len in Hj. lia.
Qed.

Lemma returns_section_loop l prev :
  returns (fun _ => True) (section_loop prev l).
Proof.
  revert prev. induction l as [| curr l IH]; intros prev; simpl.
  - apply returns_ret. exact I.
  - destruct (String.eqb curr "_SECTION_"); [apply returns_append | apply IH].
Qed.

Lemma in_range a b i : In i (Py.range a b) -> (a <= i < b)%Z.
Proof.
  unfold Py.range. intros H. apply in_map_iff in H.
  destruct H as (k & <- & Hk). apply in_seq in Hk. lia.
Qed.

Lemma in_offsets (j : Z) : In j [1; 2; 3]%Z -> (1 <= j <= 3)%Z.
Proof. simpl. intros [H | [H | [H | []]]]; lia. Qed.

Lemma returns_get_window v tokens index :
  (0 <= index < Py.len tokens)%Z ->
  v = Py3 \/ (2 <= Py.len tokens)%Z ->
  returns (fun w => (1 <= fst w <= snd w)%Z /\ (snd w <= Py.len tokens)%Z)
          (_get_window v tokens index).
Proof.
  intros Hidx Hv s.
  destruct (get_window_returns v tokens index s Hidx Hv) as (start & end_ & E).
  exists (start, end_), s. split; [exact E |].
  destruct (get_window_result v tokens index s start end_ s Hidx E)
    as (A & B & _).
  cbn [fst snd]. unfold window_start, window_end in *. lia.
Qed.

Lemma returns_ngrams_at v tokens index :
  (0 <= index < Py.len tokens)%Z ->
  v = Py3 \/ (2 <= Py.len tokens)%Z ->
  returns (fun _ => True) (ngrams_at v tokens index).
Proof.
  intros Hidx Hv. unfold ngrams_at.
  apply returns_get; intros self.
  apply returns_bind with (Q := fun _ => True); [apply returns_append |].
  intros ? _.
  apply returns_bind with (Q := fun _ => True);
    [apply returns_section_loop |].
  intros ? _.
  eapply returns_bind; [apply returns_get_window; assumption |].
  intros [start end_] [Hs He]. cbn [fst snd] in Hs, He.
  apply returns_bind with (Q := fun _ => True).
  { destruct ((index >? 0)%Z && (index >? start)%Z) eqn:C;
      [| apply returns_ret; exact I].
    apply andb_prop in C. destruct C as [C _]. apply Z.gtb_lt in C.
    apply returns_bind with (Q := fun _ => True);
      [apply returns_getitem; lia | intros; apply returns_append]. }
  intros ? _.
  apply returns_bind with (Q := fun _ => True).
  { apply returns_for_each. intros i Hi.
    apply in_rev, in_range in Hi.
    apply returns_bind with (Q := fun _ => True);
      [apply returns_getitem; lia | intros ? _].
    apply returns_bind with (Q := fun _ => True);
      [apply returns_append | intros ? _].
    apply returns_for_each. intros j Hj. apply in_offsets in Hj.
    destruct (index - j >? start)%Z eqn:C; [| apply returns_ret; exact I].
    apply Z.gtb_lt in C.
    apply returns_bind with (Q := fun _ => True);
      [apply returns_getitem; lia | intros ? _].
    apply returns_bind with (Q := fun _ => True);
      [apply returns_getitem; lia | intros; apply returns_append]. }
  intros ? _.
  apply returns_bind with (Q := fun _ => True).
  { destruct ((index <? Py.len tokens - 1)%Z && (index <? end_ - 1)%Z) eqn:C;
      [| apply returns_ret; exact I].
    apply andb_prop in C. destruct C as [C _]. apply Z.ltb_lt in C.
    apply returns_bind with (Q := fun _ => True);
      [apply returns_getitem; lia | intros; apply returns_append]. }
  intros ? _.
  apply returns_for_each. intros i Hi. apply in_range in Hi.
  apply returns_bind with (Q := fun _ => True);
    [apply returns_getitem; lia | intros ? _].
  apply returns_bind with (Q := fun _ => True);
    [apply returns_append | intros ? _].
  apply returns_for_each. intros j Hj. apply in_offsets in Hj.
  destruct (i <? end_ - j)%Z eqn:C; [| apply returns_ret; exact I].
  apply Z.ltb_lt in C.
  apply returns_bind with (Q := fun _ => True);
    [apply returns_getitem; lia | intros ? _].
  apply returns_bind with (Q := fun _ => True);
    [apply returns_getitem; lia | intros; apply returns_append].
Qed.

Lemma enumerate_index {A} (l : list A) (i : Z) (t : A) :
  In (i, t) (Py.enumerate l) ->
  (0 <= i < Py.len l)%Z /\ nth_error l (Z.to_nat i) = Some t.
Proof.
  intros H. apply in_enumerate in H. destruct H as [H0 Hn].
  split; [| exact Hn]. split; [exact H0 |].
  assert (Z.to_nat i < List.length l)%nat
    by (apply nth_error_Some; rewrite Hn; discriminate).
  unfold Py.len. lia.
Qed.

Lemma ngrams_returns_unless_lone_anchor v self :
  v = Py3 \/ tokenize v (text self) <> ["TEST_INSTANCE"] ->
  fst (_ngrams v self) = Return tt.
Proof.
  intros Hv. unfold _ngrams. rewrite bind_run. cbn [get].
  set (tokens := tokenize v (text self)) in *.
  assert (R : returns (fun _ => True)
                (for_each (Py.enumerate tokens)
                   (fun '(index, token) =>
                      if negb (String.eqb token "TEST_INSTANCE") then ret tt
                      else ngrams_at v tokens index))).
  { apply returns_for_each. intros [index token] Hin.
    destruct (String.eqb token "TEST_INSTANCE") eqn:E; cbn [negb];
      [| apply returns_ret; exact I].
    apply String.eqb_eq in E. subst token.
    apply enumerate_index in Hin. destruct Hin as [Hidx Hn].
    apply returns_ngrams_at; [exact Hidx |].
    destruct Hv as [Hv | Hv]; [left; exact Hv | right].
    destruct tokens as [| t0 [| t1 rest]].
    - unfold Py.len in Hidx. simpl in Hidx. lia.
    - exfalso. apply Hv. unfold Py.len in Hidx. simpl in Hidx.
      assert (index = 0%Z) by lia. subst index. simpl in Hn.
      injection Hn as ->. reflexivity.
    - unfold Py.len. simpl. lia. }
  destruct (R self) as ([] & s' & E & _). rewrite E. reflexivity.
Qed.

(** X8.  [_ngrams] never indexes outside the token list.  It returns
    for every buffer, save one case: under Python 2, when the buffer is
    the single token TEST_INSTANCE, it raises. *)
Theorem ngrams_returns_iff :
  forall v self,
    fst (_ngrams v self) = Return tt <->
    (v = Py3 \/ tokenize v (text self) <> ["TEST_INSTANCE"]).
Proof.
  intros v self. split; [| apply ngrams_returns_unless_lone_anchor].
  intros H. destruct v; [right | left; reflexivity].
  intros E. rewrite (ngrams_lone_anchor self E) in H. discriminate.
Qed.

(** ** The section of an anchor *)

Lemma section_after_last next l t :
  section_after next (l ++ [t]) =
  if String.eqb t "_SECTION_" then Some next else section_after t l.
Proof.
  induction l as [| a l IH]; simpl.
  - destruct (String.eqb t "_SECTION_"); reflexivity.
  - rewrite IH. destruct (String.eqb t "_SECTION_"); [reflexivity |].
    destruct (section_after t l); [reflexivity |].
    destruct (String.eqb a "_SECTION_"); [| reflexivity].
    destruct l; reflexivity.
Qed.

Lemma section_loop_run l :
  forall prev s,
    section_loop prev (rev l) s =
    (Return tt,
     match section_after prev l with
     | Some name => vector_append s ("SECTION=" ++ name)
     | None => s
     end).
Proof.
  induction l as [| t l IH] using rev_ind; intros prev s.
  - reflexivity.
  - rewrite rev_app_distr, section_after_last. simpl.
    destruct (String.eqb t "_SECTION_"); [reflexivity | apply IH].
Qed.

(** X9.  [_add_section] appends at most one feature: SECTION= followed
    by the token that comes right after the last _SECTION_ token before
    the anchor (nothing after the equals sign when the anchor itself
    comes right after it); with no _SECTION_ token before the anchor it
    appends nothing.  It never raises. *)
Theorem add_section_names_next_token :
  forall tokens index self,
    _add_section tokens index self =
    (Return tt,
     match section_after "" (firstn (Z.to_nat index) tokens) with
     | Some name => vector_append self ("SECTION=" ++ name)
     | None => self
     end).
Proof.
  intros tokens index self. unfold _add_section, Py.slice.
  rewrite Z.sub_0_r. simpl skipn. apply section_loop_run.
Qed.

(** ** What the constructor compiles *)

Lemma compile_source fl s p :
  re.compile fl s = Some p -> re.source p = s /\ re.pflags p = fl.
Proof.
  unfold re.compile. destruct (re.parse s); [| discriminate].
  intros H. injection H as <-. split; reflexivity.
Qed.

Lemma compile_patterns_instance dict uppercase pre post :
  _compile_patterns dict uppercase pre post
  = _compile_patterns_with re.compile dict uppercase pre post.
Proof.
  assert (F : forall subin frags,
             compile_fragments subin uppercase pre post frags
             = compile_fragments_with re.compile subin uppercase pre post frags).
  { intros subin frags. induction frags as [| frag frags IH];
      cbn [compile_fragments compile_fragments_with];
      [reflexivity | rewrite IH; reflexivity]. }
  induction dict as [| [subin frags] dict IH];
    cbn [_compile_patterns _compile_patterns_with];
    [reflexivity | rewrite F, IH; reflexivity].
Qed.

Section CompilerShape.

Variable P : Type.
Variable compile : re.flags -> string -> option P.

Lemma compile_fragments_shape subin uppercase pre post frags :
  match compile_fragments_with compile subin uppercase pre post frags with
  | Some l =>
      List.length l = (if uppercase then 2 else 1) * List.length frags /\
      Forall (fun pl =>
                snd pl = subin /\
                exists frag,
                  In frag frags /\
                  compiled_from compile uppercase pre post frag (fst pl)) l
  | None => exists frag, In frag frags /\
                         refused compile uppercase pre post frag
  end.
Proof.
  unfold compiled_from, refused.
  induction frags as [| frag frags IH]; cbn [compile_fragments_with].
  - split; [destruct uppercase; reflexivity | constructor].
  - destruct (compile (re.Flags true false)
                      (pre ++ "(" ++ frag ++ ")" ++ post))
      as [p1 |] eqn:E1;
      [| exists frag; split; [left; reflexivity | left; exact E1]].
    assert (U : uppercase = true ->
                compile (re.Flags true false)
                        (pre ++ "(" ++ Str.upper frag ++ ")" ++ post) = None ->
                exists f, (frag = f \/ In f frags) /\
                          (compile (re.Flags true false)
                                   (pre ++ "(" ++ f ++ ")" ++ post) = None \/
                           uppercase = true /\
                           compile (re.Flags true false)
                                   (pre ++ "(" ++ Str.upper f ++ ")" ++ post)
                           = None)).
    { intros Hu E2. exists frag.
      split; [left; reflexivity | right; split; assumption]. }
    destruct (compile_fragments_with compile subin uppercase pre post frags)
      as [rest |].
    + destruct IH as [Len All].
      assert (All' : Forall (fun pl =>
                snd pl = subin /\
                exists f,
                  (frag = f \/ In f frags) /\
                  (compile (re.Flags true false)
                           (pre ++ "(" ++ f ++ ")" ++ post) = Some (fst pl) \/
                   uppercase = true /\
                   compile (re.Flags true false)
                           (pre ++ "(" ++ Str.upper f ++ ")" ++ post)
                   = Some (fst pl))) rest).
      { eapply Forall_impl; [| exact All].
        intros pl (B & f & Hf & C). split; [exact B |].
        exists f. split; [right; exact Hf | exact C]. }
      destruct uppercase.
      * destruct (compile (re.Flags true false)
                          (pre ++ "(" ++ Str.upper frag ++ ")" ++ post))
          as [p2 |] eqn:E2; [| exact (U eq_refl eq_refl)].
        split; [cbn [List.length app]; rewrite Len; cbn [List.length]; lia |].
        constructor.
        { split; [reflexivity |]. exists frag.
          split; [left; reflexivity | left; exact E1]. }
        constructor; [| exact All'].
        split; [reflexivity |]. exists frag.
        split; [left; reflexivity | right; split; [reflexivity | exact E2]].
      * split; [cbn [List.length app]; rewrite Len; cbn [List.length]; lia |].
        constructor; [| exact All'].
        split; [reflexivity |]. exists frag.
        split; [left; reflexivity | left; exact E1].
    + destruct IH as (f & Hf & R).
      assert (R' : exists f0, (frag = f0 \/ In f0 frags) /\
                   (compile (re.Flags true false)
                            (pre ++ "(" ++ f0 ++ ")" ++ post) = None \/
                    uppercase = true /\
                    compile (re.Flags true false)
                            (pre ++ "(" ++ Str.upper f0 ++ ")" ++ post) = None))
        by (exists f; split; [right; exact Hf | exact R]).
      destruct uppercase; [| exact R'].
      destruct (compile (re.Flags true false)
                        (pre ++ "(" ++ Str.upper frag ++ ")" ++ post));
        exact R'.
Qed.

Lemma compile_patterns_shape_all dict uppercase pre post :
  match _compile_patterns_with compile dict uppercase pre post with
  | Some l =>
      List.length l = (if uppercase then 2 else 1) * fragments dict /\
      Forall (fun pl =>
                exists subin frags frag,
                  In (subin, frags) dict /\ In frag frags /\
                  snd pl = Str.replace newline_mark newline subin /\
                  compiled_from compile uppercase pre post frag (fst pl)) l
  | None =>
      exists subin frags frag,
        In (subin, frags) dict /\ In frag frags /\
        refused compile uppercase pre post frag
  end.
Proof.
  unfold fragments.
  induction dict as [| [subin frags] dict IH];
    cbn [_compile_patterns_with map snd concat].
  - split; [destruct uppercase; reflexivity | constructor].
  - pose proof (compile_fragments_shape
                  (Str.replace newline_mark newline subin)
                  uppercase pre post frags) as Fa.
    destruct (compile_fragments_with compile _ uppercase pre post frags)
      as [a |].
    + destruct (_compile_patterns_with compile dict uppercase pre post)
        as [b |].
      * destruct Fa as [La Fa]. destruct IH as [Lb Fb]. split.
        -- rewrite !length_app, La, Lb. destruct uppercase; lia.
        -- apply Forall_app. split.
           ++ eapply Forall_impl; [| exact Fa].
              intros pl (B & frag & Hf & C).
              exists subin, frags, frag.
              split; [left; reflexivity |]. split; [exact Hf |].
              split; [exact B | exact C].
           ++ eapply Forall_impl; [| exact Fb].
              intros pl (si & fr & frag & Hd & Hf & B & C).
              exists si, fr, frag. split; [right; exact Hd |].
              split; [exact Hf |]. split; [exact B | exact C].
      * destruct IH as (si & fr & frag & Hd & Hf & R).
        exists si, fr, frag. split; [right; exact Hd |].
        split; [exact Hf | exact R].
    + destruct Fa as (frag & Hf & R). exists subin, frags, frag.
      split; [left; reflexivity |]. split; [exact Hf | exact R].
Qed.

End CompilerShape.

(** X10.  Whatever compiler of regular expressions [_compile_patterns]
    runs on, and whatever the pattern file holds: when it returns, the
    list has one pattern for every fragment of the file, or two with
    [uppercase] set, and each is what the compiler gives, with
    MULTILINE, for a fragment of the file (or its upper-case form) in a
    group between the two guards, under the label of that fragment with
    its newline marks replaced; it fails only where the compiler refuses
    what is built from a fragment of the file. *)
Theorem compile_patterns_shape :
  forall (P : Type) (compile : re.flags -> string -> option P)
         dict uppercase pre post,
    match _compile_patterns_with compile dict uppercase pre post with
    | Some l =>
        List.length l = (if uppercase then 2 else 1) * fragments dict /\
        Forall (fun pl =>
                  exists subin frags frag,
                    In (subin, frags) dict /\ In frag frags /\
                    snd pl = Str.replace newline_mark newline subin /\
                    compiled_from compile uppercase pre post frag (fst pl)) l
    | None =>
        exists subin frags frag,
          In (subin, frags) dict /\ In frag frags /\
          refused compile uppercase pre post frag
    end.
Proof.
  intros P compile dict uppercase pre post.
  apply compile_patterns_shape_all.
Qed.

Lemma append_assoc (a b c : string) : (a ++ b) ++ c = a ++ b ++ c.
Proof. induction a as [| x a IH]; simpl; [reflexivity | rewrite IH; reflexivity]. Qed.



Lemma init_test_patterns condensed other_kw section self :
  __init__ condensed other_kw section = Some self ->
  _compile_patterns_with re.compile condensed true "[\W\^]" "[\W$]"
  = Some (test_patterns self).
Proof.
  unfold __init__.
  rewrite <- (compile_patterns_instance condensed true "[\W\^]" "[\W$]").
  destruct (_compile_patterns condensed true "[\W\^]" "[\W$]") as [t |];
    [| discriminate].
  destruct (_compile_patterns other_kw false _ _); [| discriminate].
  destruct (_compile_patterns section true _ _); [| discriminate].
  intros H. injection H as <-. reflexivity.
Qed.



(** ** A marker without patterns, a buffer without anchor *)

Lemma positive_loop_skips v patterns s :
  (forall p t, In (p, t) patterns -> t <> marker s) ->
  positive_loop v patterns s = (Return tt, s).
Proof.
  induction patterns as [| [pattern test] rest IH]; intros H; simpl.
  - reflexivity.
  - rewrite bind_run. cbn [get].
    destruct (String.eqb test (marker s)) eqn:E.
    + apply String.eqb_eq in E. exfalso.
      exact (H pattern test (or_introl eq_refl) E).
    + cbn [negb]. apply IH. intros p t Hin. apply (H p t). right. exact Hin.
Qed.

Lemma test_instance_skips v patterns :
  forall s,
    (forall p t, In (p, t) patterns -> t <> marker s) ->
    fold_left
      (fun self '(pattern, test) =>
         if negb (String.eqb test (marker self)) then self
         else set_text self (re.sub v pattern " TEST_INSTANCE " (text self)))
      patterns s = s.
Proof.
  induction patterns as [| [pattern test] rest IH]; intros s H; simpl.
  - reflexivity.
  - destruct (String.eqb test (marker s)) eqn:E.
    + apply String.eqb_eq in E. exfalso.
      exact (H pattern test (or_introl eq_refl) E).
    + cbn [negb]. apply IH. intros p t Hin. apply (H p t). right. exact Hin.
Qed.

(** X12.  For a marker that labels no test pattern, [_positive_test]
    and [_test_instance] leave the state as it is: no feature of a
    positive test is appended and no mention becomes an anchor. *)
Theorem marker_without_patterns :
  forall v self,
    (forall p t, In (p, t) (test_patterns self) -> t <> marker self) ->
    _positive_test v self = (Return tt, self) /\
    _test_instance v self = self.
Proof.
  intros v self H. split.
  - unfold _positive_test. rewrite bind_run. cbn [get].
    apply positive_loop_skips, H.
  - apply test_instance_skips, H.
Qed.

Lemma for_each_skip {A} (l : list A) (body : A -> M unit) s :
  (forall x, In x l -> body x s = (Return tt, s)) ->
  for_each l body s = (Return tt, s).
Proof.
  induction l as [| x l IH]; intros H; simpl; [reflexivity |].
  rewrite bind_run, (H x (or_introl eq_refl)).
  apply IH. intros y Hy. apply H. right. exact Hy.
Qed.

Lemma ngrams_without_anchor v self :
  ~ In "TEST_INSTANCE" (tokenize v (text self)) ->
  _ngrams v self = (Return tt, self).
Proof.
  intros H. unfold _ngrams. rewrite bind_run. cbn [get].
  apply for_each_skip. intros [index token] Hin.
  destruct (String.eqb token "TEST_INSTANCE") eqn:E; [| reflexivity].
  apply String.eqb_eq in E. subst token. exfalso. apply H.
  apply in_enumerate in Hin. destruct Hin as [_ Hn].
  eapply nth_error_In. exact Hn.
Qed.

Lemma occurs_in_suffix t a s : occurs t s -> occurs t (a ++ s).
Proof.
  intros (x & y & ->). exists (a ++ x), y. symmetry. apply append_assoc.
Qed.

Lemma occurs_in_prefix t s b : occurs t s -> occurs t (s ++ b).
Proof.
  intros (x & y & ->). exists x, (y ++ b).
  rewrite !append_assoc. reflexivity.
Qed.

Lemma append_empty_r (a : string) : a ++ "" = a.
Proof. induction a as [| c a IH]; simpl; [reflexivity | rewrite IH; reflexivity]. Qed.

Lemma split_go_occurs v t s :
  forall cur, In t (Str.split_go v cur s) -> occurs t (cur ++ s).
Proof.
  induction s as [| c s IH]; intros cur; simpl.
  - destruct cur as [| d cur']; [contradiction |].
    intros [<- | []]. exists "", "". rewrite append_empty_r. reflexivity.
  - destruct (Char.isspace v c).
    + destruct cur as [| d cur'].
      * intros H. apply IH in H. simpl in H.
        apply (occurs_in_suffix t (String c "") s) in H. exact H.
      * intros [<- | H].
        -- exists "", (String c s). reflexivity.
        -- apply IH in H. simpl in H.
           apply (occurs_in_suffix t (String d cur' ++ String c "") s) in H.
           rewrite append_assoc in H. exact H.
    + intros H. apply IH in H. rewrite append_assoc in H. exact H.
Qed.

Lemma lstrip_suffix v s : exists a, s = a ++ Str.lstrip v s.
Proof.
  induction s as [| c s [a IH]]; simpl.
  - exists "". reflexivity.
  - destruct (Char.isspace v c).
    + exists (String c a). simpl. rewrite <- IH. reflexivity.
    + exists "". reflexivity.
Qed.

Lemma rstrip_prefix v s : exists b, s = Str.rstrip v s ++ b.
Proof.
  induction s as [| c s [b IH]]; simpl.
  - exists "". reflexivity.
  - destruct (Str.rstrip v s) as [| d r].
    + destruct (Char.isspace v c).
      * exists (String c s). reflexivity.
      * exists s. reflexivity.
    + exists b. simpl in *. rewrite <- IH. reflexivity.
Qed.

Lemma token_occurs v t s : In t (tokenize v s) -> occurs t s.
Proof.
  unfold tokenize, Str.split, Str.strip. intros H.
  apply split_go_occurs in H. simpl in H.
  destruct (rstrip_prefix v (Str.lstrip v s)) as [b Eb].
  destruct (lstrip_suffix v s) as [a Ea].
  rewrite Ea. apply occurs_in_suffix. rewrite Eb. apply occurs_in_prefix.
  exact H.
Qed.

Lemma starts_with_append sub b : Str.starts_with sub (sub ++ b) = true.
Proof.
  induction sub as [| c sub IH]; simpl; [reflexivity |].
  rewrite Ascii.eqb_refl. exact IH.
Qed.

Lemma count_occurs sub s :
  sub <> "" -> occurs sub s -> 1 <= Str.count sub s.
Proof.
  intros Hsub (a & b & ->). unfold Str.count.
  induction a as [| c a IH].
  - simpl. destruct sub as [| d sub']; [contradiction |].
    simpl. rewrite Ascii.eqb_refl, starts_with_append. simpl. lia.
  - cbn [String.append Str.count_go].
    destruct (Str.starts_with sub (String c (a ++ sub ++ b))); [lia | exact IH].
Qed.

(** A buffer in which TEST_INSTANCE does not occur has no anchor
    token. *)
Lemma no_count_no_anchor v s :
  Str.count "TEST_INSTANCE" s = 0 -> ~ In "TEST_INSTANCE" (tokenize v s).
Proof.
  intros C H. apply token_occurs in H.
  apply count_occurs in H; [lia | discriminate].
Qed.

Lemma returned_without_anchor v s0 vec :
  vector s0 = [] ->
  fst (pipeline v s0) = Return vec ->
  Str.count "TEST_INSTANCE" (text (snd (pipeline v s0))) = 0 ->
  exists pos,
    vec = ("CYTO_RELATED_REPORT" :: pos ++
           ["OTHER_ACC_NUM_IN_TEXT"; "INSUFFICIENT";
            "COUNT_TEST_INSTANCE"; NO_KEYWORD_IN_TEXT])%list /\
    (pos = [] \/
     pos = ["post_window=POSITIVE"; "post_window=TEST_INSTANCE_POSITIVE"]).
Proof.
  intros V0. rewrite pipeline_run.
  pose proof (positive_loop_effect v (test_patterns (_cytology_report v s0))
                                   (_cytology_report v s0)) as [_ P].
  change (positive_loop v (test_patterns (_cytology_report v s0))
                        (_cytology_report v s0))
    with (_positive_test v (_cytology_report v s0)) in P.
  destruct (_positive_test v _) as [[[] | e] s2]; [| discriminate].
  cbn [snd] in P.
  assert (P' : exists pos, vector s2 = ("CYTO_RELATED_REPORT" :: pos)%list /\
                           (pos = [] \/
                            pos = ["post_window=POSITIVE";
                                   "post_window=TEST_INSTANCE_POSITIVE"])).
  { destruct P as [P | P]; rewrite P; cbn; rewrite V0.
    - exists []. split; [reflexivity | left; reflexivity].
    - eexists. split; [reflexivity | right; reflexivity]. }
  destruct P' as (pos & V2 & Hpos).
  destruct (_other_accession v _) as [[[] | e] s4] eqn:A; [| discriminate].
  apply other_accession_effect in A.
  rewrite standardize_vector, test_instance_vector, V2 in A.
  set (s5 := _stop_list v (_substitute v (_insufficient v s4))).
  pose proof (ngrams_keeps_text v s5) as T.
  destruct (_ngrams v s5) as [[[] | e] s6] eqn:N; [| discriminate].
  cbn [fst snd] in *. intros H C. injection H as H. subst vec.
  destruct (test_mentions_vector s6) as [VV TT]. rewrite TT in C.
  rewrite VV, C. cbn [Nat.eqb].
  assert (E6 : s6 = s5).
  { rewrite T in C. apply (no_count_no_anchor v) in C.
    rewrite (ngrams_without_anchor v s5 C) in N. injection N as N.
    symmetry. exact N. }
  rewrite E6. unfold s5.
  rewrite stop_list_vector, substitute_vector, insufficient_vector, A.
  exists pos. split; [| exact Hpos].
  cbn. rewrite <- !app_assoc. reflexivity.
Qed.

(** X13.  When [make_vector] returns and TEST_INSTANCE does not occur
    in the final buffer, the sequence holds the fixed features only:
    neither the marker nor any window or section feature is in it. *)
Theorem make_vector_without_anchor :
  forall v raw accession marker self vec,
    fst (make_vector v raw accession marker self) = Return vec ->
    Str.count "TEST_INSTANCE"
              (text (snd (make_vector v raw accession marker self))) = 0 ->
    exists pos,
      vec = ("CYTO_RELATED_REPORT" :: pos ++
             ["OTHER_ACC_NUM_IN_TEXT"; "INSUFFICIENT";
              "COUNT_TEST_INSTANCE"; NO_KEYWORD_IN_TEXT])%list /\
      (pos = [] \/
       pos = ["post_window=POSITIVE"; "post_window=TEST_INSTANCE_POSITIVE"]).
Proof.
  intros v raw acc mk self vec H C. rewrite make_vector_begin in *.
  apply (returned_without_anchor v (begin_call v raw acc mk self) vec);
    [reflexivity | exact H | exact C].
Qed.

(** ** The classifier *)

Lemma dict_get_set_same {V} (d : list (string * V)) k x :
  Dict.get (Dict.set d k x) k = Some x.
Proof.
  induction d as [| [k' y] d IH]; simpl.
  - rewrite String.eqb_refl. reflexivity.
  - destruct (String.eqb k k') eqn:E; simpl; rewrite E; [reflexivity | exact IH].
Qed.

Lemma dict_get_set_other {V} (d : list (string * V)) k k' x :
  k' <> k -> Dict.get (Dict.set d k x) k' = Dict.get d k'.
Proof.
  intros Hk. induction d as [| [k0 y] d IH]; simpl.
  - destruct (String.eqb k' k) eqn:E; [| reflexivity].
    apply String.eqb_eq in E. contradiction.
  - destruct (String.eqb k k0) eqn:E; simpl.
    + apply String.eqb_eq in E. subst k0.
      destruct (String.eqb k' k) eqn:E'; [| reflexivity].
      apply String.eqb_eq in E'. contradiction.
    + rewrite IH. reflexivity.
Qed.

Lemma read_features_well_sized lines :
  forall model, well_sized model ->
                well_sized (GenTestClassifier.read_features lines model).
Proof.
  unfold GenTestClassifier.read_features.
  induction lines as [| [feature index] lines IH]; intros model H; simpl.
  - exact H.
  - apply IH. intros f j. simpl.
    destruct (String.eqb f feature) eqn:E.
    + apply String.eqb_eq in E. subst f. rewrite dict_get_set_same.
      intros G. injection G as <-. lia.
    + rewrite dict_get_set_other
        by (intros ->; rewrite String.eqb_refl in E; discriminate).
      intros G. apply H in G. lia.
Qed.

Lemma init_models_well_sized model_dir :
  forall algorithms,
    (forall a m, Dict.get algorithms a = Some m -> well_sized m) ->
    forall a m,
      Dict.get
        (fold_left
           (fun algorithms '(algorithm, (lines, trained)) =>
              Dict.set algorithms algorithm
                (GenTestClassifier.read_features
                   lines (GenTestClassifier.mkModel trained [] 0)))
           model_dir algorithms) a = Some m ->
      well_sized m.
Proof.
  induction model_dir as [| [algorithm [lines trained]] dir IH];
    intros algorithms H a m; simpl.
  - apply H.
  - apply IH. intros a' m'.
    destruct (String.eqb a' algorithm) eqn:E.
    + apply String.eqb_eq in E. subst a'. rewrite dict_get_set_same.
      intros G. injection G as <-.
      apply read_features_well_sized. intros f j G. discriminate G.
    + rewrite dict_get_set_other
        by (intros ->; rewrite String.eqb_refl in E; discriminate).
      apply H.
Qed.

Lemma set_one_spec row :
  forall j,
    match GenTestClassifier.set_one row j with
    | Ok row' =>
        j < List.length row /\ List.length row' = List.length row /\
        forall k, nth_error row' k
                  = option_map (fun b => b || (j =? k)%nat) (nth_error row k)
    | Err e => e = MatrixIndexError /\ List.length row <= j
    end.
Proof.
  induction row as [| b row IH]; intros j; simpl.
  - split; [reflexivity | lia].
  - destruct j as [| j'].
    + split; [lia |]. split; [reflexivity |].
      intros [| k]; simpl; [rewrite orb_true_r; reflexivity |].
      destruct (nth_error row k); simpl; [rewrite orb_false_r |]; reflexivity.
    + specialize (IH j'). destruct (GenTestClassifier.set_one row j').
      * destruct IH as (L & Len & N). split; [lia |].
        split; [simpl; rewrite Len; reflexivity |].
        intros [| k]; simpl; [rewrite orb_false_r; reflexivity | apply N].
      * destruct IH as [-> L]. split; [reflexivity | lia].
Qed.

(** The row that the loop over the features leaves. *)
Lemma fill_spec mapping vector :
  forall row,
    match GenTestClassifier.fill mapping row vector with
    | Ok row' =>
        overflows mapping (List.length row) vector = false /\
        List.length row' = List.length row /\
        forall k, nth_error row' k
                  = option_map (fun b => b || marks mapping vector k)
                               (nth_error row k)
    | Err e =>
        e = MatrixIndexError /\
        overflows mapping (List.length row) vector = true
    end.
Proof.
  unfold overflows, marks.
  induction vector as [| f rest IH]; intros row; simpl.
  - split; [reflexivity |]. split; [reflexivity |].
    intros k. destruct (nth_error row k); simpl; [rewrite orb_false_r |];
      reflexivity.
  - destruct (Dict.get mapping f) as [j |].
    + pose proof (set_one_spec row j) as S.
      destruct (GenTestClassifier.set_one row j) as [row1 | e].
      * destruct S as (Lj & Len1 & N1). specialize (IH row1).
        destruct (GenTestClassifier.fill mapping row1 rest) as [row' | e].
        -- destruct IH as (O & Len & N). rewrite Len1 in O, Len.
           split; [| split; [exact Len |]].
           ++ rewrite O. apply Nat.leb_gt in Lj. rewrite Lj. reflexivity.
           ++ intros k. rewrite N, N1.
              destruct (nth_error row k); simpl; [| reflexivity].
              rewrite orb_assoc. reflexivity.
        -- destruct IH as [-> O]. rewrite Len1 in O.
           split; [reflexivity |]. rewrite O. apply orb_true_r.
      * destruct S as [-> L]. split; [reflexivity |].
        apply Nat.leb_le in L. rewrite L. reflexivity.
    + exact (IH row).
Qed.

Lemma existsb_same_members {A} (f : A -> bool) (l1 l2 : list A) :
  (forall x, In x l1 <-> In x l2) -> existsb f l1 = existsb f l2.
Proof.
  intros H.
  destruct (existsb f l1) eqn:E1; destruct (existsb f l2) eqn:E2;
    try reflexivity.
  - apply existsb_exists in E1. destruct E1 as (x & Hx & Fx).
    assert (existsb f l2 = true)
      by (apply existsb_exists; exists x; split; [apply H, Hx | exact Fx]).
    congruence.
  - apply existsb_exists in E2. destruct E2 as (x & Hx & Fx).
    assert (existsb f l1 = true)
      by (apply existsb_exists; exists x; split; [apply H, Hx | exact Fx]).
    congruence.
Qed.

Lemma fill_same_members mapping row v1 v2 :
  (forall f, In f v1 <-> In f v2) ->
  GenTestClassifier.fill mapping row v1 = GenTestClassifier.fill mapping row v2.
Proof.
  intros H.
  pose proof (fill_spec mapping v1 row) as S1.
  pose proof (fill_spec mapping v2 row) as S2.
  assert (EO : overflows mapping (List.length row) v1
               = overflows mapping (List.length row) v2)
    by (apply existsb_same_members, H).
  assert (EM : forall k, marks mapping v1 k = marks mapping v2 k)
    by (intros k; apply existsb_same_members, H).
  destruct (GenTestClassifier.fill mapping row v1) as [r1 | e1];
    destruct (GenTestClassifier.fill mapping row v2) as [r2 | e2].
  - f_equal. apply nth_error_ext. intros k.
    destruct S1 as (_ & _ & N1). destruct S2 as (_ & _ & N2).
    rewrite N1, N2. destruct (nth_error row k); simpl; [| reflexivity].
    rewrite EM. reflexivity.
  - destruct S1 as [O1 _]. destruct S2 as [_ O2]. congruence.
  - destruct S1 as [_ O1]. destruct S2 as [O2 _]. congruence.
  - destruct S1 as [-> _]. destruct S2 as [-> _]. reflexivity.
Qed.

Lemma classify_one_same_members algorithms algorithm v1 v2 :
  (forall f, In f v1 <-> In f v2) ->
  GenTestClassifier._classify algorithms algorithm v1
  = GenTestClassifier._classify algorithms algorithm v2.
Proof.
  intros H. unfold GenTestClassifier._classify.
  destruct (Dict.get algorithms algorithm); [| reflexivity].
  rewrite (fill_same_members _ _ v1 v2 H). reflexivity.
Qed.

(** X14.  The classifier reads a feature sequence as a set: two
    sequences with the same features, in whatever order and however
    often repeated, are classified alike (and fail alike). *)
Theorem classify_reads_a_set :
  forall algorithms v1 v2,
    (forall f, In f v1 <-> In f v2) ->
    GenTestClassifier.classify algorithms v1
    = GenTestClassifier.classify algorithms v2.
Proof.
  intros algorithms v1 v2 H. unfold GenTestClassifier.classify.
  rewrite (existsb_same_members _ v1 v2 H).
  rewrite !(classify_one_same_members algorithms _ v1 v2 H).
  reflexivity.
Qed.

Lemma classify_one_no_index_error model_dir algorithm vector :
  GenTestClassifier._classify (GenTestClassifier.__init__ model_dir)
                              algorithm vector
  <> Err MatrixIndexError.
Proof.
  unfold GenTestClassifier._classify, GenTestClassifier.__init__.
  destruct (Dict.get _ algorithm) as [model |] eqn:G; [| discriminate].
  apply init_models_well_sized in G; [| intros a m G'; discriminate G'].
  pose proof (fill_spec (GenTestClassifier.mapping model) vector
                (repeat false (GenTestClassifier.num_features model))) as S.
  destruct (GenTestClassifier.fill _ _ vector) as [row | e].
  - unfold GenTestClassifier._translate_output.
    destruct (String.eqb algorithm "method");
      [generalize GenTestClassifier.method_mapping
      | generalize GenTestClassifier.result_mapping];
      intros d; induction d as [| [k x] d IH]; simpl; try discriminate;
      destruct (Z.eqb _ k); [discriminate | exact IH | discriminate | exact IH].
  - exfalso. destruct S as [_ O]. unfold overflows in O.
    apply existsb_exists in O. destruct O as (f & _ & Hf).
    destruct (Dict.get (GenTestClassifier.mapping model) f) as [j |] eqn:Gf;
      [| discriminate].
    apply G in Gf. rewrite repeat_length in Hf. apply Nat.leb_le in Hf. lia.
Qed.

(** X15.  A classifier built by [__init__] never writes outside its
    matrix: every index read from [features.txt] is below
    [num_features], so neither [_classify] nor [classify] fails with an
    index error, whatever the features. *)
Theorem loaded_classifier_stays_in_matrix :
  forall model_dir algorithm vector,
    GenTestClassifier._classify (GenTestClassifier.__init__ model_dir)
                                algorithm vector
    <> Err MatrixIndexError /\
    GenTestClassifier.classify (GenTestClassifier.__init__ model_dir) vector
    <> Err MatrixIndexError.
Proof.
  intros model_dir algorithm vector.
  split; [apply classify_one_no_index_error |].
  unfold GenTestClassifier.classify.
  destruct (existsb _ vector); [discriminate |].
  pose proof (classify_one_no_index_error model_dir "svm_reported" vector).
  pose proof (classify_one_no_index_error model_dir "positive" vector).
  pose proof (classify_one_no_index_error model_dir "method" vector).
  destruct (GenTestClassifier._classify _ "svm_reported" vector) as [l | e];
    [| congruence].
  destruct (negb _); [discriminate |].
  destruct (GenTestClassifier._classify _ "positive" vector) as [x | e];
    [| congruence].
  destruct (GenTestClassifier._classify _ "method" vector) as [m | e];
    [discriminate | congruence].
Qed.

Lemma translate_output_label is_method output label :
  GenTestClassifier._translate_output is_method output = Ok label ->
  In label (map snd (if is_method then GenTestClassifier.method_mapping
                     else GenTestClassifier.result_mapping)).
Proof.
  unfold GenTestClassifier._translate_output.
  destruct is_method;
    [generalize GenTestClassifier.method_mapping
    | generalize GenTestClassifier.result_mapping];
    intros d; induction d as [| [k x] d IH]; simpl; try discriminate;
    destruct (Z.eqb output k); intros H;
    solve [injection H as ->; left; reflexivity | right; exact (IH H)].
Qed.

Lemma classify_one_label algorithms algorithm vector label :
  GenTestClassifier._classify algorithms algorithm vector = Ok label ->
  In label (map snd (if String.eqb algorithm "method"
                     then GenTestClassifier.method_mapping
                     else GenTestClassifier.result_mapping)).
Proof.
  unfold GenTestClassifier._classify.
  destruct (Dict.get algorithms algorithm) as [model |]; [| discriminate].
  destruct (GenTestClassifier.fill _ _ vector) as [row | e]; [| discriminate].
  apply translate_output_label.
Qed.

(** X16.  What [classify] returns is either the triple Not Reported,
    N/A, N/A, or Results Reported with a label of the result table and
    a label of the method table; the second happens only for a sequence
    without the sentinel that the reported-model maps to Reported. *)
Theorem classify_labels :
  forall algorithms vector reported result_ method,
    GenTestClassifier.classify algorithms vector
    = Ok (reported, result_, method) ->
    (reported, result_, method) = ("Not Reported", "N/A", "N/A") \/
    (reported = "Results Reported" /\
     ~ In "NO_KEYWORD_IN_TEXT" vector /\
     GenTestClassifier._classify algorithms "svm_reported" vector
     = Ok "Reported" /\
     In result_ (map snd GenTestClassifier.result_mapping) /\
     In method (map snd GenTestClassifier.method_mapping)).
Proof.
  intros algorithms vector reported result_ method.
  unfold GenTestClassifier.classify.
  destruct (existsb _ vector) eqn:S.
  - intros H. injection H as <- <- <-. left. reflexivity.
  - destruct (GenTestClassifier._classify _ "svm_reported" vector)
      as [label | e] eqn:R; [| discriminate].
    destruct (String.eqb label "Reported") eqn:L; cbn [negb].
    + apply String.eqb_eq in L. subst label.
      destruct (GenTestClassifier._classify _ "positive" vector)
        as [x |] eqn:P; [| discriminate].
      destruct (GenTestClassifier._classify _ "method" vector)
        as [m |] eqn:Me; [| discriminate].
      intros H. injection H as <- <- <-. right.
      split; [reflexivity |]. split.
      * intros I.
        assert (existsb (String.eqb "NO_KEYWORD_IN_TEXT") vector = true)
          by (apply existsb_exists; eexists; split;
              [exact I | apply String.eqb_refl]).
        congruence.
      * split; [reflexivity |]. split.
        -- exact (classify_one_label _ _ _ _ P).
        -- exact (classify_one_label _ _ _ _ Me).
    + intros H. injection H as <- <- <-. left. reflexivity.
Qed.

(** X17.  The two steps agree on the sentinel: when [make_vector]
    returns for a buffer without TEST_INSTANCE, [classify] answers
    Not Reported, N/A, N/A on that sequence without consulting a model,
    whatever the models are (also none). *)
Theorem no_anchor_is_not_reported :
  forall v raw accession marker self vec algorithms,
    fst (make_vector v raw accession marker self) = Return vec ->
    Str.count "TEST_INSTANCE"
              (text (snd (make_vector v raw accession marker self))) = 0 ->
    GenTestClassifier.classify algorithms vec
    = Ok ("Not Reported", "N/A", "N/A").
Proof.
  intros v raw acc mk self vec algorithms H C.
  rewrite make_vector_begin in *.
  destruct (returned_without_anchor v (begin_call v raw acc mk self) vec
              eq_refl H C) as (pos & -> & [-> | ->]);
    reflexivity.
Qed.

(** ** The driver *)

Lemma resolve_rule cases_ case marker_ record result_ method d st :
  Dict.get cases_ case = Some d ->
  Dict.get d marker_ = Some st ->
  run.resolve cases_ case marker_ record result_ method
  = inr (if decides marker_ result_ method
         then Dict.set cases_ case (Dict.set d marker_ (result_, record))
         else cases_).
Proof.
  intros G1 G2. unfold run.resolve, decides, run.getitem2, run.setitem2.
  rewrite G1, G2. cbn [run.and_then run.py_eq run.as_object].
  destruct (String.eqb result_ "Positive") eqn:P.
  - apply String.eqb_eq in P. subst result_.
    destruct (String.eqb marker_ "ALK" || String.eqb method "Mutational Analysis").
    + cbn [run.and_then]. rewrite !dict_get_set_same.
      reflexivity.
    + cbn [run.and_then]. rewrite ?G1, ?G2. reflexivity.
  - cbn [run.and_then orb]. rewrite ?G1, ?G2. cbn [run.py_eq run.as_object].
    destruct (String.eqb result_ "Negative"); [| reflexivity].
    destruct (String.eqb marker_ "ALK" || String.eqb method "Mutational Analysis");
      reflexivity.
Qed.

(** X18.  The status tests of [process_row] keep no first positive: a
    status is a pair, which equals neither 'Positive' nor 'Negative', so
    the two [continue] are never taken, and a positive or negative
    result for ALK, or by mutational analysis, replaces whatever status
    the case has, a positive one too; any other result leaves the cases
    as they are. *)
Theorem last_result_decides :
  forall cases_ case marker_ record result_ method d st,
    Dict.get cases_ case = Some d ->
    Dict.get d marker_ = Some st ->
    run.resolve cases_ case marker_ record result_ method
    = inr (if decides marker_ result_ method
           then Dict.set cases_ case (Dict.set d marker_ (result_, record))
           else cases_).
Proof.
  intros. apply (resolve_rule _ _ _ _ _ _ d st); assumption.
Qed.

Lemma dict_get_set {V} (d : list (string * V)) k k' x :
  Dict.get (Dict.set d k x) k'
  = if String.eqb k' k then Some x else Dict.get d k'.
Proof.
  destruct (String.eqb k' k) eqn:E.
  - apply String.eqb_eq in E. subst k'. apply dict_get_set_same.
  - apply dict_get_set_other. intros ->. rewrite String.eqb_refl in E.
    discriminate.
Qed.

Lemma setdefaults_other cases_ case marker_ c :
  c <> case ->
  Dict.get (run.setdefaults cases_ case marker_) c = Dict.get cases_ c.
Proof.
  intros N. unfold run.setdefaults, Dict.setdefault.
  destruct (Dict.get cases_ case) as [d |];
    [destruct (Dict.get d marker_) | cbn [Dict.get]];
    rewrite !dict_get_set_other by exact N; reflexivity.
Qed.

Lemma setdefaults_has cases_ case marker_ :
  has (run.setdefaults cases_ case marker_) case marker_.
Proof.
  unfold has, run.setdefaults, Dict.setdefault.
  destruct (Dict.get cases_ case) as [d |].
  - destruct (Dict.get d marker_) as [st |] eqn:G.
    + exists d, st. rewrite dict_get_set_same. split; [reflexivity | exact G].
    + eexists _, _. rewrite dict_get_set_same. split; [reflexivity |].
      apply dict_get_set_same.
  - cbn [Dict.get]. eexists _, _. rewrite dict_get_set_same.
    split; [reflexivity |]. apply dict_get_set_same.
Qed.

Lemma set_keeps_has cases_ case marker_ d st x c m :
  Dict.get cases_ case = Some d ->
  Dict.get d marker_ = Some st ->
  has cases_ c m ->
  has (Dict.set cases_ case (Dict.set d marker_ x)) c m.
Proof.
  intros G1 G2 (d' & st' & H1 & H2). unfold has.
  rewrite dict_get_set. destruct (String.eqb c case) eqn:E.
  - apply String.eqb_eq in E. subst c. rewrite G1 in H1. injection H1 as <-.
    destruct (String.eqb m marker_) eqn:E'.
    + eexists _, x. split; [reflexivity |]. rewrite dict_get_set, E'.
      reflexivity.
    + eexists _, st'. split; [reflexivity |]. rewrite dict_get_set, E'.
      exact H2.
  - exists d', st'. split; assumption.
Qed.

Lemma setdefaults_keeps_has cases_ case marker_ c m :
  has cases_ c m -> has (run.setdefaults cases_ case marker_) c m.
Proof.
  intros (d' & st' & H1 & H2). unfold run.setdefaults, Dict.setdefault.
  destruct (Dict.get cases_ case) as [d |] eqn:G.
  - destruct (Dict.get d marker_) as [st |] eqn:G'.
    + unfold has. rewrite dict_get_set. destruct (String.eqb c case) eqn:E.
      * apply String.eqb_eq in E. subst c. rewrite G in H1.
        injection H1 as <-. exists d, st'. split; [reflexivity | exact H2].
      * exists d', st'. split; assumption.
    + unfold has. rewrite dict_get_set. destruct (String.eqb c case) eqn:E.
      * apply String.eqb_eq in E. subst c. rewrite G in H1.
        injection H1 as <-. eexists _, st'. split; [reflexivity |].
        rewrite dict_get_set. destruct (String.eqb m marker_) eqn:E'.
        -- apply String.eqb_eq in E'. subst m. congruence.
        -- exact H2.
      * exists d', st'. split; assumption.
  - cbn [Dict.get]. unfold has. rewrite !dict_get_set.
    destruct (String.eqb c case) eqn:E.
    + apply String.eqb_eq in E. subst c. congruence.
    + exists d', st'. split; assumption.
Qed.

Lemma resolve_effect cases_ case marker_ record result_ method :
  has cases_ case marker_ ->
  exists cases',
    run.resolve cases_ case marker_ record result_ method = inr cases' /\
    (forall c m, has cases_ c m -> has cases' c m) /\
    (forall c, c <> case -> Dict.get cases' c = Dict.get cases_ c).
Proof.
  intros (d & st & G1 & G2).
  rewrite (resolve_rule _ _ _ record result_ method d st G1 G2).
  eexists. split; [reflexivity |].
  destruct (decides marker_ result_ method).
  - split.
    + intros c m. apply (set_keeps_has _ _ _ d st); assumption.
    + intros c N. apply dict_get_set_other. exact N.
  - split; [intros c m H; exact H | reflexivity].
Qed.

Lemma for_markers_effect v classifier text_ accession_ record case markers :
  forall w,
    match run.for_markers v classifier text_ accession_ record case markers w with
    | inr w' =>
        (forall m, In m markers -> has (run.cases w') case m) /\
        (forall c m, has (run.cases w) c m -> has (run.cases w') c m) /\
        (forall c, c <> case ->
                   Dict.get (run.cases w') c = Dict.get (run.cases w) c)
    | inl h => h <> run.CasesKeyError
    end.
Proof.
  induction markers as [| marker_ rest IH]; intros w; cbn [run.for_markers].
  - split; [intros m [] |]. split; [intros c m H; exact H | reflexivity].
  - destruct (make_vector v text_ accession_ marker_ (run.vectorizer w))
      as [[vector_ | e] vz]; [| discriminate].
    destruct (GenTestClassifier.classify classifier vector_)
      as [[[reported result_] method] | e]; [| discriminate].
    destruct (resolve_effect (run.setdefaults (run.cases w) case marker_)
                             case marker_ record result_ method
                             (setdefaults_has _ _ _))
      as (cases2 & -> & K & O).
    cbn [run.and_then].
    match goal with
    | |- match run.for_markers _ _ _ _ _ _ _ ?w1 with _ => _ end =>
        specialize (IH w1);
        destruct (run.for_markers v classifier text_ accession_ record case
                                  rest w1) as [h | w']
    end; [exact IH |].
    cbn [run.cases] in IH. destruct IH as (I1 & I2 & I3).
    split; [| split].
    + intros m [<- | I]; [| exact (I1 m I)].
      apply I2, K, setdefaults_has.
    + intros c m H. apply I2, K, setdefaults_keeps_has, H.
    + intros c N. rewrite (I3 c N), (O c N). apply setdefaults_other, N.
Qed.

Lemma field_halt headers row field h :
  run.and_then (run.get headers field) (run.item row) = inl h ->
  h <> run.CasesKeyError.
Proof.
  unfold run.and_then, run.get, run.item.
  destruct (run.index headers field) as [i |];
    [destruct (nth_error row i) |]; intros E; inversion E; discriminate.
Qed.

Lemma pop_halt headers row field h :
  run.and_then (run.get headers field) (run.pop row) = inl h ->
  h <> run.CasesKeyError.
Proof.
  unfold run.and_then, run.get, run.pop.
  destruct (run.index headers field) as [i |];
    [destruct (nth_error row i) |]; intros E; inversion E; discriminate.
Qed.

Lemma process_row_effect v classifier headers row w :
  match run.process_row v classifier headers row w with
  | inr w' =>
      (complete (run.cases w) -> complete (run.cases w')) /\
      forall patient tumor,
        run.and_then (run.get headers run.PAT) (run.item row) = inr patient ->
        run.and_then (run.get headers run.TUMOR) (run.item row) = inr tumor ->
        (forall m, In m run.MARKERS ->
                   has (run.cases w') (patient ++ "_" ++ tumor) m) /\
        (forall c, c <> patient ++ "_" ++ tumor ->
                   Dict.get (run.cases w') c = Dict.get (run.cases w) c)
  | inl h => h <> run.CasesKeyError
  end.
Proof.
  unfold run.process_row.
  destruct (run.and_then (run.get headers run.ACC) (run.item row))
    as [h | accession_] eqn:EA; [exact (field_halt _ _ _ _ EA) |].
  destruct (run.and_then (run.get headers run.TUMOR) (run.item row))
    as [h | tumor] eqn:ET; [exact (field_halt _ _ _ _ ET) |].
  destruct (run.and_then (run.get headers run.REC) (run.item row))
    as [h | record] eqn:ER; [exact (field_halt _ _ _ _ ER) |].
  destruct (run.and_then (run.get headers run.PAT) (run.item row))
    as [h | patient] eqn:EP; [exact (field_halt _ _ _ _ EP) |].
  destruct (run.and_then (run.get headers run.TEXT) (run.pop row))
    as [h | [text_ row1]] eqn:EX; [exact (pop_halt _ _ _ _ EX) |].
  unfold run.pt_subset, run.rd_subset, run.skip_set.
  cbn [run.and_then List.length Nat.eqb negb andb].
  match goal with
  | |- match run.and_then (run.for_markers _ _ _ _ _ ?case _ ?w0) _
       with _ => _ end =>
      pose proof (for_markers_effect v classifier text_ accession_ record
                                     case run.MARKERS w0) as F;
      destruct (run.for_markers v classifier text_ accession_ record
                                case run.MARKERS w0) as [h | w1]
  end; [exact F |].
  cbn [run.and_then run.cases] in *. destruct F as (F1 & F2 & F3).
  split.
  - intros C c d G m I.
    destruct (String.eqb c (patient ++ "_" ++ tumor)) eqn:E.
    + apply String.eqb_eq in E. subst c.
      destruct (F1 m I) as (d' & st & G1 & G2). rewrite G in G1.
      injection G1 as <-. rewrite G2. discriminate.
    + assert (N : c <> patient ++ "_" ++ tumor)
        by (intros ->; rewrite String.eqb_refl in E; discriminate).
      rewrite (F3 c N) in G. exact (C c d G m I).
  - intros patient' tumor' HP HT.
    injection HP as <-. injection HT as <-. split; [exact F1 | exact F3].
Qed.

Lemma for_rows_complete v classifier headers rows :
  forall w w',
    complete (run.cases w) ->
    run.for_rows v classifier headers rows w = inr w' ->
    complete (run.cases w').
Proof.
  induction rows as [| row rest IH]; intros w w' C; cbn [run.for_rows].
  - intros H. injection H as <-. exact C.
  - destruct (negb _); [discriminate |].
    pose proof (process_row_effect v classifier headers row w) as P.
    destruct (run.process_row v classifier headers row w) as [h | w1];
      [discriminate |].
    cbn [run.and_then]. apply IH, P, C.
Qed.

Lemma process_records_complete v classifier vectorizer_ input cases_ out :
  run.process_records v classifier vectorizer_ input = inr (cases_, out) ->
  complete cases_.
Proof.
  unfold run.process_records. destruct input as [| headers rows];
    [discriminate |].
  destruct (run.get headers run.TEXT) as [h | i]; [discriminate |].
  cbn [run.and_then].
  match goal with
  | |- run.and_then (run.for_rows _ _ _ _ ?w0) _ = _ -> _ =>
      pose proof (for_rows_complete v classifier headers rows w0) as F;
      destruct (run.for_rows v classifier headers rows w0) as [h | w1]
  end; [discriminate |].
  cbn [run.and_then]. intros H. injection H as <- _.
  apply (F w1); [| reflexivity].
  intros c d G. discriminate G.
Qed.

Lemma in_insert_key k x l : In x (run.insert_key k l) -> x = k \/ In x l.
Proof.
  induction l as [| y l IH]; cbn [run.insert_key].
  - intros [<- | []]. left. reflexivity.
  - destruct (String.leb k y).
    + intros [<- | I]; [left; reflexivity | right; exact I].
    + intros [<- | I]; [right; left; reflexivity |].
      destruct (IH I) as [-> | I']; [left; reflexivity | right; right; exact I'].
Qed.

Lemma in_sorted x l : In x (run.sorted l) -> In x l.
Proof.
  unfold run.sorted. induction l as [| k l IH]; cbn [fold_right].
  - intros [].
  - intros I. destruct (in_insert_key _ _ _ I) as [-> | I'];
      [left; reflexivity | right; exact (IH I')].
Qed.

Lemma key_is_bound {V} (d : list (string * V)) k :
  In k (map fst d) -> exists x, Dict.get d k = Some x.
Proof.
  induction d as [| [k' x] d IH]; cbn [map fst Dict.get In].
  - intros [].
  - destruct (String.eqb k k') eqn:E; [intros _; exists x; reflexivity |].
    intros [-> | I]; [rewrite String.eqb_refl in E; discriminate | exact (IH I)].
Qed.

Lemma case_line_returns cases_ case markers :
  (forall m, In m markers -> has cases_ case m) ->
  exists l, run.case_line cases_ case markers = inr l.
Proof.
  induction markers as [| m rest IH]; intros H; cbn [run.case_line].
  - eexists. reflexivity.
  - destruct (H m (or_introl eq_refl)) as (d & st & G1 & G2).
    unfold run.getitem2. rewrite G1, G2. cbn [run.and_then].
    destruct IH as [l ->]; [intros m' I; apply H; right; exact I |].
    eexists. reflexivity.
Qed.

Lemma case_lines_returns cases_ keys :
  (forall k m, In k keys -> In m run.MARKERS -> has cases_ k m) ->
  exists ls, run.case_lines cases_ keys = inr ls.
Proof.
  induction keys as [| k rest IH]; intros H; cbn [run.case_lines].
  - eexists. reflexivity.
  - destruct (case_line_returns cases_ k run.MARKERS) as [l ->];
      [intros m I; apply H; [left; reflexivity | exact I] |].
    cbn [run.and_then].
    destruct IH as [ls ->]; [intros k' m I I'; apply H; [right |]; assumption |].
    eexists. reflexivity.
Qed.

Lemma process_patients_returns cases_ :
  complete cases_ -> exists lines, run.process_patients cases_ = inr lines.
Proof.
  intros C. unfold run.process_patients.
  destruct (case_lines_returns cases_ (run.sorted (map fst cases_)))
    as [ls ->]; [| eexists; reflexivity].
  intros k m I Im. apply in_sorted, key_is_bound in I. destruct I as [d G].
  pose proof (C k d G m Im) as N.
  destruct (Dict.get d m) as [st |] eqn:G'; [| contradiction].
  exists d, st. split; assumption.
Qed.

(** X19.  [process_row] never fails on a missing case or marker, and
    when it returns, cases that held a status for every marker still do;
    the case of the row, patient ID and tumor joined by [_], then holds
    a status for EGFR and for ALK, and no other case is touched. *)
Theorem process_row_keeps_cases_complete :
  forall v classifier headers row w,
    run.process_row v classifier headers row w <> inl run.CasesKeyError /\
    forall w',
      run.process_row v classifier headers row w = inr w' ->
      (complete (run.cases w) -> complete (run.cases w')) /\
      forall patient tumor,
        run.and_then (run.get headers run.PAT) (run.item row) = inr patient ->
        run.and_then (run.get headers run.TUMOR) (run.item row) = inr tumor ->
        (has (run.cases w') (patient ++ "_" ++ tumor) "EGFR" /\
         has (run.cases w') (patient ++ "_" ++ tumor) "ALK") /\
        (forall c, c <> patient ++ "_" ++ tumor ->
                   Dict.get (run.cases w') c = Dict.get (run.cases w) c).
Proof.
  intros v classifier headers row w.
  pose proof (process_row_effect v classifier headers row w) as P.
  destruct (run.process_row v classifier headers row w) as [h | w1].
  - split; [intros E; injection E as ->; apply P; reflexivity |].
    intros w' E. discriminate E.
  - split; [discriminate |]. intros w' E. injection E as <-.
    destruct P as [C R]. split; [exact C |].
    intros patient tumor HP HT. destruct (R patient tumor HP HT) as [M O].
    split; [| exact O].
    split; apply M; cbn; auto.
Qed.

(** X20.  Whatever cases [process_records] returns, [process_patients]
    writes its file for them: every case holds a status for both
    markers, so no lookup of [cases[case][marker]] fails. *)
Theorem records_then_patients :
  forall v classifier vectorizer_ input cases_ out,
    run.process_records v classifier vectorizer_ input = inr (cases_, out) ->
    complete cases_ /\
    exists lines, run.process_patients cases_ = inr lines.
Proof.
  intros v classifier vectorizer_ input cases_ out H.
  apply process_records_complete in H.
  split; [exact H | apply process_patients_returns, H].
Qed.

(** ** The properties on the small tables *)

Lemma tokens_are_clean_witness :
  Forall (clean_token Py2)
         (tokenize Py2
            (text (snd (make_vector
                          Py2 " EGFR mutation testing: negative. (S17-1111) "
                          "S17-1111" "EGFR" demo)))).
Proof.
  eapply (tokens_are_clean
            Py2 " EGFR mutation testing: negative. (S17-1111) "
            "S17-1111" "EGFR" demo).
  vm_compute. reflexivity.
Defined.

Lemma make_vector_layout_witness :
  exists vec pos grams tail,
    fst (make_vector Py2 " EGFR mutation testing: negative. (S17-1111) "
                     "S17-1111" "EGFR" demo) = Return vec /\
    vec = ("CYTO_RELATED_REPORT" :: pos ++
           "OTHER_ACC_NUM_IN_TEXT" :: "INSUFFICIENT" :: grams ++
           "COUNT_TEST_INSTANCE" :: tail)%list /\
    (pos = [] \/
     pos = ["post_window=POSITIVE"; "post_window=TEST_INSTANCE_POSITIVE"]) /\
    (tail = [] \/ tail = [NO_KEYWORD_IN_TEXT]).
Proof.
  eexists.
  assert (H : fst (make_vector
                     Py2 " EGFR mutation testing: negative. (S17-1111) "
                     "S17-1111" "EGFR" demo) = Return _)
    by (vm_compute; reflexivity).
  destruct (make_vector_layout _ _ _ _ _ _ H) as (pos & grams & tail & L).
  exists pos, grams, tail. split; [exact H | exact L].
Defined.

Lemma get_window_bounds_witness :
  (window_start 1 + 1 <= 1 <= 3)%Z /\
  (3 <= window_end ["X"; "TEST_INSTANCE"; "Y"] 1
   <= Py.len ["X"; "TEST_INSTANCE"; "Y"])%Z /\
  ((1 = window_start 1 + 1)%Z \/
   exists t, nth_error ["X"; "TEST_INSTANCE"; "Y"] (Z.to_nat (1 - 1)) = Some t /\
             is_break t = true) /\
  ((3 = window_end ["X"; "TEST_INSTANCE"; "Y"] 1)%Z \/
   exists t, nth_error ["X"; "TEST_INSTANCE"; "Y"] (Z.to_nat 3) = Some t /\
             is_break t = true).
Proof.
  apply (get_window_bounds Py2 ["X"; "TEST_INSTANCE"; "Y"] 1 demo 1 3).
  - vm_compute. split; [discriminate | reflexivity].
  - vm_compute. reflexivity.
Defined.

Lemma anchor_inside_full_window_witness :
  exists start end_,
    fst (_get_window Py2
           (repeat "A" 10 ++ "TEST_INSTANCE" :: repeat "B" 10)%list 10 demo)
    = Return (start, end_) /\
    (10 - 9 <= start <= 10)%Z /\
    (10 < end_ <= 10 + 10)%Z.
Proof.
  apply (anchor_inside_full_window
           Py2 (repeat "A" 10 ++ "TEST_INSTANCE" :: repeat "B" 10)%list
           10 demo).
  - vm_compute. discriminate.
  - vm_compute. discriminate.
Defined.


Lemma marker_without_patterns_witness :
  _positive_test Py2 (begin_call Py2 " kras + " "S17-1111" "KRAS" demo)
  = (Return tt, begin_call Py2 " kras + " "S17-1111" "KRAS" demo) /\
  _test_instance Py2 (begin_call Py2 " kras + " "S17-1111" "KRAS" demo)
  = begin_call Py2 " kras + " "S17-1111" "KRAS" demo.
Proof.
  apply (marker_without_patterns
           Py2 (begin_call Py2 " kras + " "S17-1111" "KRAS" demo)).
  intros p t I.
  assert (F : forallb (fun pl : re.pattern * string =>
                         negb (String.eqb (snd pl) "KRAS"))
                      (test_patterns
                         (begin_call Py2 " kras + " "S17-1111" "KRAS" demo))
              = true)
    by (vm_compute; reflexivity).
  pose proof (proj1 (forallb_forall _ _) F (p, t) I) as N.
  cbn [snd] in N. intros ->. vm_compute in N. discriminate N.
Defined.

Lemma make_vector_without_anchor_witness :
  exists vec pos,
    fst (make_vector Py2 "no result in this report" "S17-2222" "EGFR" demo)
    = Return vec /\
    vec = ("CYTO_RELATED_REPORT" :: pos ++
           ["OTHER_ACC_NUM_IN_TEXT"; "INSUFFICIENT";
            "COUNT_TEST_INSTANCE"; NO_KEYWORD_IN_TEXT])%list /\
    (pos = [] \/
     pos = ["post_window=POSITIVE"; "post_window=TEST_INSTANCE_POSITIVE"]).
Proof.
  eexists.
  assert (H : fst (make_vector Py2 "no result in this report" "S17-2222"
                               "EGFR" demo) = Return _)
    by (vm_compute; reflexivity).
  assert (C : Str.count "TEST_INSTANCE"
                (text (snd (make_vector Py2 "no result in this report"
                                        "S17-2222" "EGFR" demo))) = 0)
    by (vm_compute; reflexivity).
  destruct (make_vector_without_anchor _ _ _ _ _ _ H C) as (pos & L).
  exists pos. split; [exact H | exact L].
Defined.

Lemma classify_reads_a_set_witness :
  GenTestClassifier.classify
    demo_classifier
    ["EGFR"; "post_window=NEGATIVE"; "EGFR"; "post_window=MUT_ANALYSIS"]
  = GenTestClassifier.classify
      demo_classifier
      ["post_window=MUT_ANALYSIS"; "post_window=NEGATIVE"; "EGFR"].
Proof.
  apply (classify_reads_a_set
           demo_classifier
           ["EGFR"; "post_window=NEGATIVE"; "EGFR"; "post_window=MUT_ANALYSIS"]
           ["post_window=MUT_ANALYSIS"; "post_window=NEGATIVE"; "EGFR"]).
  intros f. cbn [In]. tauto.
Defined.

Lemma classify_labels_witness :
  ("Results Reported", "Negative", "Mutational Analysis")
  = ("Not Reported", "N/A", "N/A") \/
  ("Results Reported" = "Results Reported" /\
   ~ In "NO_KEYWORD_IN_TEXT"
        ["EGFR"; "post_window=NEGATIVE"; "post_window=MUT_ANALYSIS"] /\
   GenTestClassifier._classify
     demo_classifier "svm_reported"
     ["EGFR"; "post_window=NEGATIVE"; "post_window=MUT_ANALYSIS"]
   = Ok "Reported" /\
   In "Negative" (map snd GenTestClassifier.result_mapping) /\
   In "Mutational Analysis" (map snd GenTestClassifier.method_mapping)).
Proof.
  apply (classify_labels
           demo_classifier
           ["EGFR"; "post_window=NEGATIVE"; "post_window=MUT_ANALYSIS"]).
  vm_compute. reflexivity.
Defined.

Lemma no_anchor_is_not_reported_witness :
  exists vec,
    fst (make_vector Py2 "no result in this report" "S17-2222" "EGFR" demo)
    = Return vec /\
    GenTestClassifier.classify demo_classifier vec
    = Ok ("Not Reported", "N/A", "N/A").
Proof.
  eexists.
  assert (H : fst (make_vector Py2 "no result in this report" "S17-2222"
                               "EGFR" demo) = Return _)
    by (vm_compute; reflexivity).
  split; [exact H |].
  apply (no_anchor_is_not_reported
           Py2 "no result in this report" "S17-2222" "EGFR" demo);
    [exact H | vm_compute; reflexivity].
Defined.

Lemma last_result_decides_witness :
  run.resolve
    [("p1_t1", [("EGFR", ("Positive", "r1")); ("ALK", ("Unknown", "N/A"))])]
    "p1_t1" "EGFR" "r2" "Negative" "Mutational Analysis"
  = inr [("p1_t1",
          [("EGFR", ("Negative", "r2")); ("ALK", ("Unknown", "N/A"))])].
Proof.
  exact (last_result_decides
           [("p1_t1",
             [("EGFR", ("Positive", "r1")); ("ALK", ("Unknown", "N/A"))])]
           "p1_t1" "EGFR" "r2" "Negative" "Mutational Analysis"
           [("EGFR", ("Positive", "r1")); ("ALK", ("Unknown", "N/A"))]
           ("Positive", "r1") eq_refl eq_refl).
Defined.

Lemma process_row_keeps_cases_complete_witness :
  complete (run.cases demo_after_row) /\
  (has (run.cases demo_after_row) ("p1" ++ "_" ++ "t1") "EGFR" /\
   has (run.cases demo_after_row) ("p1" ++ "_" ++ "t1") "ALK") /\
  (forall c, c <> "p1" ++ "_" ++ "t1" ->
             Dict.get (run.cases demo_after_row) c
             = Dict.get (run.cases demo_world) c).
Proof.
  destruct (process_row_keeps_cases_complete
              Py2 demo_classifier demo_headers demo_row demo_world)
    as [_ H].
  assert (E : run.process_row Py2 demo_classifier demo_headers demo_row
                              demo_world = inr demo_after_row)
    by (vm_compute; reflexivity).
  destruct (H demo_after_row E) as [C R].
  split.
  - apply C. intros c d G. discriminate G.
  - apply (R "p1" "t1"); vm_compute; reflexivity.
Defined.

Lemma records_then_patients_witness :
  complete (fst demo_records) /\
  exists lines, run.process_patients (fst demo_records) = inr lines.
Proof.
  apply (records_then_patients Py2 demo_classifier demo demo_input
                               (fst demo_records) (snd demo_records)).
  vm_compute. reflexivity.
Defined.
